(** * Image data model of the image refactoring proposal (issue #16364)

    A shallow embedding of the proof-of-concept header
    (pixel formats, [View2d], [Array2d], [Image]) and the properties its
    specification states about it.

    Conventions of the embedding.
    - [u8] and [u32] values are integers of [Z]; every place where the C++
      code narrows to one of the two types is written out with [u8_wrap] or
      [u32_wrap].
    - A pointer is a byte address of [Z]; [0] is [nullptr].  Pointer
      arithmetic is addition of a byte offset and is not reduced modulo the
      pointer width: pointers are wider than the 32-bit offsets the code
      computes, as on a 64-bit target.
    - Memory is a finite map from allocated byte addresses to byte values.
      An access outside the allocated bytes is the fault [MemoryFault].
    - [assert] is the one of a build without [NDEBUG]: a failing assertion is
      the fault [AssertionFailed].  [std::get] on a variant that holds another
      alternative throws [std::bad_variant_access]: the fault
      [BadVariantAccess]. *)

From Stdlib Require Import ZArith Lia List Bool.
From stdpp Require Import base option list gmap.

Local Open Scope Z_scope.

(** ** Machine integers *)

Definition u8_wrap (z : Z) : Z := z mod 256.
Definition u32_wrap (z : Z) : Z := z mod 4294967296.

Definition is_u8 (z : Z) : Prop := 0 <= z < 256.
Definition is_u32 (z : Z) : Prop := 0 <= z < 4294967296.

(** The channel at bit offset [k] of a packed word, and the word packed
    from four channels: the expressions of the getters and of the constructor
    of [SColor]. *)
Definition channel (k w : Z) : Z := u8_wrap (Z.land (Z.shiftr w k) 255).

Definition pack (a r g b : Z) : Z :=
  u32_wrap (Z.lor (Z.lor (Z.lor (Z.shiftl a 24) (Z.shiftl r 16)) (Z.shiftl g 8)) b).

(** ** The generic packed colour *)

Module SColor.

Record t : Type := mk { color : Z }.

(** [SColor(u8 a, u8 r, u8 g, u8 b)]: the four shifts and ors are computed
    on promoted integers and the result is stored in the [u32] member. *)
Definition make (a r g b : Z) : t :=
  mk (u32_wrap
        (Z.lor (Z.lor (Z.lor (Z.shiftl a 24) (Z.shiftl r 16)) (Z.shiftl g 8)) b)).

Definition getAlpha (c : t) : Z := u8_wrap (Z.land (Z.shiftr (color c) 24) 255).
Definition getRed (c : t) : Z := u8_wrap (Z.land (Z.shiftr (color c) 16) 255).
Definition getGreen (c : t) : Z := u8_wrap (Z.land (Z.shiftr (color c) 8) 255).
Definition getBlue (c : t) : Z := u8_wrap (Z.land (color c) 255).

(** The values the [u32] member can hold. *)
Definition wf (c : t) : Prop := is_u32 (color c).

End SColor.

(** ** Pixel formats *)

Module RGBA8.

Record t : Type := mk { r : Z; g : Z; b : Z; a : Z }.

Definition fromSColor (c : SColor.t) : t :=
  mk (SColor.getRed c) (SColor.getGreen c) (SColor.getBlue c) (SColor.getAlpha c).

Definition toSColor (p : t) : SColor.t :=
  SColor.make (a p) (r p) (g p) (b p).

(** [operator==] *)
Definition eqb (p q : t) : bool :=
  (r p =? r q) && (g p =? g q) && (b p =? b q) && (a p =? a q).

Definition wf (p : t) : Prop :=
  is_u8 (r p) /\ is_u8 (g p) /\ is_u8 (b p) /\ is_u8 (a p).

End RGBA8.

Module RGB8.

Record t : Type := mk { r : Z; g : Z; b : Z }.

Definition fromSColor (c : SColor.t) : t :=
  mk (SColor.getRed c) (SColor.getGreen c) (SColor.getBlue c).

Definition toSColor (p : t) : SColor.t :=
  SColor.make 255 (r p) (g p) (b p).

Definition eqb (p q : t) : bool :=
  (r p =? r q) && (g p =? g q) && (b p =? b q).

Definition wf (p : t) : Prop :=
  is_u8 (r p) /\ is_u8 (g p) /\ is_u8 (b p).

End RGB8.

Module R8.

Record t : Type := mk { r : Z }.

Definition eqb (p q : t) : bool := (r p =? r q).

Definition wf (p : t) : Prop := is_u8 (r p).

End R8.

(** ** Faults and fallible results *)

Inductive fault : Type :=
| AssertionFailed     (* a failing [assert] *)
| BadVariantAccess    (* [std::bad_variant_access], thrown by [std::get] *)
| MemoryFault         (* an access outside the allocated bytes *)
| BadAlloc.           (* [operator new[]] could not provide the block *)

Inductive result (A : Type) : Type :=
| Ok (a : A)
| Fault (f : fault).

Arguments Ok {A} a.
Arguments Fault {A} f.

#[global] Instance result_ret : MRet result := fun A a => Ok a.
#[global] Instance result_bind : MBind result :=
  fun A B k r => match r with Ok a => k a | Fault f => Fault f end.

Definition assert_ (b : bool) : result unit :=
  if b then Ok tt else Fault AssertionFailed.

(** [for (u32 i = 0; i < n; ++i) body(i)] over a threaded state.  For [n] a
    [u32] the counter never wraps, so the body runs for [i = 0 .. n - 1]. *)
Fixpoint for_loop_from {S : Type} (fuel : nat) (i : Z)
    (body : Z -> S -> result S) (s : S) : result S :=
  match fuel with
  | O => Ok s
  | Datatypes.S k => s' ← body i s; for_loop_from k (i + 1) body s'
  end.

Definition for_loop {S : Type} (n : Z) (body : Z -> S -> result S) (s : S) : result S :=
  for_loop_from (Z.to_nat n) 0 body s.

(** ** Memory *)

Abbreviation heap := (gmap Z Z).

Fixpoint load_bytes (m : heap) (p : Z) (n : nat) : option (list Z) :=
  match n with
  | O => Some []
  | Datatypes.S k =>
      match m !! p, load_bytes m (p + 1) k with
      | Some b, Some bs => Some (b :: bs)
      | _, _ => None
      end
  end.

Fixpoint store_bytes (m : heap) (p : Z) (bs : list Z) : option heap :=
  match bs with
  | [] => Some m
  | b :: bs' =>
      match m !! p with
      | Some _ => store_bytes (<[p := b]> m) (p + 1) bs'
      | None => None
      end
  end.

(** The bytes [bs] laid out from address [p] on, over [m]. *)
Fixpoint write_block (p : Z) (bs : list Z) (m : heap) : heap :=
  match bs with
  | [] => m
  | b :: bs' => <[p := b]> (write_block (p + 1) bs' m)
  end.

(** [operator new[]] for [size] bytes.  The allocator's choice of the block
    address [p] and the indeterminate initial bytes [init] are inputs; the
    block must be new memory.  Otherwise the allocation throws. *)
Definition operator_new (p : Z) (init : list Z) (size : Z) (m : heap) : result heap :=
  if decide (0 < p /\ Z.of_nat (length init) = size /\
             map_Forall (fun a _ => ~ (p <= a < p + size)) m)
  then Ok (write_block p init m)
  else Fault BadAlloc.

(** The in-memory layout of a pixel type. *)
Class Pixel (T : Type) : Type := {
  sizeof : Z;
  to_bytes : T -> list Z;
  of_bytes : list Z -> option T;
  sizeof_range : 0 < sizeof < 4294967296;
  to_bytes_length : forall v, Z.of_nat (length (to_bytes v)) = sizeof;
  of_to_bytes : forall v, of_bytes (to_bytes v) = Some v
}.

Arguments sizeof T {_}.

#[global, refine] Instance RGBA8_pixel : Pixel RGBA8.t := {|
  sizeof := 4;
  to_bytes p := [RGBA8.r p; RGBA8.g p; RGBA8.b p; RGBA8.a p];
  of_bytes bs := match bs with
                 | [r; g; b; a] => Some (RGBA8.mk r g b a)
                 | _ => None
                 end
|}.
Proof.
  - lia.
  - reflexivity.
  - intros []. reflexivity.
Defined.

#[global, refine] Instance RGB8_pixel : Pixel RGB8.t := {|
  sizeof := 3;
  to_bytes p := [RGB8.r p; RGB8.g p; RGB8.b p];
  of_bytes bs := match bs with
                 | [r; g; b] => Some (RGB8.mk r g b)
                 | _ => None
                 end
|}.
Proof.
  - lia.
  - reflexivity.
  - intros []. reflexivity.
Defined.

#[global, refine] Instance R8_pixel : Pixel R8.t := {|
  sizeof := 1;
  to_bytes p := [R8.r p];
  of_bytes bs := match bs with
                 | [r] => Some (R8.mk r)
                 | _ => None
                 end
|}.
Proof.
  - lia.
  - reflexivity.
  - intros []. reflexivity.
Defined.

(** Reading and writing an object of type [T] through a [T*]. *)
Definition load {T : Type} `{Pixel T} (p : Z) (m : heap) : result T :=
  match load_bytes m p (Z.to_nat (sizeof T)) with
  | Some bs => match of_bytes bs with
               | Some v => Ok v
               | None => Fault MemoryFault
               end
  | None => Fault MemoryFault
  end.

Definition store {T : Type} `{Pixel T} (p : Z) (v : T) (m : heap) : result heap :=
  match store_bytes m p (to_bytes v) with
  | Some m' => Ok m'
  | None => Fault MemoryFault
  end.

(** ** View2d: the non-owning strided view *)

Module View2d.

Record t (T : Type) : Type := mk {
  data_ : Z;
  width_ : Z;
  height_ : Z;
  x_stride_ : Z;
  y_stride_ : Z
}.

Arguments mk {T} _ _ _ _ _.
Arguments data_ {T} _.
Arguments width_ {T} _.
Arguments height_ {T} _.
Arguments x_stride_ {T} _.
Arguments y_stride_ {T} _.

Section Methods.
Context {T : Type} `{Pixel T}.

(** [View2d(T *data, u32 width, u32 height, u32 y_stride = 0)].  The
    stride expression is computed in [size_t] and narrowed to the [u32]
    member. *)
Definition new (data width height y_stride : Z) : result (t T) :=
  _ ← assert_ (negb (data =? 0) || ((width =? 0) && (height =? 0)));
  Ok (mk data width height
         (u32_wrap (sizeof T))
         (u32_wrap (if 0 <? y_stride then y_stride else width * sizeof T))).

(** [at(x, y)]: the address of the element.  Both products are [u32]
    products; the sums are pointer arithmetic. *)
Definition at_ (v : t T) (x y : Z) : result Z :=
  _ ← assert_ ((x <? width_ v) && (y <? height_ v));
  Ok (data_ v + u32_wrap (y * y_stride_ v) + u32_wrap (x * x_stride_ v)).

Definition row (v : t T) (y : Z) : result Z :=
  _ ← assert_ (y <? height_ v);
  Ok (data_ v + u32_wrap (y * y_stride_ v)).

Definition drop (v : t T) (left top : Z) : result (t T) :=
  _ ← assert_ ((left <=? width_ v) && (top <=? height_ v));
  let new_data :=
    data_ v + u32_wrap (top * y_stride_ v) + u32_wrap (left * x_stride_ v) in
  new new_data (u32_wrap (width_ v - left)) (u32_wrap (height_ v - top))
      (y_stride_ v).

Definition take (v : t T) (width height : Z) : result (t T) :=
  _ ← assert_ ((width <=? width_ v) && (height <=? height_ v));
  new (data_ v) width height (y_stride_ v).

Definition slice (v : t T) (x y width height : Z) : result (t T) :=
  d ← drop v x y; take d width height.

Definition getWidth (v : t T) : Z := width_ v.
Definition getHeight (v : t T) : Z := height_ v.
Definition getYStride (v : t T) : Z := y_stride_ v.
Definition getData (v : t T) : Z := data_ v.

(** The class invariant: the records the constructor returns for [u32]
    arguments and a pointer (see [new_wf] and [wf_new] below). *)
Definition wf (v : t T) : Prop :=
  0 <= data_ v /\
  is_u32 (width_ v) /\ is_u32 (height_ v) /\
  (data_ v <> 0 \/ (width_ v = 0 /\ height_ v = 0)) /\
  x_stride_ v = sizeof T /\
  is_u32 (y_stride_ v) /\
  (y_stride_ v = 0 -> u32_wrap (width_ v * sizeof T) = 0).

End Methods.

End View2d.

(** ** Array2d: the owning array *)

Module Array2d.

Record t (T : Type) : Type := mk {
  owned_data_ : Z;
  view_ : View2d.t T
}.

Arguments mk {T} _ _.
Arguments owned_data_ {T} _.
Arguments view_ {T} _.

Section Methods.
Context {T : Type} `{Pixel T}.

(** [Array2d(u32 width, u32 height)]: [new T[width * height]] with the
    [u32] product as element count, then the view over the block.  [p]
    and [init] are the allocator's choices. *)
Definition new (width height : Z) (p : Z) (init : list Z) (m : heap)
  : result (t T * heap) :=
  m' ← operator_new p init (u32_wrap (width * height) * sizeof T) m;
  view ← View2d.new p width height 0;
  Ok (mk p view, m').

Definition getView (arr : t T) : View2d.t T := view_ arr.
Definition at_ (arr : t T) (x y : Z) : result Z := View2d.at_ (view_ arr) x y.
Definition row (arr : t T) (y : Z) : result Z := View2d.row (view_ arr) y.
Definition getWidth (arr : t T) : Z := View2d.getWidth (view_ arr).
Definition getHeight (arr : t T) : Z := View2d.getHeight (view_ arr).
Definition getData (arr : t T) : Z := View2d.getData (view_ arr).

End Methods.

End Array2d.

(** ** Image: the variant-based container *)

Module Image.

Inductive ImageData : Type :=
| HoldsRGBA8 (arr : Array2d.t RGBA8.t)
| HoldsRGB8 (arr : Array2d.t RGB8.t)
| HoldsR8 (arr : Array2d.t R8.t).

Record t : Type := mk { data_ : ImageData }.

Definition createRGBA8 (width height : Z) (p : Z) (init : list Z) (m : heap)
  : result (t * heap) :=
  '(arr, m') ← Array2d.new width height p init m; Ok (mk (HoldsRGBA8 arr), m').

Definition createRGB8 (width height : Z) (p : Z) (init : list Z) (m : heap)
  : result (t * heap) :=
  '(arr, m') ← Array2d.new width height p init m; Ok (mk (HoldsRGB8 arr), m').

Definition createR8 (width height : Z) (p : Z) (init : list Z) (m : heap)
  : result (t * heap) :=
  '(arr, m') ← Array2d.new width height p init m; Ok (mk (HoldsR8 arr), m').

Definition isRGBA8 (img : t) : bool :=
  match data_ img with HoldsRGBA8 _ => true | _ => false end.
Definition isRGB8 (img : t) : bool :=
  match data_ img with HoldsRGB8 _ => true | _ => false end.
Definition isR8 (img : t) : bool :=
  match data_ img with HoldsR8 _ => true | _ => false end.

(** The typed accessors: [std::get] of the alternative, then its view. *)
Definition getAsRGBA8 (img : t) : result (View2d.t RGBA8.t) :=
  match data_ img with
  | HoldsRGBA8 arr => Ok (Array2d.getView arr)
  | _ => Fault BadVariantAccess
  end.

Definition getAsRGB8 (img : t) : result (View2d.t RGB8.t) :=
  match data_ img with
  | HoldsRGB8 arr => Ok (Array2d.getView arr)
  | _ => Fault BadVariantAccess
  end.

Definition getAsR8 (img : t) : result (View2d.t R8.t) :=
  match data_ img with
  | HoldsR8 arr => Ok (Array2d.getView arr)
  | _ => Fault BadVariantAccess
  end.

(** [std::visit] of the width and height of the live alternative. *)
Definition getWidth (img : t) : Z :=
  match data_ img with
  | HoldsRGBA8 arr => Array2d.getWidth arr
  | HoldsRGB8 arr => Array2d.getWidth arr
  | HoldsR8 arr => Array2d.getWidth arr
  end.

Definition getHeight (img : t) : Z :=
  match data_ img with
  | HoldsRGBA8 arr => Array2d.getHeight arr
  | HoldsRGB8 arr => Array2d.getHeight arr
  | HoldsR8 arr => Array2d.getHeight arr
  end.

(** The two nested loops of [fill], which the source writes out once per
    format: every row pointer is indexed from [0] to the width. *)
Definition fill_rows {T : Type} `{Pixel T} (view : View2d.t T) (v : T) (m : heap)
  : result heap :=
  for_loop (View2d.getHeight view)
    (fun y m1 =>
       row_ptr ← View2d.row view y;
       for_loop (View2d.getWidth view)
         (fun x m2 => store (row_ptr + x * sizeof T) v m2) m1)
    m.

(** The mutating methods return the container after the call together
    with the memory. *)
Definition fill (color : SColor.t) (img : t) (m : heap) : result (t * heap) :=
  if isRGBA8 img then
    let rgba := RGBA8.fromSColor color in
    view ← getAsRGBA8 img;
    m' ← fill_rows view rgba m;
    Ok (img, m')
  else if isRGB8 img then
    let rgb := RGB8.fromSColor color in
    view ← getAsRGB8 img;
    m' ← fill_rows view rgb m;
    Ok (img, m')
  else Ok (img, m).

Definition getPixel (img : t) (x y : Z) (m : heap) : result SColor.t :=
  if isRGBA8 img then
    view ← getAsRGBA8 img;
    a ← View2d.at_ view x y;
    px ← load a m;
    Ok (RGBA8.toSColor px)
  else if isRGB8 img then
    view ← getAsRGB8 img;
    a ← View2d.at_ view x y;
    px ← load a m;
    Ok (RGB8.toSColor px)
  else Ok (SColor.make 0 0 0 0).

Definition setPixel (x y : Z) (color : SColor.t) (img : t) (m : heap)
  : result (t * heap) :=
  if isRGBA8 img then
    view ← getAsRGBA8 img;
    a ← View2d.at_ view x y;
    m' ← store a (RGBA8.fromSColor color) m;
    Ok (img, m')
  else if isRGB8 img then
    view ← getAsRGB8 img;
    a ← View2d.at_ view x y;
    m' ← store a (RGB8.fromSColor color) m;
    Ok (img, m')
  else Ok (img, m).

End Image.

(** ** The invariant of the loops of [fill] *)

(** Over the block of [n] elements at [p]: the first [k] elements hold [v],
    the allocated bytes are those of [m], and the bytes outside the block are
    those of [m]. *)
Definition filled {T : Type} `{Pixel T} (p n : Z) (v : T) (m : heap) (k : Z) (m' : heap)
  : Prop :=
  (forall i, 0 <= i < k -> load (p + i * sizeof T) m' = Ok v) /\
  (forall a, is_Some (m' !! a) <-> is_Some (m !! a)) /\
  (forall a, ~ (p <= a < p + n * sizeof T) -> m' !! a = m !! a).

(** ** Concrete inputs *)

(** A 10x10 image of each format, built in an empty memory at address 4096
    over zeroed bytes: the concrete inputs of the examples below. *)
Definition sample_view {T : Type} `{Pixel T} : View2d.t T :=
  View2d.mk 4096 10 10 (sizeof T) (10 * sizeof T).

Definition sample_RGBA8 : Image.t :=
  Image.mk (Image.HoldsRGBA8 (Array2d.mk 4096 sample_view)).
Definition sample_RGB8 : Image.t :=
  Image.mk (Image.HoldsRGB8 (Array2d.mk 4096 sample_view)).
Definition sample_R8 : Image.t :=
  Image.mk (Image.HoldsR8 (Array2d.mk 4096 sample_view)).

Definition sample_heap (size : nat) : heap := write_block 4096 (replicate size 0) ∅.

(** A one-row view of 2^30 [RGBA8] pixels: its row of 2^32 bytes makes the
    default stride wrap to 0. *)
Definition wide_view : View2d.t RGBA8.t := View2d.mk 4096 1073741824 1 4 0.

(** The container [createRGBA8(65536, 65536)] returns for a block at 4096:
    the element count 65536 * 65536 wraps to 0, so the block has no bytes. *)
Definition huge_RGBA8 : Image.t :=
  Image.mk (Image.HoldsRGBA8 (Array2d.mk 4096 (View2d.mk 4096 65536 65536 4 262144))).

(** Two views on which element addresses of a sub-view and of its parent
    part: two rows of 2^30 [RGBA8] pixels (default stride, which wraps to 0),
    and three rows of one [R8] pixel that lie 2^31 bytes apart. *)
Definition wide_rows_view : View2d.t RGBA8.t := View2d.mk 4096 1073741824 2 4 0.
Definition far_rows_view : View2d.t R8.t := View2d.mk 4096 1 3 1 2147483648.

(** The container [createRGBA8(2^30, 2)] returns for a block at 4096, and
    the 2^33 zero bytes the block starts with: the row stride 2^30 * 4 wraps
    to 0. *)
Definition aliased_RGBA8 : Image.t :=
  Image.mk (Image.HoldsRGBA8 (Array2d.mk 4096 (View2d.mk 4096 1073741824 2 4 0))).

Definition zero_bytes : list Z := replicate (Z.to_nat 8589934592) 0.

(** ** Memory: single bytes and [memcpy] *)


Definition store_u8 (p : Z) (b : Z) (m : heap) : result heap :=
  match m !! p with
  | Some _ => Ok (<[p := b]> m)
  | None => Fault MemoryFault
  end.

(** [std::memcpy(dst, src, n)]: the [n] bytes at [src] are read, then written
    at [dst].  C++ defines the call only for ranges that do not overlap; on
    overlapping ranges the model faults, as for every other access the
    language leaves undefined. *)
Definition memcpy (dst src n : Z) (m : heap) : result heap :=
  if decide (dst < src + n /\ src < dst + n) then Fault MemoryFault
  else
    match load_bytes m src (Z.to_nat n) with
    | Some bs => match store_bytes m dst bs with
                 | Some m' => Ok m'
                 | None => Fault MemoryFault
                 end
    | None => Fault MemoryFault
    end.

(** ** Callers: the usage examples *)

Module Usage.

(** [fill_region(img, x, y, w, h, color)]: the region is
    [view.drop(x, y).take(w, h)] of the [RGBA8] view, and its two loops are
    those of [Image::fill]. *)
Definition fill_region (img : Image.t) (x y w h : Z) (color : SColor.t) (m : heap)
  : result (Image.t * heap) :=
  view ← Image.getAsRGBA8 img;
  d ← View2d.drop view x y;
  region ← View2d.take d w h;
  let rgba := RGBA8.fromSColor color in
  m' ← Image.fill_rows region rgba m;
  Ok (img, m').

(** [blit_rgba8(dst, src, dst_x, dst_y)].  The two differences are [u32]
    subtractions; the byte count [width * sizeof(RGBA8)] is a [size_t]
    product, wider than 32 bits like the pointers. *)
Definition blit_rgba8 (dst src : View2d.t RGBA8.t) (dst_x dst_y : Z) (m : heap)
  : result heap :=
  let width := Z.min (View2d.getWidth src) (u32_wrap (View2d.getWidth dst - dst_x)) in
  let height := Z.min (View2d.getHeight src) (u32_wrap (View2d.getHeight dst - dst_y)) in
  d ← View2d.drop dst dst_x dst_y;
  dst_region ← View2d.take d width height;
  src_region ← View2d.take src width height;
  for_loop height
    (fun y m1 =>
       src_row ← View2d.row src_region y;
       dst_row ← View2d.row dst_region y;
       memcpy dst_row src_row (width * sizeof RGBA8.t) m1)
    m.

(** [map_pixels(img, func)] for a function [func] from pixel to pixel. *)
Definition map_pixels (img : Image.t) (func : RGBA8.t -> RGBA8.t) (m : heap)
  : result (Image.t * heap) :=
  view ← Image.getAsRGBA8 img;
  m' ← for_loop (View2d.getHeight view)
         (fun y m1 =>
            row_ptr ← View2d.row view y;
            for_loop (View2d.getWidth view)
              (fun x m2 =>
                 px ← load (row_ptr + x * sizeof RGBA8.t) m2;
                 store (row_ptr + x * sizeof RGBA8.t) (func px) m2)
              m1)
         m;
  Ok (img, m').


(** [process_region_new(img, x, y, w, h)]: [row[i].r = 255] writes the byte
    at offset 0 of the element. *)
Definition process_region_new (img : Image.t) (x y w h : Z) (m : heap)
  : result (Image.t * heap) :=
  view ← Image.getAsRGBA8 img;
  d ← View2d.drop view x y;
  region ← View2d.take d w h;
  m' ← for_loop (View2d.getHeight region)
         (fun j m1 =>
            row ← View2d.row region j;
            for_loop (View2d.getWidth region)
              (fun i m2 => store_u8 (row + i * sizeof RGBA8.t + 0) 255 m2)
              m1)
         m;
  Ok (img, m').

End Usage.


(** A 4x4 [RGBA8] view over a block of 64 bytes at 8192, and the memory
    that holds this block beside the buffer of the 10x10 image. *)
Definition blit_src : View2d.t RGBA8.t := View2d.mk 8192 4 4 4 16.
Definition blit_heap : heap := write_block 8192 (replicate 64 0) (sample_heap 400).

(** ** Predicates of the further properties *)

(** The [size] bytes from [p] on are allocated in [m]. *)
Definition allocated (p size : Z) (m : heap) : Prop :=
  forall a, p <= a < p + size -> is_Some (m !! a).

(** [a] is a byte of one of the [h] rows of [w] elements of size [sz] that
    start [ys] bytes apart from [d] on. *)
Definition in_rows (d w h ys sz a : Z) : Prop :=
  exists y, 0 <= y < h /\ d + y * ys <= a < d + y * ys + w * sz.

(** The memory after the first [k] elements of the block at [p] were
    overwritten with [v], byte by byte. *)
Definition overwritten {T : Type} `{Pixel T} (p : Z) (v : T) (m : heap) (k : Z)
    (m' : heap) : Prop :=
  forall a, m' !! a =
    if decide (p <= a < p + k * sizeof T)
    then to_bytes v !! Z.to_nat ((a - p) mod sizeof T)
    else m !! a.

(** Every byte outside the elements ([sz] bytes from [elem x y] on, for
    [x < w] and [y < h]) that satisfy [P] is in [m0] as in [m]. *)
Definition untouched (w h sz : Z) (elem : Z -> Z -> Z) (m : heap)
    (P : Z -> Z -> Prop) (m0 : heap) : Prop :=
  forall a,
    (forall x y, 0 <= x < w -> 0 <= y < h -> P x y -> ~ (elem x y <= a < elem x y + sz)) ->
    m0 !! a = m !! a.

(** The value of [img.getAsRGBA8().at(x, y)] in memory [m]. *)
Definition pixel_RGBA8 (img : Image.t) (x y : Z) (m : heap) : result RGBA8.t :=
  v ← Image.getAsRGBA8 img;
  a ← View2d.at_ v x y;
  load a m.


(** * Properties *)

(** ** Bit-level facts about the packed colour *)

Section PackedBits.

Lemma testbit_u8_high (z n : Z) : is_u8 z -> 8 <= n -> Z.testbit z n = false.
Proof.
  intros Hz Hn. rewrite <- (Z.mod_small z (2 ^ 8)) by exact Hz.
  apply Z.mod_pow2_bits_high. lia.
Qed.

Lemma testbit_u32_high (z n : Z) : is_u32 z -> 32 <= n -> Z.testbit z n = false.
Proof.
  intros Hz Hn. rewrite <- (Z.mod_small z (2 ^ 32)) by exact Hz.
  apply Z.mod_pow2_bits_high. lia.
Qed.

Lemma land_255 (z : Z) : Z.land z 255 = z mod 256.
Proof. change 255 with (Z.ones 8). rewrite Z.land_ones by lia. reflexivity. Qed.

Lemma land_255_u8 (z : Z) : is_u8 (Z.land z 255).
Proof. rewrite land_255. unfold is_u8. apply Z.mod_pos_bound. lia. Qed.

Lemma u8_wrap_id (z : Z) : is_u8 z -> u8_wrap z = z.
Proof. intros Hz. unfold u8_wrap. apply Z.mod_small. exact Hz. Qed.

Lemma u32_wrap_id (z : Z) : is_u32 z -> u32_wrap z = z.
Proof. intros Hz. unfold u32_wrap. apply Z.mod_small. exact Hz. Qed.

Lemma u32_wrap_range (z : Z) : is_u32 (u32_wrap z).
Proof. unfold is_u32, u32_wrap. apply Z.mod_pos_bound. lia. Qed.

Lemma channel_spec (k w : Z) : channel k w = Z.land (Z.shiftr w k) 255.
Proof. unfold channel. apply u8_wrap_id, land_255_u8. Qed.

Lemma channel_u8 (k w : Z) : is_u8 (channel k w).
Proof. rewrite channel_spec. apply land_255_u8. Qed.

Lemma testbit_channel (k w n : Z) :
  0 <= n -> Z.testbit (channel k w) n = (n <? 8) && Z.testbit w (n + k).
Proof.
  intros Hn. rewrite channel_spec, land_255.
  change 256 with (2 ^ 8).
  destruct (Z.ltb_spec n 8) as [Hlt | Hge].
  - rewrite Z.mod_pow2_bits_low by lia. rewrite Z.shiftr_spec by lia. reflexivity.
  - rewrite Z.mod_pow2_bits_high by lia. reflexivity.
Qed.

Lemma testbit_pack (a r g b n : Z) :
  is_u8 a -> is_u8 r -> is_u8 g -> is_u8 b -> 0 <= n ->
  Z.testbit (pack a r g b) n =
    if n <? 8 then Z.testbit b n
    else if n <? 16 then Z.testbit g (n - 8)
    else if n <? 24 then Z.testbit r (n - 16)
    else Z.testbit a (n - 24).
Proof.
  intros Ha Hr Hg Hb Hn. unfold pack, u32_wrap.
  change 4294967296 with (2 ^ 32).
  destruct (Z.ltb_spec n 32) as [Hlt | Hge].
  - rewrite Z.mod_pow2_bits_low by lia.
    rewrite !Z.lor_spec, !Z.shiftl_spec by lia.
    destruct (Z.ltb_spec n 8); [| destruct (Z.ltb_spec n 16); [| destruct (Z.ltb_spec n 24)]].
    + rewrite !(Z.testbit_neg_r _ (n - _)) by lia. reflexivity.
    + rewrite !(Z.testbit_neg_r _ (n - 24)), !(Z.testbit_neg_r _ (n - 16)) by lia.
      rewrite (testbit_u8_high b) by (assumption || lia).
      simpl. apply Bool.orb_false_r.
    + rewrite (Z.testbit_neg_r _ (n - 24)) by lia.
      rewrite (testbit_u8_high b), (testbit_u8_high g) by (assumption || lia).
      simpl. rewrite !Bool.orb_false_r. reflexivity.
    + rewrite (testbit_u8_high b), (testbit_u8_high g), (testbit_u8_high r)
        by (assumption || lia).
      rewrite !Bool.orb_false_r. reflexivity.
  - rewrite Z.mod_pow2_bits_high by lia.
    destruct (Z.ltb_spec n 8); [lia |].
    destruct (Z.ltb_spec n 16); [lia |].
    destruct (Z.ltb_spec n 24); [lia |].
    symmetry. apply testbit_u8_high; [assumption | lia].
Qed.

Lemma eq_of_testbit_u8 (x y : Z) :
  is_u8 x -> is_u8 y ->
  (forall n, 0 <= n < 8 -> Z.testbit x n = Z.testbit y n) -> x = y.
Proof.
  intros Hx Hy H. apply Z.bits_inj'. intros n Hn.
  destruct (Z.ltb_spec n 8) as [Hlt | Hge].
  - apply H. lia.
  - rewrite !testbit_u8_high by assumption. reflexivity.
Qed.

Lemma channel_pack_24 (a r g b : Z) :
  is_u8 a -> is_u8 r -> is_u8 g -> is_u8 b -> channel 24 (pack a r g b) = a.
Proof.
  intros Ha Hr Hg Hb. apply eq_of_testbit_u8; [apply channel_u8 | assumption |].
  intros n Hn. rewrite testbit_channel, testbit_pack by (assumption || lia).
  destruct (Z.ltb_spec n 8); [| lia].
  destruct (Z.ltb_spec (n + 24) 8); [lia |].
  destruct (Z.ltb_spec (n + 24) 16); [lia |].
  destruct (Z.ltb_spec (n + 24) 24); [lia |].
  simpl. f_equal. lia.
Qed.

Lemma channel_pack_16 (a r g b : Z) :
  is_u8 a -> is_u8 r -> is_u8 g -> is_u8 b -> channel 16 (pack a r g b) = r.
Proof.
  intros Ha Hr Hg Hb. apply eq_of_testbit_u8; [apply channel_u8 | assumption |].
  intros n Hn. rewrite testbit_channel, testbit_pack by (assumption || lia).
  destruct (Z.ltb_spec n 8); [| lia].
  destruct (Z.ltb_spec (n + 16) 8); [lia |].
  destruct (Z.ltb_spec (n + 16) 16); [lia |].
  destruct (Z.ltb_spec (n + 16) 24); [| lia].
  simpl. f_equal. lia.
Qed.

Lemma channel_pack_8 (a r g b : Z) :
  is_u8 a -> is_u8 r -> is_u8 g -> is_u8 b -> channel 8 (pack a r g b) = g.
Proof.
  intros Ha Hr Hg Hb. apply eq_of_testbit_u8; [apply channel_u8 | assumption |].
  intros n Hn. rewrite testbit_channel, testbit_pack by (assumption || lia).
  destruct (Z.ltb_spec n 8); [| lia].
  destruct (Z.ltb_spec (n + 8) 8); [lia |].
  destruct (Z.ltb_spec (n + 8) 16); [| lia].
  simpl. f_equal. lia.
Qed.

Lemma channel_pack_0 (a r g b : Z) :
  is_u8 a -> is_u8 r -> is_u8 g -> is_u8 b -> channel 0 (pack a r g b) = b.
Proof.
  intros Ha Hr Hg Hb. apply eq_of_testbit_u8; [apply channel_u8 | assumption |].
  intros n Hn. rewrite testbit_channel, testbit_pack by (assumption || lia).
  destruct (Z.ltb_spec n 8); [| lia].
  destruct (Z.ltb_spec (n + 0) 8); [| lia].
  simpl. f_equal. lia.
Qed.

(** Packing the four channels of a 32-bit word gives the word back. *)
Lemma pack_channels (w : Z) :
  is_u32 w -> pack (channel 24 w) (channel 16 w) (channel 8 w) (channel 0 w) = w.
Proof.
  intros Hw. apply Z.bits_inj'. intros n Hn.
  rewrite testbit_pack by (apply channel_u8 || lia).
  destruct (Z.ltb_spec n 8); [| destruct (Z.ltb_spec n 16); [| destruct (Z.ltb_spec n 24)]];
    rewrite testbit_channel by lia.
  - destruct (Z.ltb_spec n 8); [| lia]. simpl. f_equal. lia.
  - destruct (Z.ltb_spec (n - 8) 8); [| lia]. simpl. f_equal. lia.
  - destruct (Z.ltb_spec (n - 16) 8); [| lia]. simpl. f_equal. lia.
  - destruct (Z.ltb_spec (n - 24) 8) as [Hlt | Hge].
    + simpl. f_equal. lia.
    + simpl. symmetry. apply testbit_u32_high; [assumption | lia].
Qed.

End PackedBits.

(** ** The pixel formats and the packed colour *)

Lemma make_pack (a r g b : Z) : SColor.make a r g b = SColor.mk (pack a r g b).
Proof. reflexivity. Qed.

Lemma getAlpha_channel (c : SColor.t) : SColor.getAlpha c = channel 24 (SColor.color c).
Proof. reflexivity. Qed.

Lemma getRed_channel (c : SColor.t) : SColor.getRed c = channel 16 (SColor.color c).
Proof. reflexivity. Qed.

Lemma getGreen_channel (c : SColor.t) : SColor.getGreen c = channel 8 (SColor.color c).
Proof. reflexivity. Qed.

Lemma getBlue_channel (c : SColor.t) : SColor.getBlue c = channel 0 (SColor.color c).
Proof. unfold SColor.getBlue, channel. rewrite Z.shiftr_0_r. reflexivity. Qed.

Lemma getters_make (a r g b : Z) :
  is_u8 a -> is_u8 r -> is_u8 g -> is_u8 b ->
  SColor.getAlpha (SColor.make a r g b) = a /\
  SColor.getRed (SColor.make a r g b) = r /\
  SColor.getGreen (SColor.make a r g b) = g /\
  SColor.getBlue (SColor.make a r g b) = b.
Proof.
  intros Ha Hr Hg Hb.
  rewrite getAlpha_channel, getRed_channel, getGreen_channel, getBlue_channel, make_pack.
  simpl. auto using channel_pack_24, channel_pack_16, channel_pack_8, channel_pack_0.
Qed.

Lemma make_getters (c : SColor.t) :
  SColor.wf c ->
  SColor.make (SColor.getAlpha c) (SColor.getRed c) (SColor.getGreen c) (SColor.getBlue c) = c.
Proof.
  intros Hc. destruct c as [w]. unfold SColor.wf in Hc. simpl in Hc.
  rewrite getAlpha_channel, getRed_channel, getGreen_channel, getBlue_channel, make_pack.
  simpl. f_equal. apply pack_channels. exact Hc.
Qed.

Lemma RGBA8_fromSColor_wf (c : SColor.t) : RGBA8.wf (RGBA8.fromSColor c).
Proof.
  unfold RGBA8.wf, RGBA8.fromSColor. simpl.
  rewrite getAlpha_channel, getRed_channel, getGreen_channel, getBlue_channel.
  auto using channel_u8.
Qed.

Lemma RGBA8_to_from_SColor (c : SColor.t) :
  SColor.wf c -> RGBA8.toSColor (RGBA8.fromSColor c) = c.
Proof. intros Hc. unfold RGBA8.toSColor, RGBA8.fromSColor. simpl. apply make_getters, Hc. Qed.

Lemma RGBA8_eqb_refl (p : RGBA8.t) : RGBA8.eqb p p = true.
Proof. unfold RGBA8.eqb. rewrite !Z.eqb_refl. reflexivity. Qed.

Lemma RGB8_eqb_refl (p : RGB8.t) : RGB8.eqb p p = true.
Proof. unfold RGB8.eqb. rewrite !Z.eqb_refl. reflexivity. Qed.

(** C2.  For all 8-bit r, g, b, a, converting the pixel [RGBA8(r,g,b,a)] to
    the packed colour and back gives the identical pixel, as an equality and
    under [operator==]; each getter of the packed colour returns the channel
    of the same name, so no channel is lost or reordered. *)
Theorem RGBA8_roundtrip (r g b a : Z) :
  is_u8 r -> is_u8 g -> is_u8 b -> is_u8 a ->
  RGBA8.fromSColor (RGBA8.toSColor (RGBA8.mk r g b a)) = RGBA8.mk r g b a /\
  RGBA8.eqb (RGBA8.fromSColor (RGBA8.toSColor (RGBA8.mk r g b a))) (RGBA8.mk r g b a) = true /\
  SColor.getRed (RGBA8.toSColor (RGBA8.mk r g b a)) = r /\
  SColor.getGreen (RGBA8.toSColor (RGBA8.mk r g b a)) = g /\
  SColor.getBlue (RGBA8.toSColor (RGBA8.mk r g b a)) = b /\
  SColor.getAlpha (RGBA8.toSColor (RGBA8.mk r g b a)) = a.
Proof.
  intros Hr Hg Hb Ha.
  destruct (getters_make a r g b Ha Hr Hg Hb) as (Ea & Er & Eg & Eb).
  assert (Hrt : RGBA8.fromSColor (RGBA8.toSColor (RGBA8.mk r g b a)) = RGBA8.mk r g b a).
  { unfold RGBA8.fromSColor, RGBA8.toSColor. simpl. rewrite Ea, Er, Eg, Eb. reflexivity. }
  split; [exact Hrt |]. split; [rewrite Hrt; apply RGBA8_eqb_refl |].
  unfold RGBA8.toSColor. simpl. auto.
Qed.

Lemma RGBA8_roundtrip_witness :
  (is_u8 18 /\ is_u8 52 /\ is_u8 86 /\ is_u8 200) /\
  RGBA8.fromSColor (RGBA8.toSColor (RGBA8.mk 18 52 86 200)) = RGBA8.mk 18 52 86 200.
Proof.
  assert (H : is_u8 18 /\ is_u8 52 /\ is_u8 86 /\ is_u8 200) by (unfold is_u8; lia).
  split; [exact H |].
  destruct H as (H1 & H2 & H3 & H4).
  exact (proj1 (RGBA8_roundtrip 18 52 86 200 H1 H2 H3 H4)).
Defined.

(** C7.  For all 8-bit r, g, b and any 8-bit alpha a: [RGB8::fromSColor]
    discards the alpha of [SColor(a,r,g,b)] and returns [RGB8(r,g,b)];
    [RGB8(r,g,b).toSColor()] has alpha 255 and the channels r, g, b; so a
    colour that goes through an [RGB8] pixel comes back with alpha 255 and
    the same three channels, whatever its alpha was. *)
Theorem RGB8_alpha_opaque (a r g b : Z) :
  is_u8 a -> is_u8 r -> is_u8 g -> is_u8 b ->
  RGB8.fromSColor (SColor.make a r g b) = RGB8.mk r g b /\
  RGB8.eqb (RGB8.fromSColor (SColor.make a r g b)) (RGB8.mk r g b) = true /\
  SColor.getAlpha (RGB8.toSColor (RGB8.mk r g b)) = 255 /\
  SColor.getRed (RGB8.toSColor (RGB8.mk r g b)) = r /\
  SColor.getGreen (RGB8.toSColor (RGB8.mk r g b)) = g /\
  SColor.getBlue (RGB8.toSColor (RGB8.mk r g b)) = b /\
  RGB8.toSColor (RGB8.fromSColor (SColor.make a r g b)) = SColor.make 255 r g b /\
  SColor.getAlpha (RGB8.toSColor (RGB8.fromSColor (SColor.make a r g b))) = 255.
Proof.
  intros Ha Hr Hg Hb.
  assert (H255 : is_u8 255) by (unfold is_u8; lia).
  destruct (getters_make a r g b Ha Hr Hg Hb) as (Ea & Er & Eg & Eb).
  destruct (getters_make 255 r g b H255 Hr Hg Hb) as (Fa & Fr & Fg & Fb).
  assert (Hfrom : RGB8.fromSColor (SColor.make a r g b) = RGB8.mk r g b).
  { unfold RGB8.fromSColor. rewrite Er, Eg, Eb. reflexivity. }
  rewrite Hfrom. unfold RGB8.toSColor. simpl.
  repeat split; auto using RGB8_eqb_refl.
Qed.

Lemma RGB8_alpha_opaque_witness :
  (is_u8 7 /\ is_u8 10 /\ is_u8 20 /\ is_u8 30) /\
  SColor.getAlpha (RGB8.toSColor (RGB8.fromSColor (SColor.make 7 10 20 30))) = 255.
Proof.
  assert (H : is_u8 7 /\ is_u8 10 /\ is_u8 20 /\ is_u8 30) by (unfold is_u8; lia).
  split; [exact H |].
  destruct H as (H1 & H2 & H3 & H4).
  exact (proj2 (proj2 (proj2 (proj2 (proj2 (proj2 (proj2
    (RGB8_alpha_opaque 7 10 20 30 H1 H2 H3 H4)))))))).
Defined.

(** ** Results *)

Lemma bind_Ok_inv {A B : Type} (r : result A) (k : A -> result B) (b : B) :
  r ≫= k = Ok b -> exists a, r = Ok a /\ k a = Ok b.
Proof. destruct r as [a | f]; simpl; intros E; [eauto | discriminate]. Qed.

Lemma assert_Ok_inv (c : bool) (u : unit) : assert_ c = Ok u -> c = true.
Proof. destruct c; simpl; [reflexivity | discriminate]. Qed.

Lemma assert_true (c : bool) : c = true -> assert_ c = Ok tt.
Proof. intros ->. reflexivity. Qed.

(** ** Construction of arrays and images *)

Section Construction.
Context {T : Type} `{Pixel T}.

Lemma Array2d_new_inv (width height p : Z) (init : list Z) (m m1 : heap)
    (arr : Array2d.t T) :
  Array2d.new width height p init m = Ok (arr, m1) ->
  operator_new p init (u32_wrap (width * height) * sizeof T) m = Ok m1 /\
  exists view, View2d.new p width height 0 = Ok view /\ arr = Array2d.mk p view.
Proof.
  unfold Array2d.new. intros E.
  apply bind_Ok_inv in E as (m' & Ealloc & E).
  apply bind_Ok_inv in E as (view & Eview & E).
  injection E as <- <-. eauto.
Qed.

Lemma View2d_new_inv (data width height y_stride : Z) (v : View2d.t T) :
  View2d.new data width height y_stride = Ok v ->
  (data <> 0 \/ (width = 0 /\ height = 0)) /\
  v = View2d.mk data width height (u32_wrap (sizeof T))
        (u32_wrap (if 0 <? y_stride then y_stride else width * sizeof T)).
Proof.
  unfold View2d.new. intros E.
  apply bind_Ok_inv in E as (u & Ea & E). apply assert_Ok_inv in Ea.
  injection E as <-. split; [| reflexivity].
  apply orb_true_iff in Ea as [Ea | Ea].
  - left. apply negb_true_iff, Z.eqb_neq in Ea. exact Ea.
  - right. apply andb_true_iff in Ea as [E1 E2]. split; apply Z.eqb_eq; assumption.
Qed.

Lemma View2d_new_Ok (data width height y_stride : Z) :
  data <> 0 \/ (width = 0 /\ height = 0) ->
  View2d.new data width height y_stride =
    Ok (View2d.mk data width height (u32_wrap (sizeof T))
          (u32_wrap (if 0 <? y_stride then y_stride else width * sizeof T))).
Proof.
  intros Hd. unfold View2d.new. rewrite assert_true; [reflexivity |].
  apply orb_true_iff. destruct Hd as [Hd | [-> ->]].
  - left. apply negb_true_iff, Z.eqb_neq. exact Hd.
  - right. reflexivity.
Qed.

Lemma sizeof_u32 : u32_wrap (sizeof T) = sizeof T.
Proof. apply u32_wrap_id. unfold is_u32. pose proof sizeof_range. lia. Qed.

End Construction.

Lemma createRGBA8_inv (w h p : Z) (init : list Z) (m m1 : heap) (img : Image.t) :
  Image.createRGBA8 w h p init m = Ok (img, m1) ->
  exists arr, Array2d.new w h p init m = Ok (arr, m1) /\
              img = Image.mk (Image.HoldsRGBA8 arr).
Proof.
  unfold Image.createRGBA8. intros E.
  apply bind_Ok_inv in E as ([arr m'] & Ea & E). injection E as <- <-. eauto.
Qed.

Lemma createRGB8_inv (w h p : Z) (init : list Z) (m m1 : heap) (img : Image.t) :
  Image.createRGB8 w h p init m = Ok (img, m1) ->
  exists arr, Array2d.new w h p init m = Ok (arr, m1) /\
              img = Image.mk (Image.HoldsRGB8 arr).
Proof.
  unfold Image.createRGB8. intros E.
  apply bind_Ok_inv in E as ([arr m'] & Ea & E). injection E as <- <-. eauto.
Qed.

Lemma createR8_inv (w h p : Z) (init : list Z) (m m1 : heap) (img : Image.t) :
  Image.createR8 w h p init m = Ok (img, m1) ->
  exists arr, Array2d.new w h p init m = Ok (arr, m1) /\
              img = Image.mk (Image.HoldsR8 arr).
Proof.
  unfold Image.createR8. intros E.
  apply bind_Ok_inv in E as ([arr m'] & Ea & E). injection E as <- <-. eauto.
Qed.

Lemma sample_RGBA8_created :
  Image.createRGBA8 10 10 4096 (replicate 400 0) ∅ = Ok (sample_RGBA8, sample_heap 400).
Proof.
  unfold Image.createRGBA8, Array2d.new, operator_new.
  rewrite decide_True; [reflexivity |].
  split; [lia |]. split; [rewrite length_replicate; reflexivity | apply map_Forall_empty].
Qed.

Lemma sample_RGB8_created :
  Image.createRGB8 10 10 4096 (replicate 300 0) ∅ = Ok (sample_RGB8, sample_heap 300).
Proof.
  unfold Image.createRGB8, Array2d.new, operator_new.
  rewrite decide_True; [reflexivity |].
  split; [lia |]. split; [rewrite length_replicate; reflexivity | apply map_Forall_empty].
Qed.

Lemma sample_R8_created :
  Image.createR8 10 10 4096 (replicate 100 0) ∅ = Ok (sample_R8, sample_heap 100).
Proof.
  unfold Image.createR8, Array2d.new, operator_new.
  rewrite decide_True; [reflexivity |].
  split; [lia |]. split; [rewrite length_replicate; reflexivity | apply map_Forall_empty].
Qed.

(** ** The container: live variant, typed accessors, single-channel images *)

Lemma exactly_one_live (img : Image.t) :
  (Image.isRGBA8 img = true /\ Image.isRGB8 img = false /\ Image.isR8 img = false) \/
  (Image.isRGBA8 img = false /\ Image.isRGB8 img = true /\ Image.isR8 img = false) \/
  (Image.isRGBA8 img = false /\ Image.isRGB8 img = false /\ Image.isR8 img = true).
Proof. destruct img as [[arr | arr | arr]]; simpl; auto. Qed.

Lemma fill_same_container (c : SColor.t) (img img' : Image.t) (m m' : heap) :
  Image.fill c img m = Ok (img', m') -> img' = img.
Proof.
  unfold Image.fill. intros E.
  destruct (Image.isRGBA8 img); [| destruct (Image.isRGB8 img)].
  - apply bind_Ok_inv in E as (v & _ & E). apply bind_Ok_inv in E as (m2 & _ & E).
    injection E as <- _. reflexivity.
  - apply bind_Ok_inv in E as (v & _ & E). apply bind_Ok_inv in E as (m2 & _ & E).
    injection E as <- _. reflexivity.
  - injection E as <- _. reflexivity.
Qed.

Lemma setPixel_same_container (x y : Z) (c : SColor.t) (img img' : Image.t) (m m' : heap) :
  Image.setPixel x y c img m = Ok (img', m') -> img' = img.
Proof.
  unfold Image.setPixel. intros E.
  destruct (Image.isRGBA8 img); [| destruct (Image.isRGB8 img)].
  - apply bind_Ok_inv in E as (v & _ & E). apply bind_Ok_inv in E as (a & _ & E).
    apply bind_Ok_inv in E as (m2 & _ & E). injection E as <- _. reflexivity.
  - apply bind_Ok_inv in E as (v & _ & E). apply bind_Ok_inv in E as (a & _ & E).
    apply bind_Ok_inv in E as (m2 & _ & E). injection E as <- _. reflexivity.
  - injection E as <- _. reflexivity.
Qed.

(** The accessor of a variant that is not live: by cases on the variant
    that is. *)
Ltac not_live img :=
  let Hlive := fresh "Hlive" in
  intros Hlive; destruct img as [[? | ? | ?]]; simpl in *;
  try discriminate Hlive; (split; [reflexivity | intros ?; discriminate]).

(** C6.  For every container, the typed accessor of a variant that is not
    live ends in the type-mismatch fault of [std::get] and returns no view at
    all; so on a container made by [createRGBA8], [getAsRGB8] and [getAsR8]
    are rejected. *)
Theorem wrong_variant_access_faults (img : Image.t) :
  (Image.isRGBA8 img = false ->
     Image.getAsRGBA8 img = Fault BadVariantAccess /\
     forall v, Image.getAsRGBA8 img <> Ok v) /\
  (Image.isRGB8 img = false ->
     Image.getAsRGB8 img = Fault BadVariantAccess /\
     forall v, Image.getAsRGB8 img <> Ok v) /\
  (Image.isR8 img = false ->
     Image.getAsR8 img = Fault BadVariantAccess /\
     forall v, Image.getAsR8 img <> Ok v) /\
  (forall w h p init m m1,
     Image.createRGBA8 w h p init m = Ok (img, m1) ->
     Image.getAsRGB8 img = Fault BadVariantAccess /\
     Image.getAsR8 img = Fault BadVariantAccess).
Proof.
  split; [| split; [| split]].
  - not_live img.
  - not_live img.
  - not_live img.
  - intros w h p init m m1 E. apply createRGBA8_inv in E as (arr & _ & ->).
    split; reflexivity.
Qed.

Lemma wrong_variant_access_faults_witness :
  Image.createRGBA8 10 10 4096 (replicate 400 0) ∅ = Ok (sample_RGBA8, sample_heap 400) /\
  Image.getAsRGB8 sample_RGBA8 = Fault BadVariantAccess /\
  Image.getAsR8 sample_RGBA8 = Fault BadVariantAccess.
Proof.
  split; [exact sample_RGBA8_created |].
  exact (proj2 (proj2 (proj2 (wrong_variant_access_faults sample_RGBA8)))
           10 10 4096 (replicate 400 0) ∅ (sample_heap 400) sample_RGBA8_created).
Defined.

(** C9.  Exactly one of [isRGBA8], [isRGB8], [isR8] is true of every
    container.  A factory makes the variant of its name live, with the width
    and height it was given.  [fill] and [setPixel] leave the container as it
    was, so the live variant and the dimensions are those of construction;
    the view a typed accessor returns has the container's dimensions.
    ([getPixel] and the accessors are [const] or return a reference only:
    they return no container.) *)
Theorem live_variant_fixed :
  (forall img : Image.t,
     (Image.isRGBA8 img = true /\ Image.isRGB8 img = false /\ Image.isR8 img = false) \/
     (Image.isRGBA8 img = false /\ Image.isRGB8 img = true /\ Image.isR8 img = false) \/
     (Image.isRGBA8 img = false /\ Image.isRGB8 img = false /\ Image.isR8 img = true)) /\
  (forall w h p init m img m1,
     Image.createRGBA8 w h p init m = Ok (img, m1) ->
     Image.isRGBA8 img = true /\ Image.getWidth img = w /\ Image.getHeight img = h) /\
  (forall w h p init m img m1,
     Image.createRGB8 w h p init m = Ok (img, m1) ->
     Image.isRGB8 img = true /\ Image.getWidth img = w /\ Image.getHeight img = h) /\
  (forall w h p init m img m1,
     Image.createR8 w h p init m = Ok (img, m1) ->
     Image.isR8 img = true /\ Image.getWidth img = w /\ Image.getHeight img = h) /\
  (forall c img m img' m',
     Image.fill c img m = Ok (img', m') ->
     img' = img /\
     Image.isRGBA8 img' = Image.isRGBA8 img /\ Image.isRGB8 img' = Image.isRGB8 img /\
     Image.isR8 img' = Image.isR8 img /\
     Image.getWidth img' = Image.getWidth img /\ Image.getHeight img' = Image.getHeight img) /\
  (forall x y c img m img' m',
     Image.setPixel x y c img m = Ok (img', m') ->
     img' = img /\
     Image.isRGBA8 img' = Image.isRGBA8 img /\ Image.isRGB8 img' = Image.isRGB8 img /\
     Image.isR8 img' = Image.isR8 img /\
     Image.getWidth img' = Image.getWidth img /\ Image.getHeight img' = Image.getHeight img) /\
  (forall img,
     (forall v, Image.getAsRGBA8 img = Ok v ->
        View2d.getWidth v = Image.getWidth img /\ View2d.getHeight v = Image.getHeight img) /\
     (forall v, Image.getAsRGB8 img = Ok v ->
        View2d.getWidth v = Image.getWidth img /\ View2d.getHeight v = Image.getHeight img) /\
     (forall v, Image.getAsR8 img = Ok v ->
        View2d.getWidth v = Image.getWidth img /\ View2d.getHeight v = Image.getHeight img)).
Proof.
  split; [exact exactly_one_live |].
  split.
  { intros w h p init m img m1 E.
    apply createRGBA8_inv in E as (arr & E & ->).
    apply Array2d_new_inv in E as (_ & view & Ev & ->).
    apply View2d_new_inv in Ev as (_ & ->). auto. }
  split.
  { intros w h p init m img m1 E.
    apply createRGB8_inv in E as (arr & E & ->).
    apply Array2d_new_inv in E as (_ & view & Ev & ->).
    apply View2d_new_inv in Ev as (_ & ->). auto. }
  split.
  { intros w h p init m img m1 E.
    apply createR8_inv in E as (arr & E & ->).
    apply Array2d_new_inv in E as (_ & view & Ev & ->).
    apply View2d_new_inv in Ev as (_ & ->). auto. }
  split.
  { intros c img m img' m' E. apply fill_same_container in E as ->. auto 10. }
  split.
  { intros x y c img m img' m' E. apply setPixel_same_container in E as ->. auto 10. }
  intros [[arr | arr | arr]]; (split; [| split]); intros v E; simpl in E;
    try discriminate E; injection E as <-; split; reflexivity.
Qed.

(** C10.  On a container made by [createR8], [getPixel] returns the packed
    colour whose 32-bit value is 0 (alpha, red, green and blue all 0), at
    every coordinate and whatever the memory holds. *)
Theorem getPixel_R8_is_zero (w h p : Z) (init : list Z) (m m1 : heap) (img : Image.t) :
  Image.createR8 w h p init m = Ok (img, m1) ->
  forall (x y : Z) (m' : heap),
    Image.getPixel img x y m' = Ok (SColor.mk 0) /\
    SColor.getAlpha (SColor.mk 0) = 0 /\ SColor.getRed (SColor.mk 0) = 0 /\
    SColor.getGreen (SColor.mk 0) = 0 /\ SColor.getBlue (SColor.mk 0) = 0.
Proof.
  intros E x y m'. apply createR8_inv in E as (arr & _ & ->).
  repeat split.
Qed.

Lemma getPixel_R8_is_zero_witness :
  Image.createR8 10 10 4096 (replicate 100 0) ∅ = Ok (sample_R8, sample_heap 100) /\
  Image.getPixel sample_R8 3 4 (<[4096 + 43 := 200]> (sample_heap 100)) = Ok (SColor.mk 0).
Proof.
  split; [exact sample_R8_created |].
  exact (proj1 (getPixel_R8_is_zero 10 10 4096 (replicate 100 0) ∅ (sample_heap 100)
                  sample_R8 sample_R8_created 3 4 (<[4096 + 43 := 200]> (sample_heap 100)))).
Defined.

(** C8.  On a container made by [createR8], [fill] and [setPixel] return
    with the container and the whole memory as they were, for every colour
    and every coordinate; so every element of the pixel buffer reads as
    before the call. *)
Theorem R8_fill_setPixel_noop (w h p : Z) (init : list Z) (m m1 : heap) (img : Image.t) :
  Image.createR8 w h p init m = Ok (img, m1) ->
  forall (c : SColor.t) (x y : Z) (m' : heap),
    (exists m2, Image.fill c img m' = Ok (img, m2) /\ m2 = m' /\
       forall i, 0 <= i < u32_wrap (w * h) ->
         @load R8.t _ (p + i * sizeof R8.t) m2 = @load R8.t _ (p + i * sizeof R8.t) m') /\
    (exists m2, Image.setPixel x y c img m' = Ok (img, m2) /\ m2 = m' /\
       forall i, 0 <= i < u32_wrap (w * h) ->
         @load R8.t _ (p + i * sizeof R8.t) m2 = @load R8.t _ (p + i * sizeof R8.t) m').
Proof.
  intros E c x y m'. apply createR8_inv in E as (arr & _ & ->).
  split; exists m'; repeat split.
Qed.

Lemma R8_fill_setPixel_noop_witness :
  Image.createR8 10 10 4096 (replicate 100 0) ∅ = Ok (sample_R8, sample_heap 100) /\
  Image.fill (SColor.make 255 255 0 0) sample_R8 (sample_heap 100)
    = Ok (sample_R8, sample_heap 100) /\
  Image.setPixel 5 5 (SColor.make 255 255 0 0) sample_R8 (sample_heap 100)
    = Ok (sample_R8, sample_heap 100).
Proof.
  split; [exact sample_R8_created |].
  destruct (R8_fill_setPixel_noop 10 10 4096 (replicate 100 0) ∅ (sample_heap 100)
              sample_R8 sample_R8_created (SColor.make 255 255 0 0) 5 5 (sample_heap 100))
    as [(m2 & Hf & -> & _) (m3 & Hs & -> & _)].
  split; assumption.
Defined.

(** ** Views: the class invariant, [drop] and [take] *)

Section Views.
Context {T : Type} `{Pixel T}.

Lemma u32_wrap_nonneg (z : Z) : 0 <= u32_wrap z.
Proof. pose proof (u32_wrap_range z) as Hr. unfold is_u32 in Hr. lia. Qed.

(** The constructor establishes the invariant... *)
Lemma new_wf (data width height y_stride : Z) (v : View2d.t T) :
  0 <= data -> is_u32 width -> is_u32 height -> is_u32 y_stride ->
  View2d.new data width height y_stride = Ok v -> View2d.wf v.
Proof.
  intros Hd Hw Hh Hs E. apply View2d_new_inv in E as (Hnull & ->).
  unfold View2d.wf. simpl. repeat split; try (exact Hnull || apply sizeof_u32 || lia);
    try apply Hw; try apply Hh; try apply u32_wrap_range.
  destruct (Z.ltb_spec 0 y_stride) as [Hpos | Hzero]; [| auto].
  rewrite u32_wrap_id by exact Hs. lia.
Qed.

(** ... and returns every record that satisfies it. *)
Lemma wf_new (v : View2d.t T) :
  View2d.wf v ->
  View2d.new (View2d.data_ v) (View2d.width_ v) (View2d.height_ v) (View2d.y_stride_ v) = Ok v.
Proof.
  intros (Hd & Hw & Hh & Hnull & Hx & Hs & Hz).
  rewrite View2d_new_Ok by exact Hnull.
  destruct v as [d w h xs ys]. simpl in *. subst xs. rewrite sizeof_u32.
  destruct (Z.ltb_spec 0 ys) as [Hpos | Hzero].
  - rewrite u32_wrap_id by exact Hs. reflexivity.
  - assert (ys = 0) as -> by (unfold is_u32 in Hs; lia).
    rewrite Hz by reflexivity. reflexivity.
Qed.

(** What [drop] returns on a view of the class. *)
Lemma drop_Ok (v : View2d.t T) (left top : Z) :
  View2d.wf v -> 0 <= left <= View2d.width_ v -> 0 <= top <= View2d.height_ v ->
  View2d.drop v left top =
    Ok (View2d.mk
          (View2d.data_ v + u32_wrap (top * View2d.y_stride_ v) + u32_wrap (left * sizeof T))
          (View2d.width_ v - left) (View2d.height_ v - top) (sizeof T)
          (if 0 <? View2d.y_stride_ v then View2d.y_stride_ v
           else u32_wrap ((View2d.width_ v - left) * sizeof T))).
Proof.
  intros (Hd & Hw & Hh & Hnull & Hx & Hs & Hz) Hl Ht.
  unfold View2d.drop. rewrite assert_true
    by (apply andb_true_iff; split; apply Z.leb_le; lia).
  simpl. rewrite Hx.
  assert (Ew : u32_wrap (View2d.width_ v - left) = View2d.width_ v - left)
    by (apply u32_wrap_id; unfold is_u32 in *; lia).
  assert (Eh : u32_wrap (View2d.height_ v - top) = View2d.height_ v - top)
    by (apply u32_wrap_id; unfold is_u32 in *; lia).
  rewrite Ew, Eh.
  rewrite View2d_new_Ok.
  - rewrite sizeof_u32. do 2 f_equal.
    destruct (Z.ltb_spec 0 (View2d.y_stride_ v)) as [Hpos | Hzero].
    + apply u32_wrap_id. exact Hs.
    + reflexivity.
  - pose proof (u32_wrap_nonneg (top * View2d.y_stride_ v)).
    pose proof (u32_wrap_nonneg (left * sizeof T)).
    destruct Hnull as [Hnn | [Hw0 Hh0]]; [left; lia | right; lia].
Qed.

(** What [take] returns on a view of the class. *)
Lemma take_Ok (v : View2d.t T) (width height : Z) :
  View2d.wf v -> 0 <= width <= View2d.width_ v -> 0 <= height <= View2d.height_ v ->
  View2d.take v width height =
    Ok (View2d.mk (View2d.data_ v) width height (sizeof T)
          (if 0 <? View2d.y_stride_ v then View2d.y_stride_ v
           else u32_wrap (width * sizeof T))).
Proof.
  intros (Hd & Hw & Hh & Hnull & Hx & Hs & Hz) Hwd Hht.
  unfold View2d.take. rewrite assert_true
    by (apply andb_true_iff; split; apply Z.leb_le; lia).
  simpl. rewrite View2d_new_Ok.
  - rewrite sizeof_u32. do 2 f_equal.
    destruct (Z.ltb_spec 0 (View2d.y_stride_ v)) as [Hpos | Hzero].
    + apply u32_wrap_id. exact Hs.
    + reflexivity.
  - destruct Hnull as [Hnn | [Hw0 Hh0]]; [left; exact Hnn | right; lia].
Qed.


End Views.

Section DropTake.
Context {T : Type} `{Pixel T}.



End DropTake.

Lemma sample_view_wf {T : Type} `{Pixel T} :
  10 * sizeof T < 4294967296 -> View2d.wf (sample_view (T := T)).
Proof.
  intros Hfit. pose proof sizeof_range as Hs.
  unfold View2d.wf, sample_view, is_u32. simpl. repeat split; try lia.
Qed.

Lemma sample_view_RGBA8_wf : View2d.wf (sample_view (T := RGBA8.t)).
Proof. apply sample_view_wf. simpl. lia. Qed.




(** Outside the invariant.  For a row of 2^30 [RGBA8] pixels the constructor
    computes the default stride 2^30 * 4 in 32 bits and stores 0: the view it
    returns for [(4096, 2^30, 1)] does not keep row stride >= width x element
    size.  On such a view [drop] and [take] hand the stride 0 back to the
    constructor, which takes it for 'default' again: [drop(1, 0)] has the
    stride 2^32 - 4 and [take(1, 1)] the stride 4. *)
Lemma overflowed_stride_not_kept :
  View2d.new 4096 1073741824 1 0 = Ok wide_view /\
  View2d.getYStride wide_view = 0 /\
  View2d.getYStride wide_view < View2d.getWidth wide_view * sizeof RGBA8.t /\
  View2d.drop wide_view 1 0 = Ok (View2d.mk 4100 1073741823 1 4 4294967292) /\
  View2d.take wide_view 1 1 = Ok (View2d.mk 4096 1 1 4 4).
Proof.
  split; [vm_compute; reflexivity |].
  split; [reflexivity |].
  split; [simpl; lia |].
  split; vm_compute; reflexivity.
Qed.

(** ** Memory: bytes, typed loads and stores, loops *)

Lemma write_block_lookup (bs : list Z) (p : Z) (m : heap) (a : Z) :
  write_block p bs m !! a =
    if decide (p <= a < p + Z.of_nat (length bs)) then bs !! Z.to_nat (a - p) else m !! a.
Proof.
  revert p. induction bs as [| b bs IH]; intros p; simpl.
  - destruct (decide _) as [Hin | Hout]; [lia | reflexivity].
  - destruct (decide (p = a)) as [-> | Hne].
    + rewrite lookup_insert_eq. destruct (decide _) as [Hin | Hout]; [| lia].
      rewrite Z.sub_diag. reflexivity.
    + rewrite lookup_insert_ne by exact Hne. rewrite IH.
      destruct (decide (p + 1 <= a < p + 1 + Z.of_nat (length bs))) as [Hin | Hout];
        destruct (decide (p <= a < p + Z.of_nat (Datatypes.S (length bs)))) as [Hin' | Hout'];
        try lia; [| reflexivity].
      replace (Z.to_nat (a - p)) with (Datatypes.S (Z.to_nat (a - (p + 1)))) by lia.
      reflexivity.
Qed.

Lemma store_bytes_Some (bs : list Z) (p : Z) (m : heap) :
  (forall a, p <= a < p + Z.of_nat (length bs) -> is_Some (m !! a)) ->
  exists m', store_bytes m p bs = Some m' /\
    forall a, m' !! a =
      if decide (p <= a < p + Z.of_nat (length bs)) then bs !! Z.to_nat (a - p) else m !! a.
Proof.
  revert p m. induction bs as [| b bs IH]; intros p m Halloc; simpl.
  - exists m. split; [reflexivity |]. intros a.
    destruct (decide _) as [Hin | Hout]; [lia | reflexivity].
  - destruct (Halloc p) as [b0 Hb0]; [simpl; lia |]. rewrite Hb0.
    destruct (IH (p + 1) (<[p := b]> m)) as (m' & Hm' & Hlook).
    { intros a Ha. rewrite lookup_insert_ne by lia. apply Halloc. simpl. lia. }
    exists m'. split; [exact Hm' |]. intros a. rewrite Hlook.
    destruct (decide (p + 1 <= a < p + 1 + Z.of_nat (length bs))) as [Hin | Hout];
      destruct (decide (p <= a < p + Z.of_nat (Datatypes.S (length bs)))) as [Hin' | Hout'];
      try lia.
    + replace (Z.to_nat (a - p)) with (Datatypes.S (Z.to_nat (a - (p + 1)))) by lia.
      reflexivity.
    + assert (a = p) as -> by lia. rewrite lookup_insert_eq, Z.sub_diag. reflexivity.
    + apply lookup_insert_ne. lia.
Qed.

Lemma load_bytes_ext (n : nat) (p : Z) (m m' : heap) :
  (forall a, p <= a < p + Z.of_nat n -> m' !! a = m !! a) ->
  load_bytes m' p n = load_bytes m p n.
Proof.
  revert p. induction n as [| n IH]; intros p Heq; simpl; [reflexivity |].
  rewrite Heq by lia. rewrite IH; [reflexivity |].
  intros a Ha. apply Heq. lia.
Qed.

Lemma load_bytes_lookup (bs : list Z) (p : Z) (m : heap) :
  (forall a, p <= a < p + Z.of_nat (length bs) -> m !! a = bs !! Z.to_nat (a - p)) ->
  load_bytes m p (length bs) = Some bs.
Proof.
  revert p. induction bs as [| b bs IH]; intros p Hlook; simpl; [reflexivity |].
  rewrite Hlook by (simpl; lia). rewrite Z.sub_diag. simpl.
  rewrite IH; [reflexivity |].
  intros a Ha. rewrite Hlook by (simpl; lia).
  replace (Z.to_nat (a - p)) with (Datatypes.S (Z.to_nat (a - (p + 1)))) by lia.
  reflexivity.
Qed.

Section TypedMemory.
Context {T : Type} `{Pixel T}.

Lemma to_bytes_nat_length (v : T) : length (to_bytes v) = Z.to_nat (sizeof T).
Proof. pose proof (to_bytes_length v). lia. Qed.

(** A store into allocated bytes succeeds; the stored object reads back, the
    other bytes and the set of allocated bytes are as before. *)
Lemma store_Ok (p : Z) (v : T) (m : heap) :
  (forall a, p <= a < p + sizeof T -> is_Some (m !! a)) ->
  exists m', store p v m = Ok m' /\
    load p m' = Ok v /\
    (forall a, ~ (p <= a < p + sizeof T) -> m' !! a = m !! a) /\
    (forall a, is_Some (m' !! a) <-> is_Some (m !! a)).
Proof.
  intros Halloc. pose proof (to_bytes_length v) as Hlen.
  destruct (store_bytes_Some (to_bytes v) p m) as (m' & Hst & Hlook).
  { intros a Ha. apply Halloc. lia. }
  exists m'. unfold store, load. rewrite Hst. split; [reflexivity |].
  split; [| split].
  - rewrite <- to_bytes_nat_length with (v := v).
    rewrite load_bytes_lookup.
    + rewrite of_to_bytes. reflexivity.
    + intros a Ha. rewrite Hlook. destruct (decide _) as [Hin | Hout]; [reflexivity | lia].
  - intros a Ha. rewrite Hlook. destruct (decide _) as [Hin | Hout]; [lia | reflexivity].
  - intros a. rewrite Hlook. destruct (decide _) as [Hin | Hout]; [| reflexivity].
    split; intros _; [apply Halloc; lia |].
    apply lookup_lt_is_Some. lia.
Qed.

(** A load depends on the bytes of its object only. *)
Lemma load_frame (q : Z) (m m' : heap) :
  (forall a, q <= a < q + sizeof T -> m' !! a = m !! a) ->
  load (T := T) q m' = load q m.
Proof.
  intros Heq. unfold load. rewrite (load_bytes_ext _ q m m'); [reflexivity |].
  intros a Ha. apply Heq. pose proof sizeof_range. lia.
Qed.

End TypedMemory.

Lemma operator_new_inv (p : Z) (init : list Z) (size : Z) (m m1 : heap) :
  operator_new p init size m = Ok m1 ->
  0 < p /\ Z.of_nat (length init) = size /\
  (forall a, p <= a < p + size -> m1 !! a = init !! Z.to_nat (a - p)) /\
  (forall a, p <= a < p + size -> is_Some (m1 !! a)) /\
  (forall a, ~ (p <= a < p + size) -> m1 !! a = m !! a).
Proof.
  unfold operator_new. destruct (decide _) as [(Hp & Hlen & Hfresh) | Hno]; [| discriminate].
  intros E. injection E as <-.
  split; [exact Hp |]. split; [exact Hlen |].
  assert (Hin : forall a, p <= a < p + size ->
                          write_block p init m !! a = init !! Z.to_nat (a - p)).
  { intros a Ha. rewrite write_block_lookup.
    destruct (decide _) as [Hin | Hout]; [reflexivity | lia]. }
  split; [exact Hin |]. split.
  - intros a Ha. rewrite Hin by exact Ha. apply lookup_lt_is_Some. lia.
  - intros a Ha. rewrite write_block_lookup.
    destruct (decide _) as [Hin' | Hout]; [lia | reflexivity].
Qed.

(** The loop rule: an invariant that holds at the start and that every
    iteration carries from [i] to [i + 1] holds at the end, and the loop
    returns. *)
Lemma for_loop_from_inv {S : Type} (I : Z -> S -> Prop) (body : Z -> S -> result S)
    (fuel : nat) (i : Z) (s : S) :
  I i s ->
  (forall j s0, i <= j < i + Z.of_nat fuel -> I j s0 ->
     exists s1, body j s0 = Ok s1 /\ I (j + 1) s1) ->
  exists s', for_loop_from fuel i body s = Ok s' /\ I (i + Z.of_nat fuel) s'.
Proof.
  revert i s. induction fuel as [| fuel IH]; intros i s Hi Hstep; simpl.
  - exists s. rewrite Z.add_0_r. auto.
  - destruct (Hstep i s) as (s1 & Hb & Hi1); [lia | exact Hi |].
    rewrite Hb. simpl.
    destruct (IH (i + 1) s1 Hi1) as (s' & Hs' & HI).
    { intros j s0 Hj. apply Hstep. lia. }
    exists s'. split; [exact Hs' |].
    replace (i + Z.of_nat (Datatypes.S fuel)) with (i + 1 + Z.of_nat fuel) by lia.
    exact HI.
Qed.

Lemma for_loop_inv {S : Type} (I : Z -> S -> Prop) (body : Z -> S -> result S)
    (n : Z) (s : S) :
  0 <= n -> I 0 s ->
  (forall j s0, 0 <= j < n -> I j s0 -> exists s1, body j s0 = Ok s1 /\ I (j + 1) s1) ->
  exists s', for_loop n body s = Ok s' /\ I n s'.
Proof.
  intros Hn H0 Hstep. unfold for_loop.
  destruct (for_loop_from_inv I body (Z.to_nat n) 0 s H0) as (s' & Hs' & HI).
  { intros j s0 Hj. apply Hstep. lia. }
  exists s'. split; [exact Hs' |].
  rewrite Z2Nat.id in HI by exact Hn. exact HI.
Qed.

(** ** Filling a tightly packed array *)

Section Fill.
Context {T : Type} `{Pixel T}.

Lemma filled_store (p n : Z) (v : T) (m : heap) (k : Z) (m0 : heap) :
  0 <= k < n ->
  (forall a, p <= a < p + n * sizeof T -> is_Some (m !! a)) ->
  filled p n v m k m0 ->
  exists m1, store (p + k * sizeof T) v m0 = Ok m1 /\ filled p n v m (k + 1) m1.
Proof.
  intros Hk Halloc (Hfill & Hdom & Hout). pose proof sizeof_range as Hsz.
  destruct (store_Ok (p + k * sizeof T) v m0) as (m1 & Hst & Hld & Hfr & Hdom1).
  { intros a Ha. apply Hdom, Halloc. nia. }
  exists m1. split; [exact Hst |]. split; [| split].
  - intros i Hi. destruct (decide (i = k)) as [-> | Hne]; [exact Hld |].
    rewrite <- (Hfill i) by lia. apply load_frame.
    intros a Ha. apply Hfr. nia.
  - intros a. rewrite Hdom1. apply Hdom.
  - intros a Ha. rewrite Hfr by nia. apply Hout. exact Ha.
Qed.

Lemma fill_rows_tight (p w h : Z) (v : T) (m : heap) :
  0 <= w -> 0 <= h -> w * h * sizeof T < 4294967296 ->
  (forall a, p <= a < p + (w * h) * sizeof T -> is_Some (m !! a)) ->
  exists m', Image.fill_rows (View2d.mk p w h (sizeof T) (w * sizeof T)) v m = Ok m' /\
             filled p (w * h) v m (w * h) m'.
Proof.
  intros Hw Hh Hfit Halloc. pose proof sizeof_range as Hsz.
  unfold Image.fill_rows, View2d.getHeight, View2d.getWidth. simpl.
  destruct (for_loop_inv (fun y m' => filled p (w * h) v m (y * w) m')
              (fun y m1 =>
                 row_ptr ← View2d.row (View2d.mk (T := T) p w h (sizeof T) (w * sizeof T)) y;
                 for_loop w (fun x m2 => store (row_ptr + x * sizeof T) v m2) m1)
              h m Hh) as (m' & Hm' & HI).
  - split; [intros i Hi; lia |]. split; [reflexivity | reflexivity].
  - intros y m0 Hy Hinv.
    unfold View2d.row. simpl.
    rewrite assert_true by (apply Z.ltb_lt; lia). simpl.
    assert (Hrow : u32_wrap (y * (w * sizeof T)) = (y * w) * sizeof T).
    { rewrite u32_wrap_id by (unfold is_u32; nia). ring. }
    rewrite Hrow.
    destruct (for_loop_inv (fun x m' => filled p (w * h) v m (y * w + x) m')
                (fun x m2 => store (p + y * w * sizeof T + x * sizeof T) v m2)
                w m0 Hw) as (m1 & Hm1 & HI1).
    + rewrite Z.add_0_r. exact Hinv.
    + intros x m2 Hx Hinv2.
      replace (p + y * w * sizeof T + x * sizeof T)
        with (p + (y * w + x) * sizeof T) by ring.
      replace (y * w + (x + 1)) with (y * w + x + 1) by ring.
      apply filled_store; [nia | exact Halloc | exact Hinv2].
    + exists m1. split; [exact Hm1 |].
      replace ((y + 1) * w) with (y * w + w) by ring. exact HI1.
  - exists m'. split; [exact Hm' |].
    replace (h * w) with (w * h) in HI by ring. exact HI.
Qed.

(** The element address [at] computes in a tightly packed view. *)
Lemma at_tight (p w h x y : Z) :
  0 <= x < w -> 0 <= y < h -> w * h * sizeof T < 4294967296 ->
  View2d.at_ (View2d.mk (T := T) p w h (sizeof T) (w * sizeof T)) x y
    = Ok (p + (y * w + x) * sizeof T).
Proof.
  intros Hx Hy Hfit. pose proof sizeof_range as Hsz.
  unfold View2d.at_. simpl.
  rewrite assert_true by (apply andb_true_iff; split; apply Z.ltb_lt; lia). simpl.
  assert (Hyw : 0 <= y * w /\ y * w + x < w * h) by nia.
  assert (Hys : is_u32 (y * (w * sizeof T))).
  { replace (y * (w * sizeof T)) with ((y * w) * sizeof T) by ring. unfold is_u32. nia. }
  assert (Hxs : is_u32 (x * sizeof T)) by (unfold is_u32; nia).
  rewrite !u32_wrap_id by assumption. f_equal. ring.
Qed.

(** The array the constructor builds when its byte size fits in a [u32]. *)
Lemma Array2d_new_tight (w h p : Z) (init : list Z) (m m1 : heap) (arr : Array2d.t T) :
  0 < w -> 0 < h -> w * h * sizeof T < 4294967296 ->
  Array2d.new w h p init m = Ok (arr, m1) ->
  arr = Array2d.mk p (View2d.mk p w h (sizeof T) (w * sizeof T)) /\
  0 < p /\
  (forall a, p <= a < p + (w * h) * sizeof T -> is_Some (m1 !! a)).
Proof.
  intros Hw Hh Hfit E. pose proof sizeof_range as Hsz.
  apply Array2d_new_inv in E as (Ealloc & view & Ev & ->).
  apply View2d_new_inv in Ev as (_ & ->).
  apply operator_new_inv in Ealloc as (Hp & _ & _ & Halloc & _).
  rewrite u32_wrap_id in Halloc by (unfold is_u32; nia).
  rewrite sizeof_u32. simpl. rewrite u32_wrap_id by (unfold is_u32; nia).
  auto.
Qed.

End Fill.

(** ** Filling an RGBA8 image *)

Lemma fill_RGBA8_general (w h p : Z) (init : list Z) (m m1 : heap) (img : Image.t)
    (c : SColor.t) :
  0 < w -> 0 < h -> w * h * sizeof RGBA8.t < 4294967296 -> SColor.wf c ->
  Image.createRGBA8 w h p init m = Ok (img, m1) ->
  exists m2, Image.fill c img m1 = Ok (img, m2) /\
    (forall i, 0 <= i < w * h ->
       load (p + i * sizeof RGBA8.t) m2 = Ok (RGBA8.fromSColor c)) /\
    (forall x y, 0 <= x < w -> 0 <= y < h -> Image.getPixel img x y m2 = Ok c).
Proof.
  intros Hw Hh Hfit Hc E.
  apply createRGBA8_inv in E as (arr & E & ->).
  apply Array2d_new_tight in E as (-> & Hp & Halloc); try assumption.
  destruct (fill_rows_tight p w h (RGBA8.fromSColor c) m1) as (m2 & Hfill & Hall & _ & _);
    try (assumption || lia).
  exists m2. split; [| split].
  - unfold Image.fill. simpl. unfold Array2d.getView. simpl.
    change 4 with (sizeof RGBA8.t). rewrite Hfill. reflexivity.
  - exact Hall.
  - intros x y Hx Hy. unfold Image.getPixel. simpl. unfold Array2d.getView. simpl.
    change 4 with (sizeof RGBA8.t).
    rewrite at_tight by assumption. simpl.
    assert (Hyw : 0 <= y * w /\ y * w + x < w * h) by nia.
    change 4 with (sizeof RGBA8.t).
    rewrite Hall by lia. simpl.
    rewrite RGBA8_to_from_SColor by exact Hc. reflexivity.
Qed.

(** ** Sub-views alias their parent *)

Section ViewAlias.
Context {T : Type} `{Pixel T}.

Lemma at_Ok (v : View2d.t T) (x y : Z) :
  0 <= x < View2d.width_ v -> 0 <= y < View2d.height_ v ->
  View2d.at_ v x y =
    Ok (View2d.data_ v + u32_wrap (y * View2d.y_stride_ v)
        + u32_wrap (x * View2d.x_stride_ v)).
Proof.
  intros Hx Hy. unfold View2d.at_.
  rewrite assert_true by (apply andb_true_iff; split; apply Z.ltb_lt; lia).
  reflexivity.
Qed.

(** The address of an element of a view whose rows keep
    stride >= width x element size and start below 2^32 bytes from the base:
    no product wraps. *)
Lemma at_exact (v : View2d.t T) (x y : Z) :
  View2d.wf v ->
  View2d.width_ v * sizeof T <= View2d.y_stride_ v ->
  (View2d.height_ v - 1) * View2d.y_stride_ v < 4294967296 ->
  0 <= x < View2d.width_ v -> 0 <= y < View2d.height_ v ->
  View2d.at_ v x y = Ok (View2d.data_ v + y * View2d.y_stride_ v + x * sizeof T).
Proof.
  intros (Hd & Hw & Hh & Hnull & Hxs & Hs & Hz) Hinv Hspan Hx Hy.
  pose proof sizeof_range as Hsz. unfold is_u32 in Hs.
  rewrite at_Ok by assumption. rewrite Hxs.
  rewrite !u32_wrap_id by (unfold is_u32; nia). reflexivity.
Qed.

Lemma drop_at (V : View2d.t T) (left top x y : Z) :
  View2d.wf V ->
  View2d.width_ V * sizeof T <= View2d.y_stride_ V ->
  (View2d.height_ V - 1) * View2d.y_stride_ V < 4294967296 ->
  0 <= left <= View2d.width_ V -> 0 <= top <= View2d.height_ V ->
  forall S, View2d.drop V left top = Ok S ->
  forall w' h', 0 <= w' <= View2d.width_ S -> 0 <= h' <= View2d.height_ S ->
  forall S', View2d.take S w' h' = Ok S' ->
  0 <= x < w' -> 0 <= y < h' ->
  exists a, View2d.at_ S' x y = Ok a /\ View2d.at_ S x y = Ok a /\
            View2d.at_ V (left + x) (top + y) = Ok a.
Proof.
  intros Hwf Hinv Hspan Hl Ht S HS w' h' Hw' Hh' S' HS' Hx Hy.
  pose proof sizeof_range as Hsz.
  rewrite drop_Ok in HS by assumption. injection HS as <-. simpl in Hw', Hh'.
  pose proof Hwf as (Hd & Hw & Hh & Hnull & Hxs & Hs & Hz). unfold is_u32 in *.
  assert (Hpos : 0 < View2d.y_stride_ V) by nia.
  assert (Hlt : (0 <? View2d.y_stride_ V) = true) by (apply Z.ltb_lt; exact Hpos).
  rewrite Hlt in HS'.
  assert (HwfS : View2d.wf (View2d.mk (T := T)
            (View2d.data_ V + u32_wrap (top * View2d.y_stride_ V) + u32_wrap (left * sizeof T))
            (View2d.width_ V - left) (View2d.height_ V - top) (sizeof T)
            (View2d.y_stride_ V))).
  { unfold View2d.wf, is_u32. simpl.
    pose proof (u32_wrap_nonneg (top * View2d.y_stride_ V)).
    pose proof (u32_wrap_nonneg (left * sizeof T)).
    repeat split; lia. }
  rewrite take_Ok in HS' by (assumption || (simpl; lia)). simpl in HS'.
  rewrite Hlt in HS'. injection HS' as <-.
  assert (Et : u32_wrap (top * View2d.y_stride_ V) = top * View2d.y_stride_ V)
    by (apply u32_wrap_id; unfold is_u32; nia).
  assert (El : u32_wrap (left * sizeof T) = left * sizeof T)
    by (apply u32_wrap_id; unfold is_u32; nia).
  assert (Ey : u32_wrap (y * View2d.y_stride_ V) = y * View2d.y_stride_ V)
    by (apply u32_wrap_id; unfold is_u32; nia).
  assert (Ex : u32_wrap (x * sizeof T) = x * sizeof T)
    by (apply u32_wrap_id; unfold is_u32; nia).
  exists (View2d.data_ V + (top + y) * View2d.y_stride_ V + (left + x) * sizeof T).
  split; [| split].
  - rewrite at_Ok by (simpl; lia).
    cbn [View2d.data_ View2d.y_stride_ View2d.x_stride_]. rewrite ?Hlt.
    rewrite Et, El, Ey, Ex. f_equal. ring.
  - rewrite at_Ok by (simpl; lia).
    cbn [View2d.data_ View2d.y_stride_ View2d.x_stride_]. rewrite ?Hlt.
    rewrite Et, El, Ey, Ex. f_equal. ring.
  - apply at_exact; try assumption; lia.
Qed.

(** A store through one element address of a tightly packed 10x10 array:
    the element reads back and every element at another index reads as
    before. *)
Lemma store_one_element (p k : Z) (v : T) (m : heap) :
  0 <= k < 100 ->
  (forall a, p <= a < p + 100 * sizeof T -> is_Some (m !! a)) ->
  exists m2, store (p + k * sizeof T) v m = Ok m2 /\
    load (p + k * sizeof T) m2 = Ok v /\
    forall j, j <> k -> load (T := T) (p + j * sizeof T) m2 = load (p + j * sizeof T) m.
Proof.
  intros Hk Halloc. pose proof sizeof_range as Hsz.
  destruct (store_Ok (p + k * sizeof T) v m) as (m2 & Hst & Hld & Hfr & _).
  { intros a Ha. apply Halloc. nia. }
  exists m2. split; [exact Hst |]. split; [exact Hld |].
  intros j Hj. apply load_frame. intros a Ha. apply Hfr. nia.
Qed.

End ViewAlias.

Section SubViews.
Context {T : Type} `{Pixel T}.

Lemma drop_wf (V S : View2d.t T) (left top : Z) :
  View2d.wf V -> 0 <= left <= View2d.width_ V -> 0 <= top <= View2d.height_ V ->
  View2d.drop V left top = Ok S -> View2d.wf S.
Proof.
  intros Hwf Hl Ht E. pose proof Hwf as (Hd & Hw & Hh & Hnull & Hxs & Hs & Hz).
  unfold View2d.drop in E. apply bind_Ok_inv in E as (u & _ & E).
  apply new_wf in E; [exact E | | apply u32_wrap_range | apply u32_wrap_range | exact Hs].
  pose proof (u32_wrap_nonneg (top * View2d.y_stride_ V)).
  pose proof (u32_wrap_nonneg (left * View2d.x_stride_ V)). lia.
Qed.

(** The property of C3 holds for every view V of the class that keeps
    row stride >= width x element size and whose row offsets the 32-bit
    arithmetic of [at] can hold ((height - 1) x stride < 2^32), and all
    offsets left <= V.width, top <= V.height:
    [V.drop(left, top)] returns a view S, and element (x, y) of S has the
    address of element (left + x, top + y) of V; the same holds for every
    [S.take(w, h)], which is [V.slice(left, top, w, h)].  For the view of a
    10x10 array, [drop(2,2).take(3,3)] is a view of width 3 and height 3; a
    store to its element (0, 0) is read back at element (2, 2) of the array's
    view and leaves every other element of that view as it was. *)
Lemma subview_aliases :
  (forall (V : View2d.t T) (left top : Z),
     View2d.wf V ->
     View2d.getWidth V * sizeof T <= View2d.getYStride V ->
     (View2d.getHeight V - 1) * View2d.getYStride V < 4294967296 ->
     0 <= left <= View2d.getWidth V -> 0 <= top <= View2d.getHeight V ->
     exists S, View2d.drop V left top = Ok S /\
       (forall x y, 0 <= x < View2d.getWidth S -> 0 <= y < View2d.getHeight S ->
          exists a, View2d.at_ S x y = Ok a /\ View2d.at_ V (left + x) (top + y) = Ok a) /\
       (forall w h, 0 <= w <= View2d.getWidth S -> 0 <= h <= View2d.getHeight S ->
          exists S', View2d.take S w h = Ok S' /\
            View2d.slice V left top w h = Ok S' /\
            View2d.getWidth S' = w /\ View2d.getHeight S' = h /\
            forall x y, 0 <= x < w -> 0 <= y < h ->
              exists a, View2d.at_ S' x y = Ok a /\
                        View2d.at_ V (left + x) (top + y) = Ok a)) /\
  (10 * 10 * sizeof T < 4294967296 ->
   forall (p : Z) (init : list Z) (m m1 : heap) (arr : Array2d.t T),
     Array2d.new 10 10 p init m = Ok (arr, m1) ->
     exists S, View2d.slice (Array2d.getView arr) 2 2 3 3 = Ok S /\
       View2d.getWidth S = 3 /\ View2d.getHeight S = 3 /\
       exists a, View2d.at_ S 0 0 = Ok a /\
         View2d.at_ (Array2d.getView arr) 2 2 = Ok a /\
         forall v : T, exists m2, store a v m1 = Ok m2 /\
           load a m2 = Ok v /\
           forall x y, 0 <= x < 10 -> 0 <= y < 10 -> ~ (x = 2 /\ y = 2) ->
             exists a', View2d.at_ (Array2d.getView arr) x y = Ok a' /\
                        load (T := T) a' m2 = load a' m1).
Proof.
  unfold View2d.getWidth, View2d.getHeight, View2d.getYStride. split.
  - intros V left top Hwf Hinv Hspan Hl Ht.
    destruct (View2d.drop V left top) as [S | f] eqn:HS;
      [| rewrite drop_Ok in HS by assumption; discriminate].
    pose proof (drop_wf V S left top Hwf Hl Ht HS) as HwfS.
    pose proof HwfS as (_ & HwS & HhS & _). unfold is_u32 in HwS, HhS.
    exists S. split; [reflexivity |]. split.
    + intros x y Hx Hy.
      destruct (View2d.take S (View2d.width_ S) (View2d.height_ S)) as [S' | f] eqn:HS';
        [| rewrite take_Ok in HS' by (assumption || lia); discriminate].
      destruct (drop_at V left top x y Hwf Hinv Hspan Hl Ht S HS
                  (View2d.width_ S) (View2d.height_ S)) with (S' := S')
        as (a & _ & Ha1 & Ha2); try (assumption || lia).
      exists a. auto.
    + intros w h Hw Hh.
      destruct (View2d.take S w h) as [S' | f] eqn:HS';
        [| rewrite take_Ok in HS' by assumption; discriminate].
      exists S'. split; [reflexivity |].
      split; [unfold View2d.slice; rewrite HS; exact HS' |].
      pose proof HS' as HS''. rewrite take_Ok in HS'' by assumption.
      injection HS'' as <-. simpl.
      split; [reflexivity |]. split; [reflexivity |].
      intros x y Hx Hy.
      destruct (drop_at V left top x y Hwf Hinv Hspan Hl Ht S HS w h Hw Hh _ HS' Hx Hy)
        as (a & Ha0 & _ & Ha2).
      exists a. auto.
  - intros Hfit p init m m1 arr E. pose proof sizeof_range as Hsz.
    apply Array2d_new_tight in E as (-> & Hp & Halloc); try lia.
    unfold Array2d.getView. simpl.
    set (V := View2d.mk (T := T) p 10 10 (sizeof T) (10 * sizeof T)).
    assert (HwfV : View2d.wf V).
    { unfold V, View2d.wf, is_u32. simpl. repeat split; lia. }
    assert (HS : View2d.drop V 2 2 = Ok (View2d.mk (p + 22 * sizeof T) 8 8 (sizeof T)
                                            (10 * sizeof T))).
    { rewrite drop_Ok by (assumption || (simpl; lia)). simpl.
      rewrite !u32_wrap_id by (unfold is_u32; lia).
      replace (0 <? 10 * sizeof T) with true by (symmetry; apply Z.ltb_lt; lia).
      do 2 f_equal. ring. }
    assert (HS' : View2d.slice V 2 2 3 3 = Ok (View2d.mk (p + 22 * sizeof T) 3 3 (sizeof T)
                                                 (10 * sizeof T))).
    { unfold View2d.slice. rewrite HS. simpl.
      rewrite take_Ok; [| unfold View2d.wf, is_u32; simpl; repeat split; lia
                        | simpl; lia | simpl; lia].
      simpl. replace (0 <? 10 * sizeof T) with true by (symmetry; apply Z.ltb_lt; lia).
      reflexivity. }
    eexists. split; [exact HS' |]. split; [reflexivity |]. split; [reflexivity |].
    exists (p + 22 * sizeof T). split; [| split].
    + rewrite at_Ok by (simpl; lia). simpl. rewrite !Z.mul_0_l.
      change (u32_wrap 0) with 0. f_equal. ring.
    + unfold V. rewrite at_tight by lia. f_equal.
    + intros v.
      destruct (store_one_element p 22 v m1) as (m2 & Hst & Hld & Hfr); [lia | |].
      { intros a Ha. apply Halloc. lia. }
      exists m2. split; [exact Hst |]. split; [exact Hld |].
      intros x y Hx Hy Hne.
      exists (p + (y * 10 + x) * sizeof T). split.
      * unfold V. apply at_tight; lia.
      * apply Hfr. lia.
Qed.

End SubViews.

Lemma sample_array_created :
  Array2d.new 10 10 4096 (replicate 400 0) ∅
    = Ok (Array2d.mk 4096 (sample_view (T := RGBA8.t)), sample_heap 400).
Proof.
  unfold Array2d.new, operator_new.
  rewrite decide_True; [reflexivity |].
  split; [lia |]. split; [rewrite length_replicate; reflexivity | apply map_Forall_empty].
Qed.

Lemma subview_aliases_witness :
  (10 * 10 * sizeof RGBA8.t < 4294967296 /\
   Array2d.new 10 10 4096 (replicate 400 0) ∅
     = Ok (Array2d.mk 4096 (sample_view (T := RGBA8.t)), sample_heap 400)) /\
  exists S : View2d.t RGBA8.t,
    View2d.slice sample_view 2 2 3 3 = Ok S /\
    View2d.getWidth S = 3 /\ View2d.getHeight S = 3 /\
    exists a, View2d.at_ S 0 0 = Ok a /\ View2d.at_ (sample_view (T := RGBA8.t)) 2 2 = Ok a /\
      exists m2, store a (RGBA8.mk 1 2 3 4) (sample_heap 400) = Ok m2 /\
        load a m2 = Ok (RGBA8.mk 1 2 3 4).
Proof.
  assert (Hfit : 10 * 10 * sizeof RGBA8.t < 4294967296) by (simpl; lia).
  pose proof sample_array_created as Hnew.
  split; [exact (conj Hfit Hnew) |].
  destruct (proj2 subview_aliases Hfit 4096 (replicate 400 0) ∅ (sample_heap 400)
              (Array2d.mk 4096 sample_view) Hnew)
    as (S & HS & Hw & Hh & a & Ha & HaV & Hstore).
  exists S. split; [exact HS |]. split; [exact Hw |]. split; [exact Hh |].
  exists a. split; [exact Ha |]. split; [exact HaV |].
  destruct (Hstore (RGBA8.mk 1 2 3 4)) as (m2 & Hst & Hld & _).
  exists m2. split; assumption.
Defined.

(** C3 (a defect of the code: unchecked 32-bit products).  The claim fails
    on views the constructor accepts.  In three rows of one [R8] pixel that
    lie 2^31 bytes apart, a view that keeps row stride >= width x element
    size, [at] computes the row offset 2 * 2^31 in 32 bits: element (0, 2)
    of the view is computed at the base, while element (0, 1) of
    [drop(0, 1)] is 2^32 bytes after the base.  In two rows of 2^30 [RGBA8]
    pixels the default stride 2^30 * 4 wraps to 0 and [drop(1, 0)] has the
    stride 2^32 - 4: its element (0, 1) is at 4100 + (2^32 - 4), element
    (1, 1) of the parent at 4100. *)
Theorem subview_alias_counterexample :
  (View2d.new 4096 1 3 2147483648 = Ok far_rows_view /\
   View2d.getWidth far_rows_view * sizeof R8.t <= View2d.getYStride far_rows_view /\
   View2d.drop far_rows_view 0 1 = Ok (View2d.mk 2147487744 1 2 1 2147483648) /\
   View2d.at_ (View2d.mk (T := R8.t) 2147487744 1 2 1 2147483648) 0 1
     = Ok 4294971392 /\
   View2d.at_ far_rows_view (0 + 0) (1 + 1) = Ok 4096) /\
  (View2d.new 4096 1073741824 2 0 = Ok wide_rows_view /\
   View2d.drop wide_rows_view 1 0 = Ok (View2d.mk 4100 1073741823 2 4 4294967292) /\
   View2d.at_ (View2d.mk (T := RGBA8.t) 4100 1073741823 2 4 4294967292) 0 1
     = Ok 4294971392 /\
   View2d.at_ wide_rows_view (1 + 0) (0 + 1) = Ok 4100).
Proof.
  split.
  - split; [vm_compute; reflexivity |].
    split; [simpl; lia |].
    repeat split; vm_compute; reflexivity.
  - repeat split; vm_compute; reflexivity.
Qed.

(** ** Rows that alias: a view of stride 0 *)

Section AliasedRows.
Context {T : Type} `{Pixel T}.

(** With row stride 0 every row pointer is the base: [fill_rows] writes the
    first row only, whatever the height. *)
Lemma fill_rows_stride_zero (p w h : Z) (v : T) (m : heap) :
  0 <= w -> 0 <= h ->
  (forall a, p <= a < p + w * sizeof T -> is_Some (m !! a)) ->
  exists m', Image.fill_rows (View2d.mk p w h (sizeof T) 0) v m = Ok m' /\
    (forall a, is_Some (m' !! a) <-> is_Some (m !! a)) /\
    (forall a, ~ (p <= a < p + w * sizeof T) -> m' !! a = m !! a).
Proof.
  intros Hw Hh Halloc. pose proof sizeof_range as Hsz.
  set (J := fun (_ : Z) (m' : heap) =>
              (forall a, is_Some (m' !! a) <-> is_Some (m !! a)) /\
              (forall a, ~ (p <= a < p + w * sizeof T) -> m' !! a = m !! a)).
  unfold Image.fill_rows, View2d.getHeight, View2d.getWidth.
  cbn [View2d.height_ View2d.width_].
  apply (for_loop_inv J); [exact Hh | split; reflexivity |].
  intros y m0 Hy HJ. unfold View2d.row. cbn [View2d.height_ View2d.data_ View2d.y_stride_].
  rewrite assert_true by (apply Z.ltb_lt; lia).
  rewrite Z.mul_0_r. change (u32_wrap 0) with 0. rewrite Z.add_0_r.
  cbn [mbind result_bind].
  destruct (for_loop_inv J (fun x m2 => store (p + x * sizeof T) v m2) w m0 Hw HJ)
    as (m1 & Hm1 & HJ1).
  - intros x m2 Hx (Hdom & Hout).
    destruct (store_Ok (p + x * sizeof T) v m2) as (m3 & Hst & _ & Hfr & Hdom3).
    { intros a Ha. apply Hdom, Halloc. nia. }
    exists m3. split; [exact Hst |]. split.
    + intros a. rewrite Hdom3. apply Hdom.
    + intros a Ha. rewrite Hfr by nia. apply Hout. exact Ha.
  - exists m1. split; [exact Hm1 | exact HJ1].
Qed.

End AliasedRows.

(** [fill] on an [RGBA8] container, and the stride-0 loops at its element
    size. *)
Lemma fill_RGBA8_unfold (c : SColor.t) (p : Z) (view : View2d.t RGBA8.t) (m : heap) :
  Image.fill c (Image.mk (Image.HoldsRGBA8 (Array2d.mk p view))) m =
    (m' ← Image.fill_rows view (RGBA8.fromSColor c) m;
     Ok (Image.mk (Image.HoldsRGBA8 (Array2d.mk p view)), m')).
Proof. reflexivity. Qed.

Lemma fill_rows_stride_zero_RGBA8 (p w h : Z) (v : RGBA8.t) (m : heap) :
  0 <= w -> 0 <= h ->
  (forall a, p <= a < p + w * 4 -> is_Some (m !! a)) ->
  exists m', Image.fill_rows (View2d.mk p w h 4 0) v m = Ok m' /\
    (forall a, is_Some (m' !! a) <-> is_Some (m !! a)) /\
    (forall a, ~ (p <= a < p + w * 4) -> m' !! a = m !! a).
Proof. exact (fill_rows_stride_zero (T := RGBA8.t) p w h v m). Qed.

Lemma zero_bytes_length : Z.of_nat (length zero_bytes) = 8589934592.
Proof. unfold zero_bytes. rewrite length_replicate. apply Z2Nat.id. lia. Qed.

Lemma zero_bytes_lookup (i : Z) :
  0 <= i < 8589934592 -> zero_bytes !! Z.to_nat i = Some 0.
Proof.
  intros Hi. unfold zero_bytes. apply lookup_replicate_2.
  apply Z2Nat.inj_lt; lia.
Qed.

Lemma zero_block_lookup (a : Z) :
  4096 <= a < 4096 + 8589934592 -> write_block 4096 zero_bytes ∅ !! a = Some 0.
Proof.
  intros Ha. rewrite write_block_lookup, zero_bytes_length.
  destruct (decide _) as [Hin | Hout]; [| lia].
  apply zero_bytes_lookup. lia.
Qed.

Lemma aliased_RGBA8_created :
  Image.createRGBA8 1073741824 2 4096 zero_bytes ∅
    = Ok (aliased_RGBA8, write_block 4096 zero_bytes ∅).
Proof.
  unfold Image.createRGBA8, Array2d.new.
  change (u32_wrap (1073741824 * 2) * sizeof RGBA8.t) with 8589934592.
  unfold operator_new. rewrite decide_True; [reflexivity |].
  split; [lia |]. split; [exact zero_bytes_length | apply map_Forall_empty].
Qed.

Lemma zero_block_load (q : Z) :
  4096 <= q -> q + 4 <= 4096 + 8589934592 ->
  load q (write_block 4096 zero_bytes ∅) = Ok (RGBA8.mk 0 0 0 0).
Proof.
  intros Hlo Hhi. unfold load.
  change (Z.to_nat (sizeof RGBA8.t)) with (length [0; 0; 0; 0]).
  rewrite load_bytes_lookup; [reflexivity |].
  intros a Ha. change (Z.of_nat (length [0; 0; 0; 0])) with 4 in Ha.
  rewrite zero_block_lookup by lia.
  assert (Hk : a - q = 0 \/ a - q = 1 \/ a - q = 2 \/ a - q = 3) by lia.
  destruct Hk as [-> | [-> | [-> | ->]]]; reflexivity.
Qed.

(** ** Filling rows that do not overlap *)

Section Region.
Context {T : Type} `{Pixel T}.

(** The loops of [fill_rows] over a view whose rows do not overlap
    (stride >= width x element size) and start below 2^32 bytes from its
    base: every element of the view holds [v] afterwards, and only bytes of
    its rows were written. *)
Lemma fill_rows_strided (d w h ys : Z) (v : T) (m : heap) :
  0 <= w -> 0 <= h -> w * sizeof T <= ys -> (h - 1) * ys < 4294967296 ->
  (forall a, in_rows d w h ys (sizeof T) a -> is_Some (m !! a)) ->
  exists m', Image.fill_rows (View2d.mk d w h (sizeof T) ys) v m = Ok m' /\
    (forall x y, 0 <= x < w -> 0 <= y < h ->
       load (d + y * ys + x * sizeof T) m' = Ok v) /\
    (forall a, is_Some (m' !! a) <-> is_Some (m !! a)) /\
    (forall a, ~ in_rows d w h ys (sizeof T) a -> m' !! a = m !! a).
Proof.
  intros Hw Hh Hinv Hspan Halloc. pose proof sizeof_range as Hsz.
  set (J := fun (Y X : Z) (m' : heap) =>
         (forall x y, 0 <= x < w -> 0 <= y < h -> (y < Y \/ (y = Y /\ x < X)) ->
            load (d + y * ys + x * sizeof T) m' = Ok v) /\
         (forall a, is_Some (m' !! a) <-> is_Some (m !! a)) /\
         (forall a, ~ in_rows d w h ys (sizeof T) a -> m' !! a = m !! a)).
  unfold Image.fill_rows, View2d.getHeight, View2d.getWidth.
  cbn [View2d.height_ View2d.width_].
  destruct (for_loop_inv (fun Y m' => J Y 0 m')
              (fun y m1 =>
                 row_ptr ← View2d.row (View2d.mk (T := T) d w h (sizeof T) ys) y;
                 for_loop w (fun x m2 => store (row_ptr + x * sizeof T) v m2) m1)
              h m Hh) as (m' & Hm' & (HJ1 & HJ2 & HJ3)).
  - split; [| split; [reflexivity | reflexivity]].
    intros x y Hx Hy Hlt. lia.
  - intros Y m0 HY HJ.
    unfold View2d.row. cbn [View2d.height_ View2d.data_ View2d.y_stride_].
    rewrite assert_true by (apply Z.ltb_lt; lia). cbn [mbind result_bind].
    rewrite u32_wrap_id by (unfold is_u32; nia).
    destruct (for_loop_inv (fun X m' => J Y X m')
                (fun x m2 => store (d + Y * ys + x * sizeof T) v m2) w m0 Hw HJ)
      as (m1 & Hm1 & (HI1 & HI2 & HI3)).
    + intros X m2 HX (HL & HD & HF).
      destruct (store_Ok (d + Y * ys + X * sizeof T) v m2) as (m3 & Hst & Hld & Hfr & Hdom).
      { intros a Ha. apply HD, Halloc. exists Y. split; [lia | nia]. }
      exists m3. split; [exact Hst |]. split; [| split].
      * intros x y Hx Hy Hlt.
        destruct (decide (y = Y /\ x = X)) as [[-> ->] | Hne]; [exact Hld |].
        rewrite <- (HL x y Hx Hy) by lia. apply load_frame. intros a Ha. apply Hfr.
        destruct (Z_lt_le_dec y Y) as [HyY | HyY].
        -- assert ((y + 1) * ys <= Y * ys) by nia.
           assert (x * sizeof T + sizeof T <= w * sizeof T) by nia. nia.
        -- assert (y = Y) by lia. subst y. assert (x < X) by lia. nia.
      * intros a. rewrite Hdom. apply HD.
      * intros a Ha. rewrite Hfr; [apply HF, Ha |].
        intros Hin. apply Ha. exists Y. split; [lia | nia].
    + exists m1. split; [exact Hm1 |]. split; [| split; assumption].
      intros x y Hx Hy Hlt. apply HI1; (assumption || lia).
  - exists m'. split; [exact Hm' |]. split; [| split; assumption].
    intros x y Hx Hy. apply HJ1; (assumption || lia).
Qed.

End Region.

(** ** Filling an RGBA8 image where no product overflows *)

(** The array the constructor builds when neither the element count nor the
    row size overflows 32 bits. *)
Lemma Array2d_new_rows {T : Type} `{Pixel T} (w h p : Z) (init : list Z) (m m1 : heap)
    (arr : Array2d.t T) :
  0 < w -> 0 < h -> w * h < 4294967296 -> w * sizeof T < 4294967296 ->
  Array2d.new w h p init m = Ok (arr, m1) ->
  arr = Array2d.mk p (View2d.mk p w h (sizeof T) (w * sizeof T)) /\
  0 < p /\
  (forall a, p <= a < p + (w * h) * sizeof T -> is_Some (m1 !! a)).
Proof.
  intros Hw Hh Hcount Hrow E. pose proof sizeof_range as Hsz.
  apply Array2d_new_inv in E as (Ealloc & view & Ev & ->).
  apply View2d_new_inv in Ev as (_ & ->).
  apply operator_new_inv in Ealloc as (Hp & _ & _ & Halloc & _).
  rewrite u32_wrap_id in Halloc by (unfold is_u32; nia).
  rewrite sizeof_u32. simpl. rewrite u32_wrap_id by (unfold is_u32; nia).
  auto.
Qed.

(** The property of C1 holds for every image whose sizes the 32-bit
    arithmetic of the code can hold: a row of less than 2^32 bytes
    (w * 4 < 2^32) and a last row that starts less than 2^32 bytes after the
    first ((h - 1) * w * 4 < 2^32).  After [fill(c)] every element of the
    buffer is [RGBA8::fromSColor(c)] and [getPixel(x, y)] returns c; for a
    10x10 image filled with (A=255, R=255, G=0, B=0), [getPixel(5,5)] is that
    colour and every element is [RGBA8(255,0,0,255)]. *)
Lemma fill_RGBA8_getPixel :
  (forall (w h p : Z) (init : list Z) (m m1 : heap) (img : Image.t) (c : SColor.t),
     0 < w -> 0 < h ->
     w * sizeof RGBA8.t < 4294967296 -> (h - 1) * (w * sizeof RGBA8.t) < 4294967296 ->
     SColor.wf c ->
     Image.createRGBA8 w h p init m = Ok (img, m1) ->
     exists m2, Image.fill c img m1 = Ok (img, m2) /\
       (forall i, 0 <= i < w * h ->
          load (p + i * sizeof RGBA8.t) m2 = Ok (RGBA8.fromSColor c)) /\
       (forall x y, 0 <= x < w -> 0 <= y < h -> Image.getPixel img x y m2 = Ok c)) /\
  (forall (p : Z) (init : list Z) (m m1 : heap) (img : Image.t),
     Image.createRGBA8 10 10 p init m = Ok (img, m1) ->
     exists m2, Image.fill (SColor.make 255 255 0 0) img m1 = Ok (img, m2) /\
       Image.getPixel img 5 5 m2 = Ok (SColor.make 255 255 0 0) /\
       (forall i, 0 <= i < 10 * 10 ->
          load (p + i * sizeof RGBA8.t) m2 = Ok (RGBA8.mk 255 0 0 255))).
Proof.
  assert (Hgen : forall (w h p : Z) (init : list Z) (m m1 : heap) (img : Image.t)
                        (c : SColor.t),
     0 < w -> 0 < h ->
     w * sizeof RGBA8.t < 4294967296 -> (h - 1) * (w * sizeof RGBA8.t) < 4294967296 ->
     SColor.wf c ->
     Image.createRGBA8 w h p init m = Ok (img, m1) ->
     exists m2, Image.fill c img m1 = Ok (img, m2) /\
       (forall i, 0 <= i < w * h ->
          load (p + i * sizeof RGBA8.t) m2 = Ok (RGBA8.fromSColor c)) /\
       (forall x y, 0 <= x < w -> 0 <= y < h -> Image.getPixel img x y m2 = Ok c)).
  { intros w h p init m m1 img c Hw Hh Hrow Hspan Hc E.
    change (sizeof RGBA8.t) with 4 in *.
    assert (Hh1 : 0 <= (h - 1) * (w * 4)) by (apply Z.mul_nonneg_nonneg; lia).
    assert (Hw4 : w * 4 <= (h - 1) * (w * 4) \/ h = 1).
    { destruct (decide (h = 1)) as [-> | Hne]; [right; reflexivity | left].
      assert (1 * (w * 4) <= (h - 1) * (w * 4))
        by (apply Z.mul_le_mono_nonneg_r; lia). lia. }
    assert (Hcount : w * h < 4294967296).
    { replace (w * h) with ((h - 1) * w + w) by ring.
      assert ((h - 1) * (w * 4) = ((h - 1) * w) * 4) by ring. lia. }
    assert (Hhu : h < 4294967296).
    { destruct Hw4 as [Hle | ->]; [| lia].
      assert ((h - 1) * 4 <= (h - 1) * (w * 4)).
      { replace ((h - 1) * (w * 4)) with (w * ((h - 1) * 4)) by ring.
        replace ((h - 1) * 4) with (1 * ((h - 1) * 4)) at 1 by ring.
        apply Z.mul_le_mono_nonneg_r; lia. }
      lia. }
    apply createRGBA8_inv in E as (arr & E & ->).
    apply (Array2d_new_rows (T := RGBA8.t)) in E as (-> & Hp & Halloc);
      try (assumption || (change (sizeof RGBA8.t) with 4; lia)).
    change (sizeof RGBA8.t) with 4 in *.
    set (V := View2d.mk (T := RGBA8.t) p w h 4 (w * 4)).
    assert (HwfV : View2d.wf V).
    { unfold V, View2d.wf, is_u32.
      cbn [View2d.data_ View2d.width_ View2d.height_ View2d.x_stride_ View2d.y_stride_].
      change (sizeof RGBA8.t) with 4. repeat split; lia. }
    destruct (fill_rows_strided (T := RGBA8.t) p w h (w * 4) (RGBA8.fromSColor c) m1)
      as (m2 & Hfill & Hall & _ & _);
      try (change (sizeof RGBA8.t) with 4; lia).
    { change (sizeof RGBA8.t) with 4. intros a (y & Hy & Ha). apply Halloc.
      assert ((y + 1) * (w * 4) <= h * (w * 4)) by (apply Z.mul_le_mono_nonneg_r; lia).
      assert (0 <= y * (w * 4)) by (apply Z.mul_nonneg_nonneg; lia).
      replace (w * h * 4) with (h * (w * 4)) by ring. lia. }
    change (sizeof RGBA8.t) with 4 in *.
    exists m2. split; [| split].
    - subst V. rewrite fill_RGBA8_unfold, Hfill. reflexivity.
    - intros i Hi.
      pose proof (Z.div_mod i w ltac:(lia)) as Hdm.
      pose proof (Z.mod_pos_bound i w ltac:(lia)) as Hr.
      assert (Hq : 0 <= i / w < h).
      { split; [apply Z.div_pos; lia | apply Z.div_lt_upper_bound; lia]. }
      remember (i / w) as q. remember (i mod w) as r.
      replace (p + i * 4) with (p + q * (w * 4) + r * 4) by (rewrite Hdm; ring).
      apply Hall; assumption.
    - intros x y Hx Hy. unfold Image.getPixel.
      cbn [Image.isRGBA8 Image.getAsRGBA8 Image.data_ Array2d.getView Array2d.view_
           mbind result_bind].
      fold V.
      rewrite (at_exact V x y HwfV); try assumption;
        try (unfold V; cbn [View2d.width_ View2d.height_ View2d.y_stride_];
             change (sizeof RGBA8.t) with 4; lia).
      unfold V. cbn [View2d.data_ View2d.y_stride_ mbind result_bind].
      change (sizeof RGBA8.t) with 4.
      rewrite Hall by assumption. cbn [mbind result_bind].
      rewrite RGBA8_to_from_SColor by exact Hc. reflexivity. }
  split; [exact Hgen |].
  intros p init m m1 img E.
  destruct (Hgen 10 10 p init m m1 img (SColor.make 255 255 0 0))
    as (m2 & Hfill & Hall & Hget); try (simpl; lia); try exact E.
  { unfold SColor.wf, is_u32. vm_compute. split; [discriminate | reflexivity]. }
  exists m2. split; [exact Hfill |]. split; [apply Hget; lia |].
  intros i Hi. rewrite Hall by exact Hi. reflexivity.
Qed.

(** Scenario A on the 10x10 image at 4096. *)
Lemma fill_RGBA8_getPixel_witness :
  Image.createRGBA8 10 10 4096 (replicate 400 0) ∅ = Ok (sample_RGBA8, sample_heap 400) /\
  exists m2,
    Image.fill (SColor.make 255 255 0 0) sample_RGBA8 (sample_heap 400)
      = Ok (sample_RGBA8, m2) /\
    Image.getPixel sample_RGBA8 5 5 m2 = Ok (SColor.make 255 255 0 0) /\
    load (4096 + 99 * sizeof RGBA8.t) m2 = Ok (RGBA8.mk 255 0 0 255).
Proof.
  split; [exact sample_RGBA8_created |].
  destruct (proj2 fill_RGBA8_getPixel 4096 (replicate 400 0) ∅ (sample_heap 400)
              sample_RGBA8 sample_RGBA8_created) as (m2 & Hfill & Hget & Hall).
  exists m2. split; [exact Hfill |]. split; [exact Hget |].
  apply Hall. lia.
Defined.

(** C1 (a defect of the code: unchecked 32-bit products).  The claim fails
    on images the factory accepts, in two ways.
    [createRGBA8(65536, 65536)] allocates 65536 * 65536 mod 2^32 = 0 elements
    under a 65536 x 65536 view, and the first store of [fill] is outside the
    block.  [createRGBA8(2^30, 2)] allocates 2^31 elements under a view whose
    row stride 2^30 * 4 wraps to 0: [fill] returns, having written the first
    row twice, and element 2^30 of the buffer still holds its initial bytes,
    not [RGBA8::fromSColor(c)]. *)
Theorem fill_overflow_counterexample :
  ((0 < 65536 /\ SColor.wf (SColor.make 255 255 0 0)) /\
   Image.createRGBA8 65536 65536 4096 [] ∅ = Ok (huge_RGBA8, ∅) /\
   Image.getWidth huge_RGBA8 = 65536 /\ Image.getHeight huge_RGBA8 = 65536 /\
   Image.fill (SColor.make 255 255 0 0) huge_RGBA8 ∅ = Fault MemoryFault) /\
  ((0 < 1073741824 /\ 0 < 2) /\
   Image.createRGBA8 1073741824 2 4096 zero_bytes ∅
     = Ok (aliased_RGBA8, write_block 4096 zero_bytes ∅) /\
   RGBA8.fromSColor (SColor.make 255 255 0 0) = RGBA8.mk 255 0 0 255 /\
   exists m2,
     Image.fill (SColor.make 255 255 0 0) aliased_RGBA8 (write_block 4096 zero_bytes ∅)
       = Ok (aliased_RGBA8, m2) /\
     0 <= 1073741824 < u32_wrap (1073741824 * 2) /\
     load (4096 + 1073741824 * sizeof RGBA8.t) m2 = Ok (RGBA8.mk 0 0 0 0)).
Proof.
  split.
  { split.
    { split; [lia |]. unfold SColor.wf, is_u32. vm_compute.
      split; [discriminate | reflexivity]. }
    split; [vm_compute; reflexivity |].
    split; [reflexivity |]. split; [reflexivity |].
    vm_compute; reflexivity. }
  split; [lia |]. split; [exact aliased_RGBA8_created |].
  split; [vm_compute; reflexivity |].
  destruct (fill_rows_stride_zero_RGBA8 4096 1073741824 2
              (RGBA8.fromSColor (SColor.make 255 255 0 0))
              (write_block 4096 zero_bytes ∅)) as (m2 & Hfill & _ & Hout).
  { lia. }
  { lia. }
  { intros a Ha. rewrite zero_block_lookup by lia. eauto. }
  exists m2. split; [| split].
  - unfold aliased_RGBA8. rewrite fill_RGBA8_unfold, Hfill. reflexivity.
  - change (u32_wrap (1073741824 * 2)) with 2147483648. lia.
  - change (4096 + 1073741824 * sizeof RGBA8.t) with 4294971392.
    rewrite <- (zero_block_load 4294971392) by lia.
    apply load_frame. intros a Ha. change (sizeof RGBA8.t) with 4 in Ha.
    apply Hout. lia.
Qed.

(** * Further properties of the code *)

(** ** Pixel formats *)

Lemma getters_u8 (c : SColor.t) :
  is_u8 (SColor.getAlpha c) /\ is_u8 (SColor.getRed c) /\
  is_u8 (SColor.getGreen c) /\ is_u8 (SColor.getBlue c).
Proof.
  rewrite getAlpha_channel, getRed_channel, getGreen_channel, getBlue_channel.
  auto using channel_u8.
Qed.

(** X1.  For every 32-bit packed colour c, [RGBA8::fromSColor(c).toSColor()]
    is c, and the four channels of the pixel are 8-bit values; so
    [RGBA8::fromSColor] sends different colours to different pixels. *)
Theorem RGBA8_color_roundtrip (c : SColor.t) :
  SColor.wf c ->
  RGBA8.toSColor (RGBA8.fromSColor c) = c /\
  RGBA8.wf (RGBA8.fromSColor c) /\
  (forall c', SColor.wf c' -> RGBA8.fromSColor c' = RGBA8.fromSColor c -> c' = c).
Proof.
  intros Hc. split; [| split].
  - unfold RGBA8.toSColor, RGBA8.fromSColor. simpl. apply make_getters, Hc.
  - unfold RGBA8.wf, RGBA8.fromSColor. simpl.
    destruct (getters_u8 c) as (Ha & Hr & Hg & Hb). auto.
  - intros c' Hc' E.
    rewrite <- (make_getters c Hc), <- (make_getters c' Hc').
    unfold RGBA8.fromSColor in E. injection E as -> -> -> ->. reflexivity.
Qed.

Lemma RGBA8_color_roundtrip_witness :
  SColor.wf (SColor.mk 305419896) /\
  RGBA8.toSColor (RGBA8.fromSColor (SColor.mk 305419896)) = SColor.mk 305419896.
Proof.
  assert (H : SColor.wf (SColor.mk 305419896)) by (unfold SColor.wf, is_u32; simpl; lia).
  split; [exact H |]. exact (proj1 (RGBA8_color_roundtrip (SColor.mk 305419896) H)).
Defined.

(** X2.  For every 32-bit packed colour c, [RGB8::fromSColor(c).toSColor()]
    has the red, green and blue of c and alpha 255; it is c exactly when the
    alpha of c is 255. *)
Theorem RGB8_color_roundtrip (c : SColor.t) :
  SColor.wf c ->
  SColor.getAlpha (RGB8.toSColor (RGB8.fromSColor c)) = 255 /\
  SColor.getRed (RGB8.toSColor (RGB8.fromSColor c)) = SColor.getRed c /\
  SColor.getGreen (RGB8.toSColor (RGB8.fromSColor c)) = SColor.getGreen c /\
  SColor.getBlue (RGB8.toSColor (RGB8.fromSColor c)) = SColor.getBlue c /\
  (RGB8.toSColor (RGB8.fromSColor c) = c <-> SColor.getAlpha c = 255).
Proof.
  intros Hc. destruct (getters_u8 c) as (Ha & Hr & Hg & Hb).
  assert (H255 : is_u8 255) by (unfold is_u8; lia).
  unfold RGB8.toSColor, RGB8.fromSColor. simpl.
  destruct (getters_make 255 _ _ _ H255 Hr Hg Hb) as (Ea & Er & Eg & Eb).
  repeat (split; [assumption |]).
  split.
  - intros E. rewrite <- E. exact Ea.
  - intros E. rewrite <- E. apply make_getters, Hc.
Qed.

Lemma RGB8_color_roundtrip_witness :
  SColor.wf (SColor.mk 305419896) /\
  SColor.getAlpha (RGB8.toSColor (RGB8.fromSColor (SColor.mk 305419896))) = 255.
Proof.
  assert (H : SColor.wf (SColor.mk 305419896)) by (unfold SColor.wf, is_u32; simpl; lia).
  split; [exact H |]. exact (proj1 (RGB8_color_roundtrip (SColor.mk 305419896) H)).
Defined.

(** X3.  [operator==] of each pixel format holds exactly of equal pixels. *)
Theorem pixel_eqb_eq :
  (forall p q : RGBA8.t, RGBA8.eqb p q = true <-> p = q) /\
  (forall p q : RGB8.t, RGB8.eqb p q = true <-> p = q) /\
  (forall p q : R8.t, R8.eqb p q = true <-> p = q).
Proof.
  split; [| split].
  - intros [r g b a] [r' g' b' a']. unfold RGBA8.eqb. simpl.
    rewrite !andb_true_iff, !Z.eqb_eq. split.
    + intros [[[-> ->] ->] ->]. reflexivity.
    + intros E. injection E as -> -> -> ->. auto.
  - intros [r g b] [r' g' b']. unfold RGB8.eqb. simpl.
    rewrite !andb_true_iff, !Z.eqb_eq. split.
    + intros [[-> ->] ->]. reflexivity.
    + intros E. injection E as -> -> ->. auto.
  - intros [r] [r']. unfold R8.eqb. simpl. rewrite Z.eqb_eq. split.
    + intros ->. reflexivity.
    + intros E. injection E as ->. reflexivity.
Qed.

(** ** Views: what the operations keep, check and compose to *)

Section ViewLaws.
Context {T : Type} `{Pixel T}.

Lemma take_wf (V S : View2d.t T) (w h : Z) :
  View2d.wf V -> is_u32 w -> is_u32 h -> View2d.take V w h = Ok S -> View2d.wf S.
Proof.
  intros (Hd & Hw & Hh & Hnull & Hxs & Hs & Hz) Hw' Hh' E.
  unfold View2d.take in E. apply bind_Ok_inv in E as (u & _ & E).
  apply new_wf in E; assumption.
Qed.

Lemma drop_wf_u32 (V S : View2d.t T) (left top : Z) :
  View2d.wf V -> is_u32 left -> is_u32 top -> View2d.drop V left top = Ok S -> View2d.wf S.
Proof.
  intros Hwf Hl Ht E. pose proof Hwf as (Hd & Hw & Hh & Hnull & Hxs & Hs & Hz).
  unfold View2d.drop in E. apply bind_Ok_inv in E as (u & _ & E).
  apply new_wf in E; [exact E | | apply u32_wrap_range | apply u32_wrap_range | exact Hs].
  pose proof (u32_wrap_nonneg (top * View2d.y_stride_ V)).
  pose proof (u32_wrap_nonneg (left * View2d.x_stride_ V)). lia.
Qed.

(** X4.  The class invariant of [View2d] (members in their [u32] range, a
    null base only on an empty view, [x_stride_] the element size, and a zero
    [y_stride_] only where width x element size is 0 mod 2^32) holds of every
    view the constructor returns and is kept by [drop], [take] and [slice];
    every view that satisfies it is what the constructor returns for its own
    base, width, height and stride. *)
Theorem view_invariant_kept :
  (forall data w h s (v : View2d.t T),
     0 <= data -> is_u32 w -> is_u32 h -> is_u32 s ->
     View2d.new data w h s = Ok v -> View2d.wf v) /\
  (forall (v S : View2d.t T) left top,
     View2d.wf v -> is_u32 left -> is_u32 top ->
     View2d.drop v left top = Ok S -> View2d.wf S) /\
  (forall (v S : View2d.t T) w h,
     View2d.wf v -> is_u32 w -> is_u32 h ->
     View2d.take v w h = Ok S -> View2d.wf S) /\
  (forall (v S : View2d.t T) x y w h,
     View2d.wf v -> is_u32 x -> is_u32 y -> is_u32 w -> is_u32 h ->
     View2d.slice v x y w h = Ok S -> View2d.wf S) /\
  (forall v : View2d.t T,
     View2d.wf v ->
     View2d.new (View2d.data_ v) (View2d.width_ v) (View2d.height_ v)
       (View2d.y_stride_ v) = Ok v).
Proof.
  split; [exact new_wf |]. split; [exact drop_wf_u32 |]. split; [exact take_wf |].
  split; [| exact wf_new].
  intros v S x y w h Hwf Hx Hy Hw Hh E. unfold View2d.slice in E.
  apply bind_Ok_inv in E as (d & Hd & E).
  apply (take_wf d S w h); try assumption.
  apply (drop_wf_u32 v d x y); assumption.
Qed.

(** X5.  On a view of the class, [row(y)] returns the address base + y x
    stride (the product in [u32]) for y below the height, and indexing that
    row pointer by x gives the address [at(x, y)] returns, for x below the
    width with x x element size below 2^32.  [row] with y at or above the
    height, and [at] with y at or above the height or x at or above the
    width, end in the assertion failure. *)
Theorem row_indexes_at (v : View2d.t T) (x y : Z) :
  View2d.wf v -> is_u32 x -> is_u32 y ->
  (y < View2d.getHeight v ->
     View2d.row v y = Ok (View2d.getData v + u32_wrap (y * View2d.getYStride v)) /\
     (x < View2d.getWidth v -> x * sizeof T < 4294967296 ->
      View2d.at_ v x y
        = Ok (View2d.getData v + u32_wrap (y * View2d.getYStride v) + x * sizeof T))) /\
  (View2d.getHeight v <= y ->
     View2d.row v y = Fault AssertionFailed /\ View2d.at_ v x y = Fault AssertionFailed) /\
  (View2d.getWidth v <= x -> View2d.at_ v x y = Fault AssertionFailed).
Proof.
  intros (Hd & Hw & Hh & Hnull & Hxs & Hs & Hz) Hx Hy.
  unfold View2d.getHeight, View2d.getWidth, View2d.getData, View2d.getYStride.
  unfold is_u32 in *. split; [| split].
  - intros Hlt. split.
    + unfold View2d.row. rewrite assert_true by (apply Z.ltb_lt; exact Hlt). reflexivity.
    + intros Hxw Hfit. pose proof sizeof_range as Hsz.
      rewrite at_Ok by lia. rewrite Hxs.
      rewrite (u32_wrap_id (x * sizeof T)) by (unfold is_u32; nia). reflexivity.
  - intros Hge. unfold View2d.row, View2d.at_.
    replace (y <? View2d.height_ v) with false by (symmetry; apply Z.ltb_ge; exact Hge).
    rewrite andb_false_r. split; reflexivity.
  - intros Hge. unfold View2d.at_.
    replace (x <? View2d.width_ v) with false by (symmetry; apply Z.ltb_ge; exact Hge).
    reflexivity.
Qed.

(** X6.  On a view of the class, [slice(x, y, w, h)] returns exactly when
    x <= width, y <= height, w <= width - x and h <= height - y; the result
    then has width w, height h and the base of [drop(x, y)].  In every other
    case it ends in the assertion failure: the sum x + w is never formed, so
    no region is accepted through a wrapped sum. *)
Theorem slice_checked (v : View2d.t T) (x y w h : Z) :
  View2d.wf v -> is_u32 x -> is_u32 y -> is_u32 w -> is_u32 h ->
  (x <= View2d.getWidth v /\ y <= View2d.getHeight v /\
   w <= View2d.getWidth v - x /\ h <= View2d.getHeight v - y ->
   exists S, View2d.slice v x y w h = Ok S /\
     View2d.getWidth S = w /\ View2d.getHeight S = h /\
     View2d.getData S
       = View2d.getData v + u32_wrap (y * View2d.getYStride v) + u32_wrap (x * sizeof T)) /\
  (~ (x <= View2d.getWidth v /\ y <= View2d.getHeight v /\
      w <= View2d.getWidth v - x /\ h <= View2d.getHeight v - y) ->
   View2d.slice v x y w h = Fault AssertionFailed).
Proof.
  intros Hwf Hx Hy Hw Hh.
  unfold View2d.getHeight, View2d.getWidth, View2d.getData, View2d.getYStride.
  unfold is_u32 in *. split.
  - intros (Hxw & Hyh & Hww & Hhh). unfold View2d.slice.
    rewrite drop_Ok by (assumption || lia). cbn [mbind result_bind].
    assert (HwfS : View2d.wf (View2d.mk (T := T)
              (View2d.data_ v + u32_wrap (y * View2d.y_stride_ v) + u32_wrap (x * sizeof T))
              (View2d.width_ v - x) (View2d.height_ v - y) (sizeof T)
              (if 0 <? View2d.y_stride_ v then View2d.y_stride_ v
               else u32_wrap ((View2d.width_ v - x) * sizeof T)))).
    { apply (drop_wf_u32 v _ x y); try (assumption || (unfold is_u32; lia)).
      apply drop_Ok; (assumption || lia). }
    rewrite take_Ok by (assumption || (simpl; lia)).
    eexists. split; [reflexivity |]. simpl. auto.
  - intros Hno. unfold View2d.slice.
    destruct (Z_le_gt_dec x (View2d.width_ v)) as [Hxw | Hxw];
      [destruct (Z_le_gt_dec y (View2d.height_ v)) as [Hyh | Hyh] |].
    + rewrite drop_Ok by (assumption || lia). cbn [mbind result_bind].
      unfold View2d.take. cbn [View2d.width_ View2d.height_].
      replace ((w <=? View2d.width_ v - x) && (h <=? View2d.height_ v - y)) with false;
        [reflexivity |].
      symmetry. apply andb_false_iff.
      destruct (Z_le_gt_dec w (View2d.width_ v - x));
        [right; apply Z.leb_gt; lia | left; apply Z.leb_gt; lia].
    + unfold View2d.drop.
      replace (y <=? View2d.height_ v) with false by (symmetry; apply Z.leb_gt; lia).
      rewrite andb_false_r. reflexivity.
    + unfold View2d.drop.
      replace (x <=? View2d.width_ v) with false by (symmetry; apply Z.leb_gt; lia).
      reflexivity.
Qed.

End ViewLaws.

Lemma row_indexes_at_witness :
  (View2d.wf (sample_view (T := RGBA8.t)) /\ is_u32 3 /\ is_u32 4) /\
  View2d.row (sample_view (T := RGBA8.t)) 4 = Ok 4256 /\
  View2d.at_ (sample_view (T := RGBA8.t)) 3 4 = Ok 4268 /\
  View2d.at_ (sample_view (T := RGBA8.t)) 10 4 = Fault AssertionFailed.
Proof.
  assert (H3 : is_u32 3) by (unfold is_u32; lia).
  assert (H4 : is_u32 4) by (unfold is_u32; lia).
  assert (H10 : is_u32 10) by (unfold is_u32; lia).
  split; [exact (conj sample_view_RGBA8_wf (conj H3 H4)) |].
  destruct (row_indexes_at sample_view 3 4 sample_view_RGBA8_wf H3 H4) as (Hin & _ & _).
  destruct Hin as (Hrow & Hat); [simpl; lia |].
  split; [exact Hrow |]. split.
  - apply Hat; simpl; lia.
  - apply (proj2 (proj2 (row_indexes_at sample_view 10 4 sample_view_RGBA8_wf H10 H4))).
    simpl. lia.
Defined.

Lemma slice_checked_witness :
  (View2d.wf (sample_view (T := RGBA8.t)) /\ is_u32 2 /\ is_u32 3 /\ is_u32 9) /\
  (exists S : View2d.t RGBA8.t,
     View2d.slice sample_view 2 2 3 3 = Ok S /\
     View2d.getWidth S = 3 /\ View2d.getHeight S = 3) /\
  View2d.slice (sample_view (T := RGBA8.t)) 2 2 9 3 = Fault AssertionFailed.
Proof.
  assert (H2 : is_u32 2) by (unfold is_u32; lia).
  assert (H3 : is_u32 3) by (unfold is_u32; lia).
  assert (H9 : is_u32 9) by (unfold is_u32; lia).
  split; [exact (conj sample_view_RGBA8_wf (conj H2 (conj H3 H9))) |].
  split.
  - destruct (proj1 (slice_checked sample_view 2 2 3 3 sample_view_RGBA8_wf H2 H2 H3 H3))
      as (S & HS & Hw & Hh & _); [simpl; lia |].
    exists S. auto.
  - apply (proj2 (slice_checked sample_view 2 2 9 3 sample_view_RGBA8_wf H2 H2 H9 H3)).
    simpl. lia.
Defined.

Section ViewComposition.
Context {T : Type} `{Pixel T}.

Lemma drop_wf_mk (V : View2d.t T) (left top : Z) :
  View2d.wf V -> 0 <= left <= View2d.width_ V -> 0 <= top <= View2d.height_ V ->
  View2d.wf (View2d.mk (T := T)
    (View2d.data_ V + u32_wrap (top * View2d.y_stride_ V) + u32_wrap (left * sizeof T))
    (View2d.width_ V - left) (View2d.height_ V - top) (sizeof T)
    (if 0 <? View2d.y_stride_ V then View2d.y_stride_ V
     else u32_wrap ((View2d.width_ V - left) * sizeof T))).
Proof.
  intros Hwf Hl Ht. apply (drop_wf V _ left top Hwf Hl Ht). apply drop_Ok; assumption.
Qed.

Lemma take_wf_mk (V : View2d.t T) (w h : Z) :
  View2d.wf V -> 0 <= w <= View2d.width_ V -> 0 <= h <= View2d.height_ V ->
  View2d.wf (View2d.mk (T := T) (View2d.data_ V) w h (sizeof T)
    (if 0 <? View2d.y_stride_ V then View2d.y_stride_ V else u32_wrap (w * sizeof T))).
Proof.
  intros Hwf Hw Hh. pose proof Hwf as (_ & HW & HH & _). unfold is_u32 in HW, HH.
  apply (take_wf V _ w h Hwf); [unfold is_u32; lia | unfold is_u32; lia |].
  apply take_Ok; assumption.
Qed.

(** The stride a sub-view gets from a view that keeps
    row stride >= width x element size: that of the view. *)
Lemma kept_stride (V : View2d.t T) (w : Z) :
  View2d.wf V -> View2d.width_ V * sizeof T <= View2d.y_stride_ V ->
  0 <= w <= View2d.width_ V ->
  (if 0 <? View2d.y_stride_ V then View2d.y_stride_ V else u32_wrap (w * sizeof T))
    = View2d.y_stride_ V.
Proof.
  intros (Hd & Hw & Hh & Hnull & Hxs & Hs & Hz) Hinv Hw'.
  pose proof sizeof_range as Hsz. unfold is_u32 in *.
  destruct (Z.ltb_spec 0 (View2d.y_stride_ V)) as [Hpos | Hzero]; [reflexivity |].
  assert (View2d.y_stride_ V = 0) as -> by lia.
  assert (w = 0) as -> by nia. reflexivity.
Qed.

(** X7.  On a view that keeps row stride >= width x element size and spans
    less than 2^32 bytes (height x stride), two [drop]s are one:
    [V.drop(l1, t1).drop(l2, t2)] is [V.drop(l1 + l2, t1 + t2)], with the same
    base, width, height and strides. *)
Theorem drop_drop (V : View2d.t T) (l1 t1 l2 t2 : Z) :
  View2d.wf V ->
  View2d.getWidth V * sizeof T <= View2d.getYStride V ->
  View2d.getHeight V * View2d.getYStride V < 4294967296 ->
  0 <= l1 -> 0 <= l2 -> l1 + l2 <= View2d.getWidth V ->
  0 <= t1 -> 0 <= t2 -> t1 + t2 <= View2d.getHeight V ->
  (S ← View2d.drop V l1 t1; View2d.drop S l2 t2) = View2d.drop V (l1 + l2) (t1 + t2) /\
  exists S2, View2d.drop V (l1 + l2) (t1 + t2) = Ok S2.
Proof.
  unfold View2d.getWidth, View2d.getHeight, View2d.getYStride.
  intros Hwf Hinv Hspan Hl1 Hl2 Hl Ht1 Ht2 Ht.
  pose proof sizeof_range as Hsz.
  pose proof Hwf as (Hd & Hw & Hh & Hnull & Hxs & Hs & Hz). unfold is_u32 in *.
  rewrite (drop_Ok V l1 t1) by (assumption || lia). cbn [mbind result_bind].
  rewrite !(kept_stride V) by (assumption || lia).
  pose proof (drop_wf_mk V l1 t1 Hwf) as HwfS.
  rewrite (kept_stride V) in HwfS by (assumption || lia).
  rewrite drop_Ok by (try apply HwfS; simpl; lia).
  rewrite (drop_Ok V (l1 + l2) (t1 + t2)) by (assumption || lia).
  cbn [View2d.data_ View2d.width_ View2d.height_ View2d.y_stride_].
  rewrite !(kept_stride V) by (assumption || lia).
  split; [| eexists; reflexivity].
  rewrite !u32_wrap_id by (unfold is_u32; nia).
  do 2 f_equal; ring.
Qed.

(** X8.  On a view that keeps row stride >= width x element size, a [take]
    within a [take] is the inner [take] of the view itself, and [drop] and
    [take] commute: [V.drop(l, t).take(w, h)] is [V.take(l + w, t + h).drop(l, t)]. *)
Theorem take_take_drop_take (V : View2d.t T) :
  View2d.wf V ->
  View2d.getWidth V * sizeof T <= View2d.getYStride V ->
  (forall w1 h1 w2 h2,
     0 <= w2 <= w1 -> w1 <= View2d.getWidth V ->
     0 <= h2 <= h1 -> h1 <= View2d.getHeight V ->
     (S ← View2d.take V w1 h1; View2d.take S w2 h2) = View2d.take V w2 h2 /\
     exists S2, View2d.take V w2 h2 = Ok S2) /\
  (forall l t w h,
     0 <= l -> 0 <= w -> l + w <= View2d.getWidth V ->
     0 <= t -> 0 <= h -> t + h <= View2d.getHeight V ->
     (S ← View2d.drop V l t; View2d.take S w h)
       = (S ← View2d.take V (l + w) (t + h); View2d.drop S l t) /\
     exists S2, View2d.slice V l t w h = Ok S2).
Proof.
  unfold View2d.getWidth, View2d.getHeight, View2d.getYStride.
  intros Hwf Hinv. pose proof sizeof_range as Hsz.
  pose proof Hwf as (Hd & Hw & Hh & Hnull & Hxs & Hs & Hz). unfold is_u32 in *.
  split.
  - intros w1 h1 w2 h2 Hw2 Hw1 Hh2 Hh1.
    rewrite (take_Ok V w1 h1) by (assumption || lia). cbn [mbind result_bind].
    pose proof (take_wf_mk V w1 h1 Hwf) as HwfS.
    rewrite (kept_stride V) in * by (assumption || lia).
    rewrite take_Ok by (try apply HwfS; simpl; lia).
    rewrite (take_Ok V w2 h2) by (assumption || lia).
    cbn [View2d.data_ View2d.y_stride_].
    rewrite !(kept_stride V) by (assumption || lia).
    split; [| eexists; reflexivity].
    replace (if 0 <? View2d.y_stride_ V then View2d.y_stride_ V
             else u32_wrap (w2 * sizeof T)) with (View2d.y_stride_ V)
      by (symmetry; apply kept_stride; (assumption || lia)).
    reflexivity.
  - intros l t w h Hl Hw' Hlw Ht Hh' Hth.
    unfold View2d.slice.
    rewrite (drop_Ok V l t) by (assumption || lia).
    rewrite (take_Ok V (l + w) (t + h)) by (assumption || lia).
    cbn [mbind result_bind].
    pose proof (drop_wf_mk V l t Hwf) as HwfD.
    pose proof (take_wf_mk V (l + w) (t + h) Hwf) as HwfT.
    rewrite !(kept_stride V) in * by (assumption || lia).
    rewrite take_Ok by (try apply HwfD; simpl; lia).
    rewrite drop_Ok by (try apply HwfT; simpl; lia).
    cbn [View2d.data_ View2d.width_ View2d.height_ View2d.y_stride_].
    replace (if 0 <? View2d.y_stride_ V then View2d.y_stride_ V
             else u32_wrap (w * sizeof T)) with (View2d.y_stride_ V)
      by (symmetry; apply kept_stride; (assumption || lia)).
    replace (if 0 <? View2d.y_stride_ V then View2d.y_stride_ V
             else u32_wrap ((l + w - l) * sizeof T)) with (View2d.y_stride_ V)
      by (symmetry; apply kept_stride; (assumption || lia)).
    split; [| eexists; reflexivity].
    do 2 f_equal; ring.
Qed.

End ViewComposition.

Lemma sample_view_stride :
  View2d.getWidth (sample_view (T := RGBA8.t)) * sizeof RGBA8.t
    <= View2d.getYStride (sample_view (T := RGBA8.t)) /\
  View2d.getHeight (sample_view (T := RGBA8.t)) * View2d.getYStride (sample_view (T := RGBA8.t))
    < 4294967296.
Proof. simpl. lia. Qed.

Lemma drop_drop_witness :
  (View2d.wf (sample_view (T := RGBA8.t)) /\ 1 + 2 <= 10 /\ 3 + 4 <= 10) /\
  (S ← View2d.drop (sample_view (T := RGBA8.t)) 1 3; View2d.drop S 2 4)
    = View2d.drop sample_view (1 + 2) (3 + 4).
Proof.
  split; [split; [exact sample_view_RGBA8_wf | lia] |].
  apply (drop_drop sample_view 1 3 2 4 sample_view_RGBA8_wf
           (proj1 sample_view_stride) (proj2 sample_view_stride)); simpl; lia.
Defined.

Lemma take_take_drop_take_witness :
  (View2d.wf (sample_view (T := RGBA8.t)) /\ 2 + 3 <= 10) /\
  (S ← View2d.take (sample_view (T := RGBA8.t)) 6 7; View2d.take S 3 3)
    = View2d.take sample_view 3 3 /\
  (S ← View2d.drop (sample_view (T := RGBA8.t)) 2 2; View2d.take S 3 3)
    = (S ← View2d.take sample_view (2 + 3) (2 + 3); View2d.drop S 2 2).
Proof.
  split; [split; [exact sample_view_RGBA8_wf | lia] |].
  destruct (take_take_drop_take sample_view sample_view_RGBA8_wf (proj1 sample_view_stride))
    as (Htt & Hdt).
  split.
  - apply (Htt 6 7 3 3); simpl; lia.
  - apply (Hdt 2 2 3 3); simpl; lia.
Defined.

(** ** The owning array *)

Section ArrayLaws.
Context {T : Type} `{Pixel T}.

(** X9.  When [Array2d(width, height)] returns, the array owns a non-null
    block of (width x height mod 2^32) elements that was not allocated
    before and holds its initial bytes; memory outside the block is as it
    was.  Its view is on that block, has the width and height given and the
    packed row stride width x element size mod 2^32, and satisfies the class
    invariant of views. *)
Theorem Array2d_new_spec (w h p : Z) (init : list Z) (m m1 : heap) (arr : Array2d.t T) :
  is_u32 w -> is_u32 h ->
  Array2d.new w h p init m = Ok (arr, m1) ->
  Array2d.owned_data_ arr = p /\ p <> 0 /\
  Array2d.getData arr = p /\
  Array2d.getWidth arr = w /\ Array2d.getHeight arr = h /\
  View2d.getYStride (Array2d.getView arr) = u32_wrap (w * sizeof T) /\
  View2d.wf (Array2d.getView arr) /\
  (forall a, p <= a < p + u32_wrap (w * h) * sizeof T ->
     m !! a = None /\ m1 !! a = init !! Z.to_nat (a - p) /\ is_Some (m1 !! a)) /\
  (forall a, ~ (p <= a < p + u32_wrap (w * h) * sizeof T) -> m1 !! a = m !! a).
Proof.
  intros Hw Hh E.
  pose proof E as E0. apply Array2d_new_inv in E0 as (Ealloc & view & Ev & ->).
  pose proof Ealloc as Ealloc0.
  apply operator_new_inv in Ealloc0 as (Hp & Hlen & Hin & Hsome & Hout).
  pose proof Ev as Ev0. apply View2d_new_inv in Ev0 as (_ & Hview).
  assert (Hwf : View2d.wf view).
  { apply (new_wf p w h 0); try assumption; [lia | unfold is_u32; lia]. }
  unfold Array2d.getData, Array2d.getWidth, Array2d.getHeight, Array2d.getView.
  cbn [Array2d.owned_data_ Array2d.view_].
  split; [reflexivity |]. split; [lia |].
  split; [rewrite Hview; reflexivity |]. split; [rewrite Hview; reflexivity |].
  split; [rewrite Hview; reflexivity |]. split; [rewrite Hview; reflexivity |].
  split; [exact Hwf |].
  split; [| exact Hout].
  intros a Ha. split; [| split; [apply Hin, Ha | apply Hsome, Ha]].
  unfold operator_new in Ealloc.
  destruct (decide _) as [(_ & _ & Hfresh) | Hno]; [| discriminate].
  destruct (m !! a) as [b |] eqn:Hma; [| reflexivity].
  exfalso. exact (Hfresh a b Hma Ha).
Qed.

End ArrayLaws.

Lemma Array2d_new_spec_witness :
  (is_u32 10 /\
   Array2d.new 10 10 4096 (replicate 400 0) ∅
     = Ok (Array2d.mk 4096 (sample_view (T := RGBA8.t)), sample_heap 400)) /\
  Array2d.getWidth (Array2d.mk 4096 (sample_view (T := RGBA8.t))) = 10 /\
  View2d.getYStride (sample_view (T := RGBA8.t)) = u32_wrap (10 * sizeof RGBA8.t).
Proof.
  assert (H10 : is_u32 10) by (unfold is_u32; lia).
  split; [exact (conj H10 sample_array_created) |].
  destruct (Array2d_new_spec 10 10 4096 (replicate 400 0) ∅ (sample_heap 400)
              (Array2d.mk 4096 sample_view) H10 H10 sample_array_created)
    as (_ & _ & _ & Hw & _ & Hs & _).
  split; [exact Hw | exact Hs].
Defined.

(** ** The container: the other format, single pixels, bounds *)

Section Elements.
Context {T : Type} `{Pixel T}.

(** A store to element [k] of a block of [n] elements: it reads back, the
    other elements read as before, the bytes outside the block and the set
    of allocated bytes are as before. *)
Lemma store_element (p n k : Z) (v : T) (m : heap) :
  0 <= k < n -> allocated p (n * sizeof T) m ->
  exists m2, store (p + k * sizeof T) v m = Ok m2 /\
    load (p + k * sizeof T) m2 = Ok v /\
    (forall j, j <> k -> load (T := T) (p + j * sizeof T) m2 = load (p + j * sizeof T) m) /\
    (forall a, ~ (p <= a < p + n * sizeof T) -> m2 !! a = m !! a) /\
    allocated p (n * sizeof T) m2.
Proof.
  intros Hk Halloc. pose proof sizeof_range as Hsz.
  destruct (store_Ok (p + k * sizeof T) v m) as (m2 & Hst & Hld & Hfr & Hdom).
  { intros a Ha. apply Halloc. nia. }
  exists m2. split; [exact Hst |]. split; [exact Hld |]. split; [| split].
  - intros j Hj. apply load_frame. intros a Ha. apply Hfr. nia.
  - intros a Ha. apply Hfr. nia.
  - intros a Ha. apply Hdom, Halloc, Ha.
Qed.

(** Row-major indices of different coordinates differ. *)
Lemma index_inj (w x y x' y' : Z) :
  0 <= x < w -> 0 <= x' < w -> ~ (x' = x /\ y' = y) -> y' * w + x' <> y * w + x.
Proof.
  intros Hx Hx' Hne E.
  assert (y' = y) by nia. subst y'. apply Hne. split; [lia | reflexivity].
Qed.

Lemma index_range (w h x y : Z) :
  0 <= x < w -> 0 <= y < h -> 0 <= y * w + x < w * h.
Proof. intros Hx Hy. nia. Qed.

End Elements.

Lemma createRGB8_tight (w h p : Z) (init : list Z) (m m1 : heap) (img : Image.t) :
  0 < w -> 0 < h -> w * h * sizeof RGB8.t < 4294967296 ->
  Image.createRGB8 w h p init m = Ok (img, m1) ->
  img = Image.mk (Image.HoldsRGB8
          (Array2d.mk p (View2d.mk p w h (sizeof RGB8.t) (w * sizeof RGB8.t)))) /\
  allocated p (w * h * sizeof RGB8.t) m1 /\ 0 < p.
Proof.
  intros Hw Hh Hfit E. apply createRGB8_inv in E as (arr & E & ->).
  apply Array2d_new_tight in E as (-> & Hp & Halloc); try assumption.
  split; [reflexivity | split; [exact Halloc | exact Hp]].
Qed.

Lemma createRGBA8_tight (w h p : Z) (init : list Z) (m m1 : heap) (img : Image.t) :
  0 < w -> 0 < h -> w * h * sizeof RGBA8.t < 4294967296 ->
  Image.createRGBA8 w h p init m = Ok (img, m1) ->
  img = Image.mk (Image.HoldsRGBA8
          (Array2d.mk p (View2d.mk p w h (sizeof RGBA8.t) (w * sizeof RGBA8.t)))) /\
  allocated p (w * h * sizeof RGBA8.t) m1 /\ 0 < p.
Proof.
  intros Hw Hh Hfit E. apply createRGBA8_inv in E as (arr & E & ->).
  apply Array2d_new_tight in E as (-> & Hp & Halloc); try assumption.
  split; [reflexivity | split; [exact Halloc | exact Hp]].
Qed.

(** [getPixel] and [setPixel] on a tightly packed container of each colour
    format, as a load or store of element y * w + x. *)
Lemma getPixel_RGBA8_tight (p w h x y : Z) (m : heap) :
  0 <= x < w -> 0 <= y < h -> w * h * sizeof RGBA8.t < 4294967296 ->
  Image.getPixel (Image.mk (Image.HoldsRGBA8
     (Array2d.mk p (View2d.mk p w h (sizeof RGBA8.t) (w * sizeof RGBA8.t))))) x y m
  = (px ← load (p + (y * w + x) * sizeof RGBA8.t) m; Ok (RGBA8.toSColor px)).
Proof.
  intros Hx Hy Hfit. unfold Image.getPixel.
  cbn [Image.isRGBA8 Image.data_ Image.getAsRGBA8 Array2d.getView Array2d.view_
       mbind result_bind].
  rewrite at_tight by assumption. reflexivity.
Qed.

Lemma getPixel_RGB8_tight (p w h x y : Z) (m : heap) :
  0 <= x < w -> 0 <= y < h -> w * h * sizeof RGB8.t < 4294967296 ->
  Image.getPixel (Image.mk (Image.HoldsRGB8
     (Array2d.mk p (View2d.mk p w h (sizeof RGB8.t) (w * sizeof RGB8.t))))) x y m
  = (px ← load (p + (y * w + x) * sizeof RGB8.t) m; Ok (RGB8.toSColor px)).
Proof.
  intros Hx Hy Hfit. unfold Image.getPixel.
  cbn [Image.isRGBA8 Image.isRGB8 Image.data_ Image.getAsRGB8 Array2d.getView
       Array2d.view_ mbind result_bind].
  rewrite at_tight by assumption. reflexivity.
Qed.

Lemma setPixel_RGBA8_tight (p w h x y : Z) (c : SColor.t) (m : heap) :
  0 <= x < w -> 0 <= y < h -> w * h * sizeof RGBA8.t < 4294967296 ->
  Image.setPixel x y c (Image.mk (Image.HoldsRGBA8
     (Array2d.mk p (View2d.mk p w h (sizeof RGBA8.t) (w * sizeof RGBA8.t))))) m
  = (m' ← store (p + (y * w + x) * sizeof RGBA8.t) (RGBA8.fromSColor c) m;
     Ok (Image.mk (Image.HoldsRGBA8
       (Array2d.mk p (View2d.mk p w h (sizeof RGBA8.t) (w * sizeof RGBA8.t)))), m')).
Proof.
  intros Hx Hy Hfit. unfold Image.setPixel.
  cbn [Image.isRGBA8 Image.data_ Image.getAsRGBA8 Array2d.getView Array2d.view_
       mbind result_bind].
  rewrite at_tight by assumption. reflexivity.
Qed.

Lemma setPixel_RGB8_tight (p w h x y : Z) (c : SColor.t) (m : heap) :
  0 <= x < w -> 0 <= y < h -> w * h * sizeof RGB8.t < 4294967296 ->
  Image.setPixel x y c (Image.mk (Image.HoldsRGB8
     (Array2d.mk p (View2d.mk p w h (sizeof RGB8.t) (w * sizeof RGB8.t))))) m
  = (m' ← store (p + (y * w + x) * sizeof RGB8.t) (RGB8.fromSColor c) m;
     Ok (Image.mk (Image.HoldsRGB8
       (Array2d.mk p (View2d.mk p w h (sizeof RGB8.t) (w * sizeof RGB8.t)))), m')).
Proof.
  intros Hx Hy Hfit. unfold Image.setPixel.
  cbn [Image.isRGBA8 Image.isRGB8 Image.data_ Image.getAsRGB8 Array2d.getView
       Array2d.view_ mbind result_bind].
  rewrite at_tight by assumption. reflexivity.
Qed.

Lemma fill_RGB8_unfold (c : SColor.t) (p : Z) (view : View2d.t RGB8.t) (m : heap) :
  Image.fill c (Image.mk (Image.HoldsRGB8 (Array2d.mk p view))) m =
    (m' ← Image.fill_rows view (RGB8.fromSColor c) m;
     Ok (Image.mk (Image.HoldsRGB8 (Array2d.mk p view)), m')).
Proof. reflexivity. Qed.

Lemma RGB8_to_from_SColor (c : SColor.t) :
  RGB8.toSColor (RGB8.fromSColor c)
    = SColor.make 255 (SColor.getRed c) (SColor.getGreen c) (SColor.getBlue c).
Proof. reflexivity. Qed.

(** X10.  For every image made by [createRGB8(w, h)] with w, h > 0 whose
    byte size w * h * 3 is below 2^32, and every colour c, [fill(c)] returns,
    after it every element of the buffer is [RGB8::fromSColor(c)], memory
    outside the buffer is as before, and [getPixel(x, y)] returns, for all
    0 <= x < w and 0 <= y < h, the colour with alpha 255 and the red, green
    and blue of c. *)
Theorem fill_RGB8_getPixel (w h p : Z) (init : list Z) (m m1 : heap) (img : Image.t)
    (c : SColor.t) :
  0 < w -> 0 < h -> w * h * sizeof RGB8.t < 4294967296 ->
  Image.createRGB8 w h p init m = Ok (img, m1) ->
  exists m2, Image.fill c img m1 = Ok (img, m2) /\
    (forall i, 0 <= i < w * h ->
       load (p + i * sizeof RGB8.t) m2 = Ok (RGB8.fromSColor c)) /\
    (forall a, ~ (p <= a < p + w * h * sizeof RGB8.t) -> m2 !! a = m1 !! a) /\
    (forall x y, 0 <= x < w -> 0 <= y < h ->
       Image.getPixel img x y m2
         = Ok (SColor.make 255 (SColor.getRed c) (SColor.getGreen c) (SColor.getBlue c))).
Proof.
  intros Hw Hh Hfit E.
  apply createRGB8_tight in E as (-> & Halloc & _); try assumption.
  destruct (fill_rows_tight p w h (RGB8.fromSColor c) m1) as (m2 & Hfill & Hall & _ & Hout);
    try (assumption || lia).
  exists m2. split; [| split; [| split]].
  - rewrite fill_RGB8_unfold, Hfill. reflexivity.
  - exact Hall.
  - exact Hout.
  - intros x y Hx Hy. rewrite getPixel_RGB8_tight by assumption.
    rewrite Hall by (apply index_range; assumption). reflexivity.
Qed.

Lemma fill_RGB8_getPixel_witness :
  (0 < 10 /\ 10 * 10 * sizeof RGB8.t < 4294967296 /\
   Image.createRGB8 10 10 4096 (replicate 300 0) ∅ = Ok (sample_RGB8, sample_heap 300)) /\
  exists m2,
    Image.fill (SColor.make 7 1 2 3) sample_RGB8 (sample_heap 300) = Ok (sample_RGB8, m2) /\
    Image.getPixel sample_RGB8 9 9 m2
      = Ok (SColor.make 255 (SColor.getRed (SColor.make 7 1 2 3))
              (SColor.getGreen (SColor.make 7 1 2 3)) (SColor.getBlue (SColor.make 7 1 2 3))).
Proof.
  assert (H10 : 0 < 10) by lia.
  assert (Hfit : 10 * 10 * sizeof RGB8.t < 4294967296) by (simpl; lia).
  split; [exact (conj H10 (conj Hfit sample_RGB8_created)) |].
  destruct (fill_RGB8_getPixel 10 10 4096 (replicate 300 0) ∅ (sample_heap 300) sample_RGB8
              (SColor.make 7 1 2 3) H10 H10 Hfit sample_RGB8_created)
    as (m2 & Hfill & _ & _ & Hget).
  exists m2. split; [exact Hfill |]. apply Hget; lia.
Defined.

(** X11.  On an image made by [createRGBA8(w, h)] (w, h > 0, byte size
    below 2^32), in any memory where its buffer is allocated, [setPixel(x, y, c)]
    with 0 <= x < w and 0 <= y < h returns; then [getPixel(x, y)] returns c,
    [getPixel] at every other coordinate of the image returns what it
    returned before, and memory outside the buffer is as before. *)
Theorem setPixel_getPixel_RGBA8 (w h p : Z) (init : list Z) (m m1 : heap) (img : Image.t)
    (c : SColor.t) (x y : Z) (m' : heap) :
  0 < w -> 0 < h -> w * h * sizeof RGBA8.t < 4294967296 -> SColor.wf c ->
  Image.createRGBA8 w h p init m = Ok (img, m1) ->
  allocated p (w * h * sizeof RGBA8.t) m' ->
  0 <= x < w -> 0 <= y < h ->
  exists m2, Image.setPixel x y c img m' = Ok (img, m2) /\
    Image.getPixel img x y m2 = Ok c /\
    (forall x' y', 0 <= x' < w -> 0 <= y' < h -> ~ (x' = x /\ y' = y) ->
       Image.getPixel img x' y' m2 = Image.getPixel img x' y' m') /\
    (forall a, ~ (p <= a < p + w * h * sizeof RGBA8.t) -> m2 !! a = m' !! a) /\
    allocated p (w * h * sizeof RGBA8.t) m2.
Proof.
  intros Hw Hh Hfit Hc E Halloc Hx Hy.
  apply createRGBA8_tight in E as (-> & _); try assumption.
  destruct (store_element p (w * h) (y * w + x) (RGBA8.fromSColor c) m')
    as (m2 & Hst & Hld & Hoth & Hout & Halloc2);
    [apply index_range; assumption | exact Halloc |].
  exists m2. split; [| split; [| split; [| split]]].
  - rewrite setPixel_RGBA8_tight by assumption. rewrite Hst. reflexivity.
  - rewrite getPixel_RGBA8_tight by assumption. rewrite Hld.
    cbn [mbind result_bind]. rewrite RGBA8_to_from_SColor by exact Hc. reflexivity.
  - intros x' y' Hx' Hy' Hne. rewrite !getPixel_RGBA8_tight by assumption.
    rewrite Hoth by (apply index_inj; assumption). reflexivity.
  - exact Hout.
  - exact Halloc2.
Qed.

Lemma sample_heap_allocated (n : nat) : allocated 4096 (Z.of_nat n) (sample_heap n).
Proof.
  intros a Ha. unfold sample_heap. rewrite write_block_lookup, length_replicate.
  destruct (decide _) as [Hin | Hout]; [| lia].
  apply lookup_lt_is_Some. rewrite length_replicate. lia.
Qed.

Lemma setPixel_getPixel_RGBA8_witness :
  (0 < 10 /\ 10 * 10 * sizeof RGBA8.t < 4294967296 /\
   SColor.wf (SColor.make 255 0 255 0) /\
   Image.createRGBA8 10 10 4096 (replicate 400 0) ∅ = Ok (sample_RGBA8, sample_heap 400) /\
   allocated 4096 (10 * 10 * sizeof RGBA8.t) (sample_heap 400) /\ 0 <= 5 < 10) /\
  exists m2,
    Image.setPixel 5 5 (SColor.make 255 0 255 0) sample_RGBA8 (sample_heap 400)
      = Ok (sample_RGBA8, m2) /\
    Image.getPixel sample_RGBA8 5 5 m2 = Ok (SColor.make 255 0 255 0).
Proof.
  assert (H10 : 0 < 10) by lia.
  assert (Hfit : 10 * 10 * sizeof RGBA8.t < 4294967296) by (simpl; lia).
  assert (Hc : SColor.wf (SColor.make 255 0 255 0)).
  { unfold SColor.wf, SColor.make. simpl. apply u32_wrap_range. }
  assert (Ha : allocated 4096 (10 * 10 * sizeof RGBA8.t) (sample_heap 400))
    by exact (sample_heap_allocated 400).
  assert (H5 : 0 <= 5 < 10) by lia.
  split; [exact (conj H10 (conj Hfit (conj Hc (conj sample_RGBA8_created (conj Ha H5))))) |].
  destruct (setPixel_getPixel_RGBA8 10 10 4096 (replicate 400 0) ∅ (sample_heap 400)
              sample_RGBA8 (SColor.make 255 0 255 0) 5 5 (sample_heap 400)
              H10 H10 Hfit Hc sample_RGBA8_created Ha H5 H5)
    as (m2 & Hset & Hget & _).
  exists m2. split; assumption.
Defined.

(** X12.  On an image made by [createRGB8(w, h)] (w, h > 0, byte size below
    2^32), in any memory where its buffer is allocated, [setPixel(x, y, c)]
    with 0 <= x < w and 0 <= y < h returns; then [getPixel(x, y)] returns the
    colour with alpha 255 and the red, green and blue of c, [getPixel] at
    every other coordinate of the image returns what it returned before, and
    memory outside the buffer is as before. *)
Theorem setPixel_getPixel_RGB8 (w h p : Z) (init : list Z) (m m1 : heap) (img : Image.t)
    (c : SColor.t) (x y : Z) (m' : heap) :
  0 < w -> 0 < h -> w * h * sizeof RGB8.t < 4294967296 ->
  Image.createRGB8 w h p init m = Ok (img, m1) ->
  allocated p (w * h * sizeof RGB8.t) m' ->
  0 <= x < w -> 0 <= y < h ->
  exists m2, Image.setPixel x y c img m' = Ok (img, m2) /\
    Image.getPixel img x y m2
      = Ok (SColor.make 255 (SColor.getRed c) (SColor.getGreen c) (SColor.getBlue c)) /\
    (forall x' y', 0 <= x' < w -> 0 <= y' < h -> ~ (x' = x /\ y' = y) ->
       Image.getPixel img x' y' m2 = Image.getPixel img x' y' m') /\
    (forall a, ~ (p <= a < p + w * h * sizeof RGB8.t) -> m2 !! a = m' !! a) /\
    allocated p (w * h * sizeof RGB8.t) m2.
Proof.
  intros Hw Hh Hfit E Halloc Hx Hy.
  apply createRGB8_tight in E as (-> & _); try assumption.
  destruct (store_element p (w * h) (y * w + x) (RGB8.fromSColor c) m')
    as (m2 & Hst & Hld & Hoth & Hout & Halloc2);
    [apply index_range; assumption | exact Halloc |].
  exists m2. split; [| split; [| split; [| split]]].
  - rewrite setPixel_RGB8_tight by assumption. rewrite Hst. reflexivity.
  - rewrite getPixel_RGB8_tight by assumption. rewrite Hld. reflexivity.
  - intros x' y' Hx' Hy' Hne. rewrite !getPixel_RGB8_tight by assumption.
    rewrite Hoth by (apply index_inj; assumption). reflexivity.
  - exact Hout.
  - exact Halloc2.
Qed.

Lemma setPixel_getPixel_RGB8_witness :
  (0 < 10 /\ 10 * 10 * sizeof RGB8.t < 4294967296 /\
   Image.createRGB8 10 10 4096 (replicate 300 0) ∅ = Ok (sample_RGB8, sample_heap 300) /\
   allocated 4096 (10 * 10 * sizeof RGB8.t) (sample_heap 300) /\ 0 <= 5 < 10) /\
  exists m2,
    Image.setPixel 5 5 (SColor.make 9 0 255 0) sample_RGB8 (sample_heap 300)
      = Ok (sample_RGB8, m2) /\
    Image.getPixel sample_RGB8 5 5 m2
      = Ok (SColor.make 255 (SColor.getRed (SColor.make 9 0 255 0))
              (SColor.getGreen (SColor.make 9 0 255 0))
              (SColor.getBlue (SColor.make 9 0 255 0))).
Proof.
  assert (H10 : 0 < 10) by lia.
  assert (Hfit : 10 * 10 * sizeof RGB8.t < 4294967296) by (simpl; lia).
  assert (Ha : allocated 4096 (10 * 10 * sizeof RGB8.t) (sample_heap 300))
    by exact (sample_heap_allocated 300).
  assert (H5 : 0 <= 5 < 10) by lia.
  split; [exact (conj H10 (conj Hfit (conj sample_RGB8_created (conj Ha H5)))) |].
  destruct (setPixel_getPixel_RGB8 10 10 4096 (replicate 300 0) ∅ (sample_heap 300)
              sample_RGB8 (SColor.make 9 0 255 0) 5 5 (sample_heap 300)
              H10 H10 Hfit sample_RGB8_created Ha H5 H5)
    as (m2 & Hset & Hget & _).
  exists m2. split; assumption.
Defined.

(** X13.  On every container that holds a colour format ([RGBA8] or
    [RGB8]), [getPixel(x, y)] and [setPixel(x, y, c)] with x at or above the
    width or y at or above the height end in the assertion failure, whatever
    the memory holds; [setPixel] stores nothing then. *)
Theorem pixel_access_out_of_bounds (img : Image.t) (x y : Z) (c : SColor.t) (m : heap) :
  Image.isR8 img = false ->
  Image.getWidth img <= x \/ Image.getHeight img <= y ->
  Image.getPixel img x y m = Fault AssertionFailed /\
  Image.setPixel x y c img m = Fault AssertionFailed.
Proof.
  intros Hfmt Hout.
  assert (Hassert : forall (T : Type) (HT : Pixel T) (v : View2d.t T),
            View2d.width_ v <= x \/ View2d.height_ v <= y ->
            View2d.at_ v x y = Fault AssertionFailed).
  { intros T HT v Hv. unfold View2d.at_.
    replace ((x <? View2d.width_ v) && (y <? View2d.height_ v)) with false; [reflexivity |].
    symmetry. apply andb_false_iff.
    destruct Hv as [Hv | Hv]; [left | right]; apply Z.ltb_ge; exact Hv. }
  destruct img as [[arr | arr | arr]]; try discriminate Hfmt;
    unfold Image.getPixel, Image.setPixel;
    cbn [Image.isRGBA8 Image.isRGB8 Image.data_ Image.getAsRGBA8 Image.getAsRGB8
         mbind result_bind];
    unfold Array2d.getView; rewrite (Hassert _ _ _ Hout); split; reflexivity.
Qed.

Lemma pixel_access_out_of_bounds_witness :
  (Image.isR8 sample_RGBA8 = false /\
   (Image.getWidth sample_RGBA8 <= 10 \/ Image.getHeight sample_RGBA8 <= 0)) /\
  Image.getPixel sample_RGBA8 10 0 (sample_heap 400) = Fault AssertionFailed /\
  Image.setPixel 10 0 (SColor.make 255 0 0 0) sample_RGBA8 (sample_heap 400)
    = Fault AssertionFailed.
Proof.
  assert (Hf : Image.isR8 sample_RGBA8 = false) by reflexivity.
  assert (Ho : Image.getWidth sample_RGBA8 <= 10 \/ Image.getHeight sample_RGBA8 <= 0)
    by (left; change (10 <= 10); lia).
  split; [exact (conj Hf Ho) |].
  exact (pixel_access_out_of_bounds sample_RGBA8 10 0 (SColor.make 255 0 0 0)
           (sample_heap 400) Hf Ho).
Defined.

(** X14.  [fill] on a container of width 0 or height 0, of any format,
    returns with the container and the whole memory as they were: it stores
    nothing and cannot fault. *)
Theorem fill_empty_image (c : SColor.t) (img : Image.t) (m : heap) :
  Image.getWidth img = 0 \/ Image.getHeight img = 0 ->
  Image.fill c img m = Ok (img, m).
Proof.
  intros Hempty.
  assert (Hrows : forall (T : Type) (HT : Pixel T) (v : View2d.t T) (px : T),
            View2d.width_ v = 0 \/ View2d.height_ v = 0 ->
            Image.fill_rows v px m = Ok m).
  { intros T HT v px Hv. unfold Image.fill_rows, View2d.getHeight, View2d.getWidth.
    destruct Hv as [Hv | Hv].
    - destruct (Z_le_gt_dec 0 (View2d.height_ v)) as [Hh | Hh].
      + destruct (for_loop_inv (fun _ m' => m' = m)
                    (fun y m1 =>
                       row_ptr ← View2d.row v y;
                       for_loop (View2d.width_ v)
                         (fun x m2 => store (row_ptr + x * sizeof T) px m2) m1)
                    (View2d.height_ v) m Hh eq_refl) as (m' & Hm' & ->).
        * intros j s0 Hj ->. unfold View2d.row.
          rewrite assert_true by (apply Z.ltb_lt; lia).
          cbn [mbind result_bind]. rewrite Hv. exists m. split; reflexivity.
        * exact Hm'.
      + unfold for_loop. replace (Z.to_nat (View2d.height_ v)) with 0%nat by lia.
        reflexivity.
    - rewrite Hv. reflexivity. }
  destruct img as [[arr | arr | arr]]; unfold Image.fill;
    cbn [Image.isRGBA8 Image.isRGB8 Image.data_ Image.getAsRGBA8 Image.getAsRGB8
         mbind result_bind];
    try reflexivity; unfold Array2d.getView; rewrite (Hrows _ _ _ _ Hempty); reflexivity.
Qed.

Lemma fill_empty_image_witness :
  (Image.getWidth (Image.mk (Image.HoldsRGBA8 (Array2d.mk 4096 (View2d.mk 4096 0 7 4 0)))) = 0
   \/ Image.getHeight (Image.mk (Image.HoldsRGBA8 (Array2d.mk 4096 (View2d.mk 4096 0 7 4 0))))
      = 0) /\
  Image.fill (SColor.make 255 255 0 0)
    (Image.mk (Image.HoldsRGBA8 (Array2d.mk 4096 (View2d.mk 4096 0 7 4 0)))) ∅
  = Ok (Image.mk (Image.HoldsRGBA8 (Array2d.mk 4096 (View2d.mk 4096 0 7 4 0))), ∅).
Proof.
  assert (H : Image.getWidth
                (Image.mk (Image.HoldsRGBA8 (Array2d.mk 4096 (View2d.mk 4096 0 7 4 0)))) = 0
              \/ Image.getHeight
                (Image.mk (Image.HoldsRGBA8 (Array2d.mk 4096 (View2d.mk 4096 0 7 4 0)))) = 0)
    by (left; reflexivity).
  split; [exact H |].
  exact (fill_empty_image (SColor.make 255 255 0 0) _ ∅ H).
Defined.

(** ** Filling twice *)

Section FillBytes.
Context {T : Type} `{Pixel T}.

Lemma store_form (q : Z) (v : T) (m : heap) :
  allocated q (sizeof T) m ->
  exists m', store q v m = Ok m' /\
    forall a, m' !! a =
      if decide (q <= a < q + sizeof T) then to_bytes v !! Z.to_nat (a - q) else m !! a.
Proof.
  intros Halloc. pose proof (to_bytes_length v) as Hlen.
  destruct (store_bytes_Some (to_bytes v) q m) as (m' & Hst & Hlook).
  { intros a Ha. apply Halloc. lia. }
  exists m'. unfold store. rewrite Hst. split; [reflexivity |].
  intros a. rewrite Hlook, Hlen. reflexivity.
Qed.

Lemma overwritten_allocated (p n : Z) (v : T) (m : heap) (k : Z) (m' : heap) :
  0 <= k -> allocated p (n * sizeof T) m -> overwritten p v m k m' ->
  forall a, p + k * sizeof T <= a < p + n * sizeof T -> is_Some (m' !! a).
Proof.
  intros Hk Halloc Hov a Ha. pose proof sizeof_range as Hsz. rewrite Hov.
  destruct (decide _) as [Hin | Hout]; [lia |]. apply Halloc. nia.
Qed.

Lemma overwritten_store (p n : Z) (v : T) (m : heap) (k : Z) (m0 : heap) :
  0 <= k < n -> allocated p (n * sizeof T) m -> overwritten p v m k m0 ->
  exists m1, store (p + k * sizeof T) v m0 = Ok m1 /\ overwritten p v m (k + 1) m1.
Proof.
  intros Hk Halloc Hov. pose proof sizeof_range as Hsz.
  destruct (store_form (p + k * sizeof T) v m0) as (m1 & Hst & Hform).
  { intros a Ha. apply (overwritten_allocated p n v m k m0); try (assumption || lia). nia. }
  exists m1. split; [exact Hst |].
  assert (Hks : 0 <= k * sizeof T) by nia.
  intros a. rewrite Hform.
  destruct (decide (p + k * sizeof T <= a < p + k * sizeof T + sizeof T)) as [Hin | Hout].
  - destruct (decide (p <= a < p + (k + 1) * sizeof T)) as [Hin' | Hout']; [| lia].
    f_equal. f_equal.
    replace (a - p) with ((a - (p + k * sizeof T)) + k * sizeof T) by ring.
    rewrite Z.mod_add by lia. symmetry. apply Z.mod_small. lia.
  - rewrite Hov.
    destruct (decide (p <= a < p + k * sizeof T)) as [Hin1 | Hout1];
      destruct (decide (p <= a < p + (k + 1) * sizeof T)) as [Hin2 | Hout2];
      try reflexivity; lia.
Qed.

Lemma fill_rows_tight_bytes (p w h : Z) (v : T) (m : heap) :
  0 <= w -> 0 <= h -> w * h * sizeof T < 4294967296 ->
  allocated p ((w * h) * sizeof T) m ->
  exists m', Image.fill_rows (View2d.mk p w h (sizeof T) (w * sizeof T)) v m = Ok m' /\
             overwritten p v m (w * h) m'.
Proof.
  intros Hw Hh Hfit Halloc. pose proof sizeof_range as Hsz.
  unfold Image.fill_rows, View2d.getHeight, View2d.getWidth.
  cbn [View2d.height_ View2d.width_].
  destruct (for_loop_inv (fun y m' => overwritten p v m (y * w) m')
              (fun y m1 =>
                 row_ptr ← View2d.row (View2d.mk (T := T) p w h (sizeof T) (w * sizeof T)) y;
                 for_loop w (fun x m2 => store (row_ptr + x * sizeof T) v m2) m1)
              h m Hh) as (m' & Hm' & HI).
  - intros a. destruct (decide _) as [Hin | Hout]; [lia | reflexivity].
  - intros y m0 Hy Hinv.
    unfold View2d.row. cbn [View2d.height_ View2d.data_ View2d.y_stride_].
    rewrite assert_true by (apply Z.ltb_lt; lia). cbn [mbind result_bind].
    assert (Hrow : u32_wrap (y * (w * sizeof T)) = (y * w) * sizeof T).
    { rewrite u32_wrap_id by (unfold is_u32; nia). ring. }
    rewrite Hrow.
    destruct (for_loop_inv (fun x m' => overwritten p v m (y * w + x) m')
                (fun x m2 => store (p + y * w * sizeof T + x * sizeof T) v m2)
                w m0 Hw) as (m1 & Hm1 & HI1).
    + rewrite Z.add_0_r. exact Hinv.
    + intros x m2 Hx Hinv2.
      replace (p + y * w * sizeof T + x * sizeof T)
        with (p + (y * w + x) * sizeof T) by ring.
      replace (y * w + (x + 1)) with (y * w + x + 1) by ring.
      apply (overwritten_store p (w * h)); [nia | exact Halloc | exact Hinv2].
    + exists m1. split; [exact Hm1 |].
      replace ((y + 1) * w) with (y * w + w) by ring. exact HI1.
  - exists m'. split; [exact Hm' |].
    replace (h * w) with (w * h) in HI by ring. exact HI.
Qed.

(** The second of two fills decides the memory. *)
Lemma fill_rows_twice (p w h : Z) (v1 v2 : T) (m : heap) :
  0 <= w -> 0 <= h -> w * h * sizeof T < 4294967296 ->
  allocated p ((w * h) * sizeof T) m ->
  exists m2 m3,
    Image.fill_rows (View2d.mk p w h (sizeof T) (w * sizeof T)) v1 m = Ok m2 /\
    Image.fill_rows (View2d.mk p w h (sizeof T) (w * sizeof T)) v2 m2 = Ok m3 /\
    Image.fill_rows (View2d.mk p w h (sizeof T) (w * sizeof T)) v2 m = Ok m3.
Proof.
  intros Hw Hh Hfit Halloc.
  destruct (fill_rows_tight_bytes p w h v1 m Hw Hh Hfit Halloc) as (m2 & H1 & Ho1).
  assert (Halloc2 : allocated p ((w * h) * sizeof T) m2).
  { intros a Ha. rewrite Ho1. destruct (decide _) as [Hin | Hout]; [| lia].
    apply lookup_lt_is_Some. pose proof (to_bytes_length v1). pose proof sizeof_range.
    assert (0 <= (a - p) mod sizeof T < sizeof T) by (apply Z.mod_pos_bound; lia). lia. }
  destruct (fill_rows_tight_bytes p w h v2 m2 Hw Hh Hfit Halloc2) as (m3 & H2 & Ho2).
  destruct (fill_rows_tight_bytes p w h v2 m Hw Hh Hfit Halloc) as (m3' & H3 & Ho3).
  exists m2, m3. split; [exact H1 |]. split; [exact H2 |].
  rewrite H3. f_equal. apply map_eq. intros a.
  rewrite Ho3, Ho2, Ho1.
  destruct (decide _) as [Hin | Hout]; reflexivity.
Qed.

End FillBytes.

(** X15.  On an image made by [createRGBA8(w, h)] or [createRGB8(w, h)]
    (w, h > 0, byte size below 2^32), in any memory where its buffer is
    allocated, the second of two [fill]s decides the memory: [fill(c2)] after
    [fill(c1)] leaves exactly the memory [fill(c2)] alone leaves.  With
    c1 = c2: filling twice with one colour is filling once. *)
Theorem fill_twice :
  (forall (w h p : Z) (init : list Z) (m m1 : heap) (img : Image.t) (c1 c2 : SColor.t)
          (m' : heap),
     0 < w -> 0 < h -> w * h * sizeof RGBA8.t < 4294967296 ->
     Image.createRGBA8 w h p init m = Ok (img, m1) ->
     allocated p (w * h * sizeof RGBA8.t) m' ->
     exists m2 m3, Image.fill c1 img m' = Ok (img, m2) /\
       Image.fill c2 img m2 = Ok (img, m3) /\ Image.fill c2 img m' = Ok (img, m3)) /\
  (forall (w h p : Z) (init : list Z) (m m1 : heap) (img : Image.t) (c1 c2 : SColor.t)
          (m' : heap),
     0 < w -> 0 < h -> w * h * sizeof RGB8.t < 4294967296 ->
     Image.createRGB8 w h p init m = Ok (img, m1) ->
     allocated p (w * h * sizeof RGB8.t) m' ->
     exists m2 m3, Image.fill c1 img m' = Ok (img, m2) /\
       Image.fill c2 img m2 = Ok (img, m3) /\ Image.fill c2 img m' = Ok (img, m3)).
Proof.
  split.
  - intros w h p init m m1 img c1 c2 m' Hw Hh Hfit E Halloc.
    apply createRGBA8_tight in E as (-> & _); try assumption.
    destruct (fill_rows_twice p w h (RGBA8.fromSColor c1) (RGBA8.fromSColor c2) m')
      as (m2 & m3 & H1 & H2 & H3); try (assumption || lia).
    exists m2, m3. rewrite !fill_RGBA8_unfold, H1, H2, H3. auto.
  - intros w h p init m m1 img c1 c2 m' Hw Hh Hfit E Halloc.
    apply createRGB8_tight in E as (-> & _); try assumption.
    destruct (fill_rows_twice p w h (RGB8.fromSColor c1) (RGB8.fromSColor c2) m')
      as (m2 & m3 & H1 & H2 & H3); try (assumption || lia).
    exists m2, m3. rewrite !fill_RGB8_unfold, H1, H2, H3. auto.
Qed.

Lemma fill_twice_witness :
  (Image.createRGBA8 10 10 4096 (replicate 400 0) ∅ = Ok (sample_RGBA8, sample_heap 400) /\
   allocated 4096 (10 * 10 * sizeof RGBA8.t) (sample_heap 400)) /\
  exists m2 m3,
    Image.fill (SColor.make 255 255 0 0) sample_RGBA8 (sample_heap 400)
      = Ok (sample_RGBA8, m2) /\
    Image.fill (SColor.make 255 0 0 255) sample_RGBA8 m2 = Ok (sample_RGBA8, m3) /\
    Image.fill (SColor.make 255 0 0 255) sample_RGBA8 (sample_heap 400)
      = Ok (sample_RGBA8, m3).
Proof.
  assert (Ha : allocated 4096 (10 * 10 * sizeof RGBA8.t) (sample_heap 400))
    by exact (sample_heap_allocated 400).
  split; [exact (conj sample_RGBA8_created Ha) |].
  apply (proj1 fill_twice 10 10 4096 (replicate 400 0) ∅ (sample_heap 400) sample_RGBA8
           (SColor.make 255 255 0 0) (SColor.make 255 0 0 255) (sample_heap 400));
    try (simpl; lia); [exact sample_RGBA8_created | exact Ha].
Defined.

(** ** Filling a region *)

(** An element of a packed w-by-h block that shares a byte with the region
    of rows [y .. y + rh) and columns [x .. x + rw) lies in the region. *)
Lemma element_in_region (p W sz x y rw rh i j a : Z) :
  0 < sz -> 0 <= i < W -> 0 <= x -> 0 <= rw -> x + rw <= W -> 0 <= y ->
  p + (j * W + i) * sz <= a < p + (j * W + i) * sz + sz ->
  in_rows (p + y * (W * sz) + x * sz) rw rh (W * sz) sz a ->
  (x <= i < x + rw) /\ (y <= j < y + rh).
Proof.
  intros Hsz Hi Hx Hrw Hxw Hy Ha (y' & Hy' & Hrow).
  assert (HR : j = y + y').
  { destruct (Z.lt_trichotomy j (y + y')) as [Hlt | [Heq | Hgt]]; [| exact Heq |].
    - exfalso.
      assert (H1 : (j * W + i + 1) * sz <= ((y + y') * W) * sz).
      { apply Z.mul_le_mono_nonneg_r; [lia | nia]. }
      nia.
    - exfalso.
      assert (H1 : ((y + y') * W + (x + rw)) * sz <= (j * W) * sz).
      { apply Z.mul_le_mono_nonneg_r; [lia | nia]. }
      nia. }
  subst j. split; [| lia].
  assert (H1 : (x * sz < (i + 1) * sz)) by nia.
  assert (H2 : (i * sz < (x + rw) * sz)) by nia.
  split.
  - apply Z.mul_lt_mono_pos_r in H1; lia.
  - apply Z.mul_lt_mono_pos_r in H2; lia.
Qed.

(** X16.  On an image made by [createRGBA8(W, H)] (W, H > 0, byte size below
    2^32), in any memory where its buffer is allocated,
    [fill_region(img, x, y, w, h, c)] with x + w <= W and y + h <= H returns
    with the container as it was; then [getPixel] returns c at every
    coordinate of the region (x <= i < x + w, y <= j < y + h), returns what it
    returned before at every other coordinate of the image, and memory
    outside the buffer is as before. *)
Theorem fill_region_spec (W H p : Z) (init : list Z) (m m1 : heap) (img : Image.t)
    (c : SColor.t) (x y w h : Z) (m' : heap) :
  0 < W -> 0 < H -> W * H * sizeof RGBA8.t < 4294967296 -> SColor.wf c ->
  Image.createRGBA8 W H p init m = Ok (img, m1) ->
  allocated p (W * H * sizeof RGBA8.t) m' ->
  0 <= x -> 0 <= w -> x + w <= W -> 0 <= y -> 0 <= h -> y + h <= H ->
  exists m2, Usage.fill_region img x y w h c m' = Ok (img, m2) /\
    (forall i j, x <= i < x + w -> y <= j < y + h -> Image.getPixel img i j m2 = Ok c) /\
    (forall i j, 0 <= i < W -> 0 <= j < H -> ~ (x <= i < x + w /\ y <= j < y + h) ->
       Image.getPixel img i j m2 = Image.getPixel img i j m') /\
    (forall a, ~ (p <= a < p + W * H * sizeof RGBA8.t) -> m2 !! a = m' !! a).
Proof.
  intros HW HH Hfit Hc E Halloc Hx Hw Hxw Hy Hh Hyh.
  apply createRGBA8_tight in E as (-> & _ & Hp); try assumption.
  set (V := View2d.mk (T := RGBA8.t) p W H (sizeof RGBA8.t) (W * sizeof RGBA8.t)).
  assert (HwfV : View2d.wf V).
  { unfold V, View2d.wf, is_u32. cbn [View2d.data_ View2d.width_ View2d.height_
      View2d.x_stride_ View2d.y_stride_]. change (sizeof RGBA8.t) with 4 in *.
    repeat split; nia. }
  change (sizeof RGBA8.t) with 4 in *.
  assert (Hregion :
    (d ← View2d.drop V x y; View2d.take d w h)
    = Ok (View2d.mk (p + y * (W * 4) + x * 4) w h 4 (W * 4))).
  { rewrite (drop_Ok V x y) by (assumption || (unfold V; simpl; lia)).
    cbn [mbind result_bind].
    pose proof (drop_wf_mk V x y HwfV) as HwfD.
    rewrite take_Ok by (try apply HwfD; unfold V; simpl; lia).
    unfold V. cbn [View2d.data_ View2d.width_ View2d.height_ View2d.y_stride_].
    change (sizeof RGBA8.t) with 4.
    assert (Hpos : (0 <? W * 4) = true) by (apply Z.ltb_lt; lia).
    repeat (rewrite Hpos; cbv iota).
    rewrite !u32_wrap_id by (unfold is_u32; nia). reflexivity. }
  destruct (fill_rows_strided (T := RGBA8.t) (p + y * (W * 4) + x * 4) w h (W * 4)
              (RGBA8.fromSColor c) m') as (m2 & Hfill & Hin & _ & Hout);
    try (change (sizeof RGBA8.t) with 4; (assumption || nia)).
  { change (sizeof RGBA8.t) with 4. intros a (y' & Hy' & Ha). apply Halloc.
    assert ((y + y' + 1) * (W * 4) <= H * (W * 4))
      by (apply Z.mul_le_mono_nonneg_r; lia).
    nia. }
  change (sizeof RGBA8.t) with 4 in *.
  exists m2. split; [| split; [| split]].
  - unfold Usage.fill_region.
    cbn [Image.getAsRGBA8 Image.data_ Array2d.getView Array2d.view_ mbind result_bind].
    fold V.
    destruct (View2d.drop V x y) as [d | f] eqn:Hd; [| discriminate Hregion].
    cbn [mbind result_bind] in Hregion |- *. rewrite Hregion.
    cbn [mbind result_bind]. rewrite Hfill. reflexivity.
  - intros i j Hi Hj.
    rewrite (getPixel_RGBA8_tight p W H i j) by (assumption || lia).
    change (sizeof RGBA8.t) with 4.
    replace (p + (j * W + i) * 4)
      with (p + y * (W * 4) + x * 4 + (j - y) * (W * 4) + (i - x) * 4) by ring.
    rewrite Hin by lia. cbn [mbind result_bind].
    rewrite RGBA8_to_from_SColor by exact Hc. reflexivity.
  - intros i j Hi Hj Hne.
    rewrite !(getPixel_RGBA8_tight p W H i j) by (assumption || lia).
    change (sizeof RGBA8.t) with 4.
    rewrite (load_frame (T := RGBA8.t) (p + (j * W + i) * 4) m' m2); [reflexivity |].
    intros a Ha. change (sizeof RGBA8.t) with 4 in Ha. apply Hout.
    intros Hrows. apply Hne.
    apply (element_in_region p W 4 x y w h i j a); (assumption || lia).
  - intros a Ha. apply Hout. intros (y' & Hy' & Hrow). apply Ha.
    assert ((y + y' + 1) * (W * 4) <= H * (W * 4))
      by (apply Z.mul_le_mono_nonneg_r; lia).
    nia.
Qed.

Lemma fill_region_spec_witness :
  (0 < 10 /\ 10 * 10 * sizeof RGBA8.t < 4294967296 /\
   SColor.wf (SColor.make 255 255 0 0) /\
   Image.createRGBA8 10 10 4096 (replicate 400 0) ∅ = Ok (sample_RGBA8, sample_heap 400) /\
   allocated 4096 (10 * 10 * sizeof RGBA8.t) (sample_heap 400) /\
   2 + 3 <= 10 /\ 4 + 5 <= 10) /\
  exists m2,
    Usage.fill_region sample_RGBA8 2 4 3 5 (SColor.make 255 255 0 0) (sample_heap 400)
      = Ok (sample_RGBA8, m2) /\
    Image.getPixel sample_RGBA8 4 8 m2 = Ok (SColor.make 255 255 0 0) /\
    Image.getPixel sample_RGBA8 5 8 m2 = Image.getPixel sample_RGBA8 5 8 (sample_heap 400).
Proof.
  assert (H10 : 0 < 10) by lia.
  assert (Hfit : 10 * 10 * sizeof RGBA8.t < 4294967296) by (simpl; lia).
  assert (Hc : SColor.wf (SColor.make 255 255 0 0)).
  { unfold SColor.wf, SColor.make. simpl. apply u32_wrap_range. }
  assert (Ha : allocated 4096 (10 * 10 * sizeof RGBA8.t) (sample_heap 400))
    by exact (sample_heap_allocated 400).
  assert (Hx : 2 + 3 <= 10) by lia.
  assert (Hy : 4 + 5 <= 10) by lia.
  split; [exact (conj H10 (conj Hfit (conj Hc (conj sample_RGBA8_created
                   (conj Ha (conj Hx Hy)))))) |].
  destruct (fill_region_spec 10 10 4096 (replicate 400 0) ∅ (sample_heap 400) sample_RGBA8
              (SColor.make 255 255 0 0) 2 4 3 5 (sample_heap 400)
              H10 H10 Hfit Hc sample_RGBA8_created Ha)
    as (m2 & Hfill & Hin & Hout & _); try lia.
  exists m2. split; [exact Hfill |]. split; [apply Hin; lia | apply Hout; lia].
Defined.

Section Rejects.
Context {T : Type} `{Pixel T}.

(** [drop(x, y)] then [take(w, h)] outside the view: one of the two
    assertions fails, whatever follows. *)
Lemma drop_take_rejects {B : Type} (v : View2d.t T) (x y w h : Z)
    (k : View2d.t T -> result B) :
  View2d.wf v -> is_u32 x -> is_u32 y -> is_u32 w -> is_u32 h ->
  ~ (x <= View2d.width_ v /\ y <= View2d.height_ v /\
     w <= View2d.width_ v - x /\ h <= View2d.height_ v - y) ->
  (d ← View2d.drop v x y; region ← View2d.take d w h; k region) = Fault AssertionFailed.
Proof.
  intros Hwf Hx Hy Hw Hh Hno. unfold is_u32 in *.
  destruct (Z_le_gt_dec x (View2d.width_ v)) as [Hxw | Hxw];
    [destruct (Z_le_gt_dec y (View2d.height_ v)) as [Hyh | Hyh] |].
  - rewrite drop_Ok by (assumption || lia). cbn [mbind result_bind].
    unfold View2d.take. cbn [View2d.width_ View2d.height_].
    replace ((w <=? View2d.width_ v - x) && (h <=? View2d.height_ v - y)) with false;
      [reflexivity |].
    symmetry. apply andb_false_iff.
    destruct (Z_le_gt_dec w (View2d.width_ v - x));
      [right; apply Z.leb_gt; lia | left; apply Z.leb_gt; lia].
  - unfold View2d.drop.
    replace (y <=? View2d.height_ v) with false by (symmetry; apply Z.leb_gt; lia).
    rewrite andb_false_r. reflexivity.
  - unfold View2d.drop.
    replace (x <=? View2d.width_ v) with false by (symmetry; apply Z.leb_gt; lia).
    reflexivity.
Qed.

End Rejects.

(** X17.  [fill_region] on a container whose live format is not [RGBA8]
    ends in the type-mismatch fault.  On an image made by [createRGBA8(W, H)],
    [fill_region(img, x, y, w, h, c)] with x > W, y > H, w > W - x or
    h > H - y ends in the assertion failure: no pixel is written through a
    region that leaves the image. *)
Theorem fill_region_rejects (img : Image.t) (x y w h : Z) (c : SColor.t) (m : heap) :
  (Image.isRGBA8 img = false ->
   Usage.fill_region img x y w h c m = Fault BadVariantAccess) /\
  (forall W H p init m0 m1,
     is_u32 W -> is_u32 H ->
     Image.createRGBA8 W H p init m0 = Ok (img, m1) ->
     is_u32 x -> is_u32 y -> is_u32 w -> is_u32 h ->
     ~ (x <= W /\ y <= H /\ w <= W - x /\ h <= H - y) ->
     Usage.fill_region img x y w h c m = Fault AssertionFailed).
Proof.
  split.
  - intros Hfmt. destruct img as [[arr | arr | arr]]; try discriminate Hfmt; reflexivity.
  - intros W H p init m0 m1 HW HH E Hx Hy Hw Hh Hno.
    apply createRGBA8_inv in E as (arr & E & ->).
    pose proof E as E0. apply Array2d_new_inv in E0 as (Ealloc & view & Ev & ->).
    apply operator_new_inv in Ealloc as (Hp & _).
    assert (Hwf : View2d.wf view).
    { apply (new_wf p W H 0); try assumption; [lia | unfold is_u32; lia]. }
    apply View2d_new_inv in Ev as (_ & Hview).
    unfold Usage.fill_region.
    cbn [Image.getAsRGBA8 Image.data_ Array2d.getView Array2d.view_ mbind result_bind].
    apply drop_take_rejects; try assumption.
    rewrite Hview. exact Hno.
Qed.

Lemma fill_region_rejects_witness :
  (Image.isRGBA8 sample_RGB8 = false /\
   Image.createRGBA8 10 10 4096 (replicate 400 0) ∅ = Ok (sample_RGBA8, sample_heap 400) /\
   ~ (8 <= 10 /\ 0 <= 10 /\ 3 <= 10 - 8 /\ 1 <= 10 - 0)) /\
  Usage.fill_region sample_RGB8 0 0 1 1 (SColor.make 255 255 0 0) (sample_heap 300)
    = Fault BadVariantAccess /\
  Usage.fill_region sample_RGBA8 8 0 3 1 (SColor.make 255 255 0 0) (sample_heap 400)
    = Fault AssertionFailed.
Proof.
  assert (Hf : Image.isRGBA8 sample_RGB8 = false) by reflexivity.
  assert (Hno : ~ (8 <= 10 /\ 0 <= 10 /\ 3 <= 10 - 8 /\ 1 <= 10 - 0)) by lia.
  split; [exact (conj Hf (conj sample_RGBA8_created Hno)) |].
  split.
  - exact (proj1 (fill_region_rejects sample_RGB8 0 0 1 1 (SColor.make 255 255 0 0)
                    (sample_heap 300)) Hf).
  - assert (Hu : forall z, 0 <= z <= 10 -> is_u32 z) by (intros z Hz; unfold is_u32; lia).
    exact (proj2 (fill_region_rejects sample_RGBA8 8 0 3 1 (SColor.make 255 255 0 0)
                    (sample_heap 400)) 10 10 4096 (replicate 400 0) ∅ (sample_heap 400)
             (Hu 10 ltac:(lia)) (Hu 10 ltac:(lia)) sample_RGBA8_created
             (Hu 8 ltac:(lia)) (Hu 0 ltac:(lia)) (Hu 3 ltac:(lia)) (Hu 1 ltac:(lia)) Hno).
Defined.

(** ** A rule for loops over the elements of a view *)

Lemma for_loop_from_ext {S : Type} (body1 body2 : Z -> S -> result S) (fuel : nat)
    (i : Z) (s : S) :
  (forall j s0, i <= j < i + Z.of_nat fuel -> body1 j s0 = body2 j s0) ->
  for_loop_from fuel i body1 s = for_loop_from fuel i body2 s.
Proof.
  revert i s. induction fuel as [| fuel IH]; intros i s Hext; simpl; [reflexivity |].
  rewrite Hext by lia. destruct (body2 i s) as [s1 | f]; simpl; [| reflexivity].
  apply IH. intros j s0 Hj. apply Hext. lia.
Qed.

Lemma for_loop_ext {S : Type} (body1 body2 : Z -> S -> result S) (n : Z) (s : S) :
  (forall j s0, 0 <= j < n -> body1 j s0 = body2 j s0) ->
  for_loop n body1 s = for_loop n body2 s.
Proof.
  intros Hext. unfold for_loop. apply for_loop_from_ext.
  intros j s0 Hj. apply Hext. lia.
Qed.

Section Foreach.
Variables (w h sz : Z) (elem : Z -> Z -> Z).
Variables (m : heap) (body : Z -> Z -> heap -> result heap) (R : Z -> Z -> heap -> Prop).

Hypothesis Hw : 0 <= w.
Hypothesis Hh : 0 <= h.

Hypothesis Hdisj : forall x y x' y',
  0 <= x < w -> 0 <= y < h -> 0 <= x' < w -> 0 <= y' < h -> ~ (x' = x /\ y' = y) ->
  elem x y + sz <= elem x' y' \/ elem x' y' + sz <= elem x y.

Hypothesis Hbody : forall x y m0,
  0 <= x < w -> 0 <= y < h ->
  untouched w h sz elem m (fun x' y' => y' < y \/ (y' = y /\ x' < x)) m0 ->
  (forall a, is_Some (m0 !! a) <-> is_Some (m !! a)) ->
  exists m1, body x y m0 = Ok m1 /\ R x y m1 /\
    (forall a, ~ (elem x y <= a < elem x y + sz) -> m1 !! a = m0 !! a) /\
    (forall a, is_Some (m1 !! a) <-> is_Some (m0 !! a)).

Hypothesis Hstable : forall x y m1 m2,
  0 <= x < w -> 0 <= y < h -> R x y m1 ->
  (forall a, elem x y <= a < elem x y + sz -> m2 !! a = m1 !! a) -> R x y m2.

(** The body run for every element in row-major order: every element ends
    in the state its own run of the body left it in, and the bytes outside
    all elements are untouched. *)
Lemma foreach_element :
  exists m', for_loop h (fun y m1 => for_loop w (fun x m2 => body x y m2) m1) m = Ok m' /\
    (forall x y, 0 <= x < w -> 0 <= y < h -> R x y m') /\
    untouched w h sz elem m (fun _ _ => True) m' /\
    (forall a, is_Some (m' !! a) <-> is_Some (m !! a)).
Proof.
  set (J := fun (Y X : Z) (m0 : heap) =>
         (forall x y, 0 <= x < w -> 0 <= y < h -> (y < Y \/ (y = Y /\ x < X)) -> R x y m0) /\
         untouched w h sz elem m (fun x y => y < Y \/ (y = Y /\ x < X)) m0 /\
         (forall a, is_Some (m0 !! a) <-> is_Some (m !! a))).
  destruct (for_loop_inv (fun Y m0 => J Y 0 m0)
              (fun y m1 => for_loop w (fun x m2 => body x y m2) m1) h m Hh)
    as (m' & Hm' & (HR & HU & HD)).
  - split; [| split].
    + intros x y Hx Hy Hlt. lia.
    + intros a _. reflexivity.
    + intros a. reflexivity.
  - intros Y m0 HY HJ.
    destruct (for_loop_inv (fun X m1 => J Y X m1) (fun x m2 => body x Y m2) w m0 Hw HJ)
      as (m1 & Hm1 & (HR1 & HU1 & HD1)).
    + intros X m2 HX (HR2 & HU2 & HD2).
      destruct (Hbody X Y m2 HX HY HU2 HD2) as (m3 & Hb & HRb & Hfr & Hdom).
      exists m3. split; [exact Hb |]. split; [| split].
      * intros x y Hx Hy Hwr.
        destruct (decide (x = X /\ y = Y)) as [[-> ->] | Hne]; [exact HRb |].
        apply (Hstable x y m2 m3 Hx Hy); [apply HR2; (assumption || lia) |].
        intros a Ha. apply Hfr.
        destruct (Hdisj X Y x y HX HY Hx Hy Hne); lia.
      * intros a Ha. rewrite Hfr by (apply Ha; (assumption || lia)).
        apply HU2. intros x y Hx Hy Hwr. apply Ha; (assumption || lia).
      * intros a. rewrite Hdom. apply HD2.
    + exists m1. split; [exact Hm1 |]. split; [| split].
      * intros x y Hx Hy Hwr. apply HR1; (assumption || lia).
      * intros a Ha. apply HU1. intros x y Hx Hy Hwr. apply Ha; (assumption || lia).
      * exact HD1.
  - exists m'. split; [exact Hm' |]. split; [| split].
    + intros x y Hx Hy. apply HR; (assumption || lia).
    + intros a Ha. apply HU. intros x y Hx Hy _. apply Ha; (assumption || exact I).
    + exact HD.
Qed.

End Foreach.

(** Elements of rows that do not overlap are disjoint. *)
Lemma strided_disjoint (d w h ys sz x y x' y' : Z) :
  0 < sz -> w * sz <= ys ->
  0 <= x < w -> 0 <= y < h -> 0 <= x' < w -> 0 <= y' < h -> ~ (x' = x /\ y' = y) ->
  d + y * ys + x * sz + sz <= d + y' * ys + x' * sz \/
  d + y' * ys + x' * sz + sz <= d + y * ys + x * sz.
Proof.
  intros Hsz Hinv Hx Hy Hx' Hy' Hne.
  assert (Hrow : x * sz + sz <= ys /\ x' * sz + sz <= ys) by nia.
  destruct (Z.lt_trichotomy y y') as [Hlt | [Heq | Hgt]].
  - left. assert ((y + 1) * ys <= y' * ys) by nia. nia.
  - subst y'. assert (x <> x') by (intros ->; apply Hne; auto).
    destruct (Z.lt_trichotomy x x') as [Hltx | [Heqx | Hgtx]]; [left | contradiction | right];
      nia.
  - right. assert ((y' + 1) * ys <= y * ys) by nia. nia.
Qed.

(** ** Pixels as bytes *)

Lemma load_RGBA8_iff (q : Z) (m : heap) (px : RGBA8.t) :
  load q m = Ok px <->
  m !! q = Some (RGBA8.r px) /\ m !! (q + 1) = Some (RGBA8.g px) /\
  m !! (q + 2) = Some (RGBA8.b px) /\ m !! (q + 3) = Some (RGBA8.a px).
Proof.
  unfold load. change (Z.to_nat (sizeof RGBA8.t)) with 4%nat.
  cbn [load_bytes].
  replace (q + 1 + 1) with (q + 2) by ring. replace (q + 2 + 1) with (q + 3) by ring.
  destruct px as [r g b a]. cbn [RGBA8.r RGBA8.g RGBA8.b RGBA8.a].
  destruct (m !! q) as [b0 |]; [| split; [discriminate | intros (E & _); discriminate]].
  destruct (m !! (q + 1)) as [b1 |];
    [| split; [discriminate | intros (_ & E & _); discriminate]].
  destruct (m !! (q + 2)) as [b2 |];
    [| split; [discriminate | intros (_ & _ & E & _); discriminate]].
  destruct (m !! (q + 3)) as [b3 |];
    [| split; [discriminate | intros (_ & _ & _ & E); discriminate]].
  cbn. split.
  - intros E. injection E as -> -> -> ->. auto.
  - intros (E0 & E1 & E2 & E3). injection E0 as ->. injection E1 as ->.
    injection E2 as ->. injection E3 as ->. reflexivity.
Qed.

Lemma load_RGB8_iff (q : Z) (m : heap) (px : RGB8.t) :
  load q m = Ok px <->
  m !! q = Some (RGB8.r px) /\ m !! (q + 1) = Some (RGB8.g px) /\
  m !! (q + 2) = Some (RGB8.b px).
Proof.
  unfold load. change (Z.to_nat (sizeof RGB8.t)) with 3%nat.
  cbn [load_bytes].
  replace (q + 1 + 1) with (q + 2) by ring.
  destruct px as [r g b]. cbn [RGB8.r RGB8.g RGB8.b].
  destruct (m !! q) as [b0 |]; [| split; [discriminate | intros (E & _); discriminate]].
  destruct (m !! (q + 1)) as [b1 |];
    [| split; [discriminate | intros (_ & E & _); discriminate]].
  destruct (m !! (q + 2)) as [b2 |];
    [| split; [discriminate | intros (_ & _ & E); discriminate]].
  cbn. split.
  - intros E. injection E as -> -> ->. auto.
  - intros (E0 & E1 & E2). injection E0 as ->. injection E1 as ->.
    injection E2 as ->. reflexivity.
Qed.

(** Allocated bytes always load as a pixel. *)
Lemma load_RGBA8_total (q : Z) (m : heap) :
  allocated q 4 m -> exists px : RGBA8.t, load q m = Ok px.
Proof.
  intros Halloc.
  destruct (Halloc q) as [r Hr]; [lia |]. destruct (Halloc (q + 1)) as [g Hg]; [lia |].
  destruct (Halloc (q + 2)) as [b Hb]; [lia |]. destruct (Halloc (q + 3)) as [a Ha]; [lia |].
  exists (RGBA8.mk r g b a). apply load_RGBA8_iff. auto.
Qed.



Lemma store_u8_Ok (q b : Z) (m : heap) :
  is_Some (m !! q) -> store_u8 q b m = Ok (<[q := b]> m).
Proof. intros [b0 Hb0]. unfold store_u8. rewrite Hb0. reflexivity. Qed.


Lemma pixel_RGBA8_tight (p w h x y : Z) (m : heap) :
  0 <= x < w -> 0 <= y < h -> w * h * sizeof RGBA8.t < 4294967296 ->
  pixel_RGBA8 (Image.mk (Image.HoldsRGBA8
     (Array2d.mk p (View2d.mk p w h (sizeof RGBA8.t) (w * sizeof RGBA8.t))))) x y m
  = load (p + (y * w + x) * sizeof RGBA8.t) m.
Proof.
  intros Hx Hy Hfit. unfold pixel_RGBA8.
  cbn [Image.getAsRGBA8 Image.data_ Array2d.getView Array2d.view_ mbind result_bind].
  rewrite at_tight by assumption. reflexivity.
Qed.


(** The row pointers of a view whose rows lie within 2^32 bytes. *)
Lemma rows_loop {T : Type} `{Pixel T} (d w h ys : Z)
    (B : Z -> Z -> Z -> heap -> result heap) (m : heap) :
  0 <= ys -> (h - 1) * ys < 4294967296 ->
  for_loop h
    (fun y m1 =>
       r ← View2d.row (View2d.mk (T := T) d w h (sizeof T) ys) y;
       for_loop w (fun x m2 => B r y x m2) m1) m
  = for_loop h (fun y m1 => for_loop w (fun x m2 => B (d + y * ys) y x m2) m1) m.
Proof.
  intros Hys Hspan. apply for_loop_ext. intros y m1 Hy. unfold View2d.row.
  cbn [View2d.height_ View2d.data_ View2d.y_stride_].
  rewrite assert_true by (apply Z.ltb_lt; lia). cbn [mbind result_bind].
  rewrite u32_wrap_id; [reflexivity |].
  unfold is_u32. assert (y * ys <= (h - 1) * ys) by (apply Z.mul_le_mono_nonneg_r; lia).
  assert (0 <= y * ys) by (apply Z.mul_nonneg_nonneg; lia). lia.
Qed.

(** The loops of [map_pixels] over the rows of a region. *)
Lemma map_rows (d w h ys : Z) (f : RGBA8.t -> RGBA8.t) (m : heap) :
  0 <= w -> 0 <= h -> w * 4 <= ys ->
  (forall a, in_rows d w h ys 4 a -> is_Some (m !! a)) ->
  exists m',
    for_loop h
      (fun y m1 =>
         for_loop w
           (fun x m2 =>
              px ← load (d + y * ys + x * sizeof RGBA8.t) m2;
              store (d + y * ys + x * sizeof RGBA8.t) (f px) m2) m1) m = Ok m' /\
    (forall x y, 0 <= x < w -> 0 <= y < h ->
       exists px, load (d + y * ys + x * 4) m = Ok px /\
                  load (d + y * ys + x * 4) m' = Ok (f px)) /\
    (forall a, ~ in_rows d w h ys 4 a -> m' !! a = m !! a).
Proof.
  intros Hw Hh Hys Halloc. change (sizeof RGBA8.t) with 4.
  destruct (foreach_element w h 4 (fun x y => d + y * ys + x * 4) m
              (fun x y m2 =>
                 px ← load (d + y * ys + x * 4) m2;
                 store (d + y * ys + x * 4) (f px) m2)
              (fun x y m1 =>
                 exists px, load (d + y * ys + x * 4) m = Ok px /\
                            load (d + y * ys + x * 4) m1 = Ok (f px)) Hw Hh)
    as (m' & Hrun & HR & HU & _).
  - intros x y x' y' Hx Hy Hx' Hy' Hne.
    apply (strided_disjoint d w h ys 4); (assumption || lia).
  - intros x y m0 Hx Hy HU HD.
    assert (Hin : forall a, d + y * ys + x * 4 <= a < d + y * ys + x * 4 + 4 ->
                            in_rows d w h ys 4 a).
    { intros a Ha. exists y. split; [exact Hy | lia]. }
    assert (Hsame : forall a, d + y * ys + x * 4 <= a < d + y * ys + x * 4 + 4 ->
                              m0 !! a = m !! a).
    { intros a Ha. apply HU. intros x' y' Hx' Hy' Hwr.
      assert (Hne : ~ (x' = x /\ y' = y)) by lia.
      destruct (strided_disjoint d w h ys 4 x y x' y'); (assumption || lia). }
    destruct (load_RGBA8_total (d + y * ys + x * 4) m) as [px Hpx].
    { intros a Ha. apply Halloc, Hin. lia. }
    destruct (store_Ok (d + y * ys + x * 4) (f px) m0) as (m1 & Hst & Hld & Hfr & Hdom).
    { intros a Ha. apply HD, Halloc, Hin. exact Ha. }
    exists m1. split; [| split; [| split]].
    + rewrite (load_frame (T := RGBA8.t) _ m m0) by exact Hsame.
      rewrite Hpx. cbn [mbind result_bind]. exact Hst.
    + exists px. split; [exact Hpx | exact Hld].
    + exact Hfr.
    + exact Hdom.
  - intros x y m1 m2 Hx Hy (px & Hpx & Hld) Hsame. exists px. split; [exact Hpx |].
    rewrite (load_frame (T := RGBA8.t) _ m1 m2) by exact Hsame. exact Hld.
  - exists m'. split; [exact Hrun |]. split; [exact HR |].
    intros a Hout. apply HU. intros x y Hx Hy _ Ha. apply Hout. exists y.
    split; [exact Hy | lia].
Qed.

(** The loops of [process_region_new] over the rows of a region. *)
Lemma set_red_rows (d w h ys : Z) (m : heap) :
  0 <= w -> 0 <= h -> w * 4 <= ys ->
  (forall a, in_rows d w h ys 4 a -> is_Some (m !! a)) ->
  exists m',
    for_loop h
      (fun y m1 =>
         for_loop w
           (fun x m2 => store_u8 (d + y * ys + x * sizeof RGBA8.t + 0) 255 m2) m1) m
      = Ok m' /\
    (forall x y, 0 <= x < w -> 0 <= y < h ->
       exists px, load (d + y * ys + x * 4) m = Ok px /\
                  load (d + y * ys + x * 4) m'
                    = Ok (RGBA8.mk 255 (RGBA8.g px) (RGBA8.b px) (RGBA8.a px))) /\
    (forall a, ~ in_rows d w h ys 4 a -> m' !! a = m !! a).
Proof.
  intros Hw Hh Hys Halloc. change (sizeof RGBA8.t) with 4.
  destruct (foreach_element w h 4 (fun x y => d + y * ys + x * 4) m
              (fun x y m2 => store_u8 (d + y * ys + x * 4 + 0) 255 m2)
              (fun x y m1 =>
                 exists px, load (d + y * ys + x * 4) m = Ok px /\
                            load (d + y * ys + x * 4) m1
                              = Ok (RGBA8.mk 255 (RGBA8.g px) (RGBA8.b px) (RGBA8.a px)))
              Hw Hh)
    as (m' & Hrun & HR & HU & _).
  - intros x y x' y' Hx Hy Hx' Hy' Hne.
    apply (strided_disjoint d w h ys 4); (assumption || lia).
  - intros x y m0 Hx Hy HU HD.
    assert (Hin : forall a, d + y * ys + x * 4 <= a < d + y * ys + x * 4 + 4 ->
                            in_rows d w h ys 4 a).
    { intros a Ha. exists y. split; [exact Hy | lia]. }
    assert (Hsame : forall a, d + y * ys + x * 4 <= a < d + y * ys + x * 4 + 4 ->
                              m0 !! a = m !! a).
    { intros a Ha. apply HU. intros x' y' Hx' Hy' Hwr.
      assert (Hne : ~ (x' = x /\ y' = y)) by lia.
      destruct (strided_disjoint d w h ys 4 x y x' y'); (assumption || lia). }
    destruct (load_RGBA8_total (d + y * ys + x * 4) m) as [px Hpx].
    { intros a Ha. apply Halloc, Hin. lia. }
    exists (<[d + y * ys + x * 4 := 255]> m0). split; [| split; [| split]].
    + replace (d + y * ys + x * 4 + 0) with (d + y * ys + x * 4) by ring.
      apply store_u8_Ok, HD, Halloc, Hin. lia.
    + exists px. split; [exact Hpx |].
      apply load_RGBA8_iff in Hpx as (H0 & H1 & H2 & H3).
      apply load_RGBA8_iff. cbn [RGBA8.r RGBA8.g RGBA8.b RGBA8.a].
      rewrite lookup_insert_eq.
      rewrite !lookup_insert_ne by lia.
      rewrite !Hsame by lia. auto.
    + intros a Ha. apply lookup_insert_ne. lia.
    + intros a. destruct (decide (a = d + y * ys + x * 4)) as [-> | Hne].
      * rewrite lookup_insert_eq. split; [intros _ | intros _; eauto].
        apply HD, Halloc, Hin. lia.
      * rewrite lookup_insert_ne by congruence. reflexivity.
  - intros x y m1 m2 Hx Hy (px & Hpx & Hld) Hsame. exists px. split; [exact Hpx |].
    rewrite (load_frame (T := RGBA8.t) _ m1 m2) by exact Hsame. exact Hld.
  - exists m'. split; [exact Hrun |]. split; [exact HR |].
    intros a Hout. apply HU. intros x y Hx Hy _ Ha. apply Hout. exists y.
    split; [exact Hy | lia].
Qed.

(** X18.  On an image made by [createRGBA8(W, H)] (W, H > 0, byte size below
    2^32), in any memory where its buffer is allocated, [map_pixels(img, func)]
    returns with the container as it was; every pixel of the image then holds
    [func] of the pixel it held before, so [getPixel] returns that pixel's
    colour, and memory outside the buffer is as before. *)
Theorem map_pixels_spec (W H p : Z) (init : list Z) (m m1 : heap) (img : Image.t)
    (func : RGBA8.t -> RGBA8.t) (m' : heap) :
  0 < W -> 0 < H -> W * H * sizeof RGBA8.t < 4294967296 ->
  Image.createRGBA8 W H p init m = Ok (img, m1) ->
  allocated p (W * H * sizeof RGBA8.t) m' ->
  exists m2, Usage.map_pixels img func m' = Ok (img, m2) /\
    (forall i j, 0 <= i < W -> 0 <= j < H ->
       exists px, pixel_RGBA8 img i j m' = Ok px /\
                  pixel_RGBA8 img i j m2 = Ok (func px) /\
                  Image.getPixel img i j m2 = Ok (RGBA8.toSColor (func px))) /\
    (forall a, ~ (p <= a < p + W * H * sizeof RGBA8.t) -> m2 !! a = m' !! a).
Proof.
  intros HW HH Hfit E Halloc.
  apply createRGBA8_tight in E as (-> & _ & Hp); try assumption.
  assert (Hrows : forall a, in_rows p W H (W * 4) 4 a -> p <= a < p + W * H * 4).
  { intros a (y & Hy & Ha).
    assert ((y + 1) * (W * 4) <= H * (W * 4)) by (apply Z.mul_le_mono_nonneg_r; lia).
    assert (0 <= y * (W * 4)) by (apply Z.mul_nonneg_nonneg; lia). lia. }
  destruct (map_rows p W H (W * 4) func m') as (m2 & Hrun & Hpx & Hout); try lia.
  { intros a Ha. apply Halloc. change (sizeof RGBA8.t) with 4. apply Hrows, Ha. }
  exists m2. split; [| split].
  - unfold Usage.map_pixels.
    cbn [Image.getAsRGBA8 Image.data_ Array2d.getView Array2d.view_ mbind result_bind
         View2d.getHeight View2d.getWidth View2d.height_ View2d.width_].
    rewrite (rows_loop (T := RGBA8.t) p W H (W * sizeof RGBA8.t)
               (fun r y x m2 =>
                  px ← load (r + x * sizeof RGBA8.t) m2;
                  store (r + x * sizeof RGBA8.t) (func px) m2) m');
      [| change (sizeof RGBA8.t) with 4 in *; lia
       | change (sizeof RGBA8.t) with 4 in *; nia].
    change (W * sizeof RGBA8.t) with (W * 4). rewrite Hrun. reflexivity.
  - intros i j Hi Hj. destruct (Hpx i j Hi Hj) as (px & Hbefore & Hafter).
    exists px.
    rewrite !pixel_RGBA8_tight, getPixel_RGBA8_tight by assumption.
    change (sizeof RGBA8.t) with 4.
    replace (p + (j * W + i) * 4) with (p + j * (W * 4) + i * 4) by ring.
    rewrite Hafter. auto.
  - intros a Ha. apply Hout. intros Hin. apply Ha.
    change (sizeof RGBA8.t) with 4. apply Hrows, Hin.
Qed.

Lemma map_pixels_spec_witness :
  (0 < 10 /\ 10 * 10 * sizeof RGBA8.t < 4294967296 /\
   Image.createRGBA8 10 10 4096 (replicate 400 0) ∅ = Ok (sample_RGBA8, sample_heap 400) /\
   allocated 4096 (10 * 10 * sizeof RGBA8.t) (sample_heap 400)) /\
  exists m2,
    Usage.map_pixels sample_RGBA8
      (fun px => RGBA8.mk (RGBA8.b px) (RGBA8.g px) (RGBA8.r px) 255) (sample_heap 400)
      = Ok (sample_RGBA8, m2) /\
    exists px, pixel_RGBA8 sample_RGBA8 3 7 (sample_heap 400) = Ok px /\
      pixel_RGBA8 sample_RGBA8 3 7 m2
        = Ok (RGBA8.mk (RGBA8.b px) (RGBA8.g px) (RGBA8.r px) 255).
Proof.
  assert (H10 : 0 < 10) by lia.
  assert (Hfit : 10 * 10 * sizeof RGBA8.t < 4294967296) by (simpl; lia).
  assert (Ha : allocated 4096 (10 * 10 * sizeof RGBA8.t) (sample_heap 400))
    by exact (sample_heap_allocated 400).
  split; [exact (conj H10 (conj Hfit (conj sample_RGBA8_created Ha))) |].
  destruct (map_pixels_spec 10 10 4096 (replicate 400 0) ∅ (sample_heap 400) sample_RGBA8
              (fun px => RGBA8.mk (RGBA8.b px) (RGBA8.g px) (RGBA8.r px) 255)
              (sample_heap 400) H10 H10 Hfit sample_RGBA8_created Ha)
    as (m2 & Hrun & Hpx & _).
  exists m2. split; [exact Hrun |].
  destruct (Hpx 3 7 ltac:(lia) ltac:(lia)) as (px & Hb & Ha2 & _).
  exists px. split; [exact Hb | exact Ha2].
Defined.

(** X19.  On an image made by [createRGBA8(W, H)] (W, H > 0, byte size below
    2^32), in any memory where its buffer is allocated,
    [process_region_new(img, x, y, w, h)] with x + w <= W and y + h <= H
    returns with the container as it was; every pixel of the region
    (x <= i < x + w, y <= j < y + h) then has r = 255 and the g, b and a it had
    before, every other pixel of the image is as before, and so is memory
    outside the buffer. *)
Theorem process_region_new_spec (W H p : Z) (init : list Z) (m m1 : heap) (img : Image.t)
    (x y w h : Z) (m' : heap) :
  0 < W -> 0 < H -> W * H * sizeof RGBA8.t < 4294967296 ->
  Image.createRGBA8 W H p init m = Ok (img, m1) ->
  allocated p (W * H * sizeof RGBA8.t) m' ->
  0 <= x -> 0 <= w -> x + w <= W -> 0 <= y -> 0 <= h -> y + h <= H ->
  exists m2, Usage.process_region_new img x y w h m' = Ok (img, m2) /\
    (forall i j, x <= i < x + w -> y <= j < y + h ->
       exists px, pixel_RGBA8 img i j m' = Ok px /\
                  pixel_RGBA8 img i j m2
                    = Ok (RGBA8.mk 255 (RGBA8.g px) (RGBA8.b px) (RGBA8.a px))) /\
    (forall i j, 0 <= i < W -> 0 <= j < H -> ~ (x <= i < x + w /\ y <= j < y + h) ->
       pixel_RGBA8 img i j m2 = pixel_RGBA8 img i j m') /\
    (forall a, ~ (p <= a < p + W * H * sizeof RGBA8.t) -> m2 !! a = m' !! a).
Proof.
  intros HW HH Hfit E Halloc Hx Hw Hxw Hy Hh Hyh.
  apply createRGBA8_tight in E as (-> & _ & Hp); try assumption.
  set (V := View2d.mk (T := RGBA8.t) p W H (sizeof RGBA8.t) (W * sizeof RGBA8.t)).
  assert (HwfV : View2d.wf V).
  { unfold V, View2d.wf, is_u32. cbn [View2d.data_ View2d.width_ View2d.height_
      View2d.x_stride_ View2d.y_stride_]. change (sizeof RGBA8.t) with 4 in *.
    repeat split; nia. }
  change (sizeof RGBA8.t) with 4 in *.
  assert (Hregion :
    (d ← View2d.drop V x y; View2d.take d w h)
    = Ok (View2d.mk (p + y * (W * 4) + x * 4) w h 4 (W * 4))).
  { rewrite (drop_Ok V x y) by (assumption || (unfold V; simpl; lia)).
    cbn [mbind result_bind].
    pose proof (drop_wf_mk V x y HwfV) as HwfD.
    rewrite take_Ok by (try apply HwfD; unfold V; simpl; lia).
    unfold V. cbn [View2d.data_ View2d.width_ View2d.height_ View2d.y_stride_].
    change (sizeof RGBA8.t) with 4.
    assert (Hpos : (0 <? W * 4) = true) by (apply Z.ltb_lt; lia).
    repeat (rewrite Hpos; cbv iota).
    rewrite !u32_wrap_id by (unfold is_u32; nia). reflexivity. }
  assert (Hrows : forall a, in_rows (p + y * (W * 4) + x * 4) w h (W * 4) 4 a ->
                            p <= a < p + W * H * 4).
  { intros a (y' & Hy' & Ha).
    assert ((y + y' + 1) * (W * 4) <= H * (W * 4))
      by (apply Z.mul_le_mono_nonneg_r; lia).
    nia. }
  destruct (set_red_rows (p + y * (W * 4) + x * 4) w h (W * 4) m')
    as (m2 & Hrun & Hin & Hout); try lia.
  { intros a Ha. apply Halloc, Hrows, Ha. }
  exists m2. split; [| split; [| split]].
  - unfold Usage.process_region_new.
    cbn [Image.getAsRGBA8 Image.data_ Array2d.getView Array2d.view_ mbind result_bind].
    fold V.
    destruct (View2d.drop V x y) as [d | f] eqn:Hd; [| discriminate Hregion].
    cbn [mbind result_bind] in Hregion |- *. rewrite Hregion.
    cbn [mbind result_bind View2d.getHeight View2d.getWidth View2d.height_ View2d.width_].
    change 4 with (sizeof RGBA8.t) at 1.
    rewrite (rows_loop (T := RGBA8.t) (p + y * (W * 4) + x * 4) w h (W * 4)
               (fun r j i m2 => store_u8 (r + i * sizeof RGBA8.t + 0) 255 m2) m');
      [| lia | nia].
    rewrite Hrun. reflexivity.
  - intros i j Hi Hj.
    destruct (Hin (i - x) (j - y) ltac:(lia) ltac:(lia)) as (px & Hbefore & Hafter).
    exists px.
    rewrite !(pixel_RGBA8_tight p W H i j) by (assumption || lia).
    change (sizeof RGBA8.t) with 4.
    replace (p + (j * W + i) * 4)
      with (p + y * (W * 4) + x * 4 + (j - y) * (W * 4) + (i - x) * 4) by ring.
    auto.
  - intros i j Hi Hj Hnot.
    rewrite !(pixel_RGBA8_tight p W H i j) by (assumption || lia).
    apply load_frame. intros a Ha. change (sizeof RGBA8.t) with 4 in Ha.
    apply Hout. intros (y' & Hy' & Hrow). apply Hnot.
    assert (Hij : y' + y = j /\ x <= i < x + w); [| lia].
    assert (Hj' : y' + y = j).
    { destruct (Z.lt_trichotomy (y' + y) j) as [Hlt | [Heq | Hgt]]; [| exact Heq |].
      - assert ((y' + y + 1) * (W * 4) <= j * (W * 4))
          by (apply Z.mul_le_mono_nonneg_r; lia). nia.
      - assert ((j + 1) * (W * 4) <= (y' + y) * (W * 4))
          by (apply Z.mul_le_mono_nonneg_r; lia). nia. }
    split; [exact Hj' |]. subst j. nia.
  - intros a Ha. apply Hout. intros Hin'. apply Ha, Hrows, Hin'.
Qed.

Lemma process_region_new_spec_witness :
  (0 < 10 /\ 10 * 10 * sizeof RGBA8.t < 4294967296 /\
   Image.createRGBA8 10 10 4096 (replicate 400 0) ∅ = Ok (sample_RGBA8, sample_heap 400) /\
   allocated 4096 (10 * 10 * sizeof RGBA8.t) (sample_heap 400) /\
   2 + 3 <= 10 /\ 4 + 5 <= 10) /\
  exists m2,
    Usage.process_region_new sample_RGBA8 2 4 3 5 (sample_heap 400)
      = Ok (sample_RGBA8, m2) /\
    (exists px, pixel_RGBA8 sample_RGBA8 4 8 (sample_heap 400) = Ok px /\
       pixel_RGBA8 sample_RGBA8 4 8 m2
         = Ok (RGBA8.mk 255 (RGBA8.g px) (RGBA8.b px) (RGBA8.a px))) /\
    pixel_RGBA8 sample_RGBA8 5 8 m2 = pixel_RGBA8 sample_RGBA8 5 8 (sample_heap 400).
Proof.
  assert (H10 : 0 < 10) by lia.
  assert (Hfit : 10 * 10 * sizeof RGBA8.t < 4294967296) by (simpl; lia).
  assert (Ha : allocated 4096 (10 * 10 * sizeof RGBA8.t) (sample_heap 400))
    by exact (sample_heap_allocated 400).
  assert (Hx : 2 + 3 <= 10) by lia.
  assert (Hy : 4 + 5 <= 10) by lia.
  split; [exact (conj H10 (conj Hfit (conj sample_RGBA8_created (conj Ha (conj Hx Hy))))) |].
  destruct (process_region_new_spec 10 10 4096 (replicate 400 0) ∅ (sample_heap 400)
              sample_RGBA8 2 4 3 5 (sample_heap 400)
              H10 H10 Hfit sample_RGBA8_created Ha)
    as (m2 & Hrun & Hin & Hout & _); try lia.
  exists m2. split; [exact Hrun |]. split; [apply Hin; lia | apply Hout; lia].
Defined.




(** ** Copies of rows *)











(** X22.  [blit_rgba8(dst, src, dst_x, dst_y)] with dst_x > dst.width or
    dst_y > dst.height ends in the assertion failure of [drop]: the
    [u32] differences dst.width - dst_x and dst.height - dst_y wrap around,
    but no row is copied. *)
Theorem blit_rgba8_rejects (dst src : View2d.t RGBA8.t) (dst_x dst_y : Z) (m : heap) :
  View2d.getWidth dst < dst_x \/ View2d.getHeight dst < dst_y ->
  Usage.blit_rgba8 dst src dst_x dst_y m = Fault AssertionFailed.
Proof.
  intros Hout. unfold Usage.blit_rgba8, View2d.drop, View2d.getWidth, View2d.getHeight in *.
  assert (Hc : (dst_x <=? View2d.width_ dst) && (dst_y <=? View2d.height_ dst) = false).
  { apply andb_false_iff. rewrite !Z.leb_gt. exact Hout. }
  rewrite Hc. reflexivity.
Qed.

Lemma blit_rgba8_rejects_witness :
  (View2d.getWidth (sample_view (T := RGBA8.t)) < 11 \/
   View2d.getHeight (sample_view (T := RGBA8.t)) < 0) /\
  Usage.blit_rgba8 sample_view blit_src 11 0 blit_heap = Fault AssertionFailed.
Proof.
  assert (Hout : View2d.getWidth (sample_view (T := RGBA8.t)) < 11 \/
                 View2d.getHeight (sample_view (T := RGBA8.t)) < 0)
    by (left; simpl; lia).
  split; [exact Hout |].
  exact (blit_rgba8_rejects sample_view blit_src 11 0 blit_heap Hout).
Defined.

(** X23.  [process_region_new] on a container whose live format is not
    [RGBA8] ends in the type-mismatch fault.  On an image made by
    [createRGBA8(W, H)], [process_region_new(img, x, y, w, h)] with x > W,
    y > H, w > W - x or h > H - y ends in the assertion failure: no byte is
    written through a region that leaves the image. *)
Theorem process_region_new_rejects (img : Image.t) (x y w h : Z) (m : heap) :
  (Image.isRGBA8 img = false ->
   Usage.process_region_new img x y w h m = Fault BadVariantAccess) /\
  (forall W H p init m0 m1,
     is_u32 W -> is_u32 H ->
     Image.createRGBA8 W H p init m0 = Ok (img, m1) ->
     is_u32 x -> is_u32 y -> is_u32 w -> is_u32 h ->
     ~ (x <= W /\ y <= H /\ w <= W - x /\ h <= H - y) ->
     Usage.process_region_new img x y w h m = Fault AssertionFailed).
Proof.
  split.
  - intros Hfmt. destruct img as [[arr | arr | arr]]; try discriminate Hfmt; reflexivity.
  - intros W H p init m0 m1 HW HH E Hx Hy Hw Hh Hno.
    apply createRGBA8_inv in E as (arr & E & ->).
    pose proof E as E0. apply Array2d_new_inv in E0 as (Ealloc & view & Ev & ->).
    apply operator_new_inv in Ealloc as (Hp & _).
    assert (Hwf : View2d.wf view).
    { apply (new_wf p W H 0); try assumption; [lia | unfold is_u32; lia]. }
    apply View2d_new_inv in Ev as (_ & Hview).
    unfold Usage.process_region_new.
    cbn [Image.getAsRGBA8 Image.data_ Array2d.getView Array2d.view_ mbind result_bind].
    apply drop_take_rejects; try assumption.
    rewrite Hview. exact Hno.
Qed.

Lemma process_region_new_rejects_witness :
  (Image.isRGBA8 sample_RGB8 = false /\
   Image.createRGBA8 10 10 4096 (replicate 400 0) ∅ = Ok (sample_RGBA8, sample_heap 400) /\
   ~ (8 <= 10 /\ 0 <= 10 /\ 3 <= 10 - 8 /\ 1 <= 10 - 0)) /\
  Usage.process_region_new sample_RGB8 0 0 1 1 (sample_heap 300) = Fault BadVariantAccess /\
  Usage.process_region_new sample_RGBA8 8 0 3 1 (sample_heap 400) = Fault AssertionFailed.
Proof.
  assert (Hf : Image.isRGBA8 sample_RGB8 = false) by reflexivity.
  assert (Hno : ~ (8 <= 10 /\ 0 <= 10 /\ 3 <= 10 - 8 /\ 1 <= 10 - 0)) by lia.
  split; [exact (conj Hf (conj sample_RGBA8_created Hno)) |].
  split.
  - exact (proj1 (process_region_new_rejects sample_RGB8 0 0 1 1 (sample_heap 300)) Hf).
  - assert (Hu : forall z, 0 <= z <= 10 -> is_u32 z) by (intros z Hz; unfold is_u32; lia).
    exact (proj2 (process_region_new_rejects sample_RGBA8 8 0 3 1 (sample_heap 400))
             10 10 4096 (replicate 400 0) ∅ (sample_heap 400)
             (Hu 10 ltac:(lia)) (Hu 10 ltac:(lia)) sample_RGBA8_created
             (Hu 8 ltac:(lia)) (Hu 0 ltac:(lia)) (Hu 3 ltac:(lia)) (Hu 1 ltac:(lia)) Hno).
Defined.
